(** * langfuse-handler: prompt runner, experiment runner and run fetcher

    A shallow embedding of [src/langfuse_handler/langfuse_handler.py] and
    [src/langfuse_handler/eval_generator.py], and the properties of
    [PromptRunner.run_prompt], [ExperimentRunner.run_experiment],
    [ExperimentRunner.make_serializable] and
    [ExperimentRunner.get_dataset_run] that the specification states.
    The constructors, [ExperimentRunner.prompt_app] and the two registrars
    ([PromptGenerator], [DatasetGenerator]) are embedded as well, with the
    properties that the code shows for them.

    - Python values are finite trees ([pyobj]); the keys of a dictionary
      are text (attribute names, JSON member names, keyword arguments), and
      a dictionary keeps its insertion order.
    - The two dictionaries that the code writes to through an alias, the
      prompt's stored configuration and the caller's input payload, live in
      a store indexed by references.
    - The observability store, the inference client and the HTTP endpoint
      are an interface ([Remote]) whose calls return or raise.
    - Sleeping, printing and every remote call are recorded, in order, in
      an event log; a duration is an exact rational number of seconds, and
      a rate too large for a float ([float_limit]) is an [OverflowError].
    - A call that passes a dictionary as keyword arguments beside a
      keyword of its own raises [TypeError] when the dictionary holds that
      keyword ([keyword_clash]).
    - A registrar only creates: its effect is the list of the create calls
      it has issued ([Store]). *)

From stdpp Require Import gmap strings list pretty.
From Stdlib Require Import QArith.

Local Open Scope string_scope.
Local Open Scope Z_scope.
Local Open Scope list_scope.

(* ===================================================================== *)
(** * Python values *)
(* ===================================================================== *)

(** Objects that are neither [dict], [list], [str], [bytes] nor carry a
    [__dict__]: the code only ever observes their truth value and their
    [str()]. *)
Inductive atom :=
  | ANone
  | ABool (b : bool)
  | AInt (z : Z)
  | AOther (truth : bool) (text : string).

#[local] Unset Elimination Schemes.
Inductive pyobj :=
  | PStr (s : string)
  | PBytes (b : list Byte.byte)
  | PDict (kvs : list (string * pyobj))
  | PList (xs : list pyobj)
  | PInst (attrs : list (string * pyobj))
  | PAtom (a : atom).
#[local] Set Elimination Schemes.

Abbreviation pydict := (list (string * pyobj)).
Abbreviation PNone := (PAtom ANone).

(** [str(a)] for an atom. *)
Definition atom_str (a : atom) : string :=
  match a with
  | ANone => "None"
  | ABool true => "True"
  | ABool false => "False"
  | AInt z => pretty z
  | AOther _ text => text
  end.

Definition atom_truthy (a : atom) : bool :=
  match a with
  | ANone => false
  | ABool b => b
  | AInt z => negb (z =? 0)
  | AOther truth _ => truth
  end.

Definition is_nil {A} (l : list A) : bool :=
  match l with [] => true | _ => false end.

(** Python truth value: empty containers and empty text are false. *)
Definition truthy (v : pyobj) : bool :=
  match v with
  | PStr s => negb (String.eqb s EmptyString)
  | PBytes b => negb (is_nil b)
  | PDict kvs => negb (is_nil kvs)
  | PList xs => negb (is_nil xs)
  | PInst _ => true
  | PAtom a => atom_truthy a
  end.

(** Nested induction principle for [pyobj]. *)
Section pyobj_induction.
Variable P : pyobj → Prop.
Hypothesis Hstr : ∀ s, P (PStr s).
Hypothesis Hbytes : ∀ b, P (PBytes b).
Hypothesis Hdict : ∀ kvs, Forall (λ kv, P kv.2) kvs → P (PDict kvs).
Hypothesis Hlist : ∀ xs, Forall P xs → P (PList xs).
Hypothesis Hinst : ∀ attrs, Forall (λ kv, P kv.2) attrs → P (PInst attrs).
Hypothesis Hatom : ∀ a, P (PAtom a).

Fixpoint pyobj_nested_ind (v : pyobj) : P v :=
  match v with
  | PStr s => Hstr s
  | PBytes b => Hbytes b
  | PDict kvs =>
      Hdict kvs
        ((fix go (l : pydict) : Forall (λ kv, P kv.2) l :=
            match l with
            | [] => List.Forall_nil _
            | kv :: l' => List.Forall_cons _ kv l' (pyobj_nested_ind kv.2) (go l')
            end) kvs)
  | PList xs =>
      Hlist xs
        ((fix go (l : list pyobj) : Forall P l :=
            match l with
            | [] => List.Forall_nil _
            | x :: l' => List.Forall_cons _ x l' (pyobj_nested_ind x) (go l')
            end) xs)
  | PInst attrs =>
      Hinst attrs
        ((fix go (l : pydict) : Forall (λ kv, P kv.2) l :=
            match l with
            | [] => List.Forall_nil _
            | kv :: l' => List.Forall_cons _ kv l' (pyobj_nested_ind kv.2) (go l')
            end) attrs)
  | PAtom a => Hatom a
  end.
End pyobj_induction.

(* ===================================================================== *)
(** * [ExperimentRunner.make_serializable] *)
(* ===================================================================== *)

(** The branches are tested in the source's order: [dict], [list], an object
    with a [__dict__], then anything that is not [str]/[bytes] (every Python
    object has [__str__]), and finally [str]/[bytes] themselves.  The third
    branch recurses on [obj.__dict__], which is a [dict]; it is written here
    with that step unfolded so that the recursion is structural, and
    [make_serializable_inst] below gives the source's equation back. *)
Fixpoint make_serializable (obj : pyobj) : pyobj :=
  match obj with
  | PDict kvs => PDict (map (λ kv, (kv.1, make_serializable kv.2)) kvs)
  | PList xs => PList (map make_serializable xs)
  | PInst attrs => PDict (map (λ kv, (kv.1, make_serializable kv.2)) attrs)
  | PAtom a => PStr (atom_str a)
  | PStr s => PStr s
  | PBytes b => PBytes b
  end.

(** A tree made of mappings, sequences, text and binary leaves only. *)
Fixpoint plain_tree (v : pyobj) : bool :=
  match v with
  | PStr _ | PBytes _ => true
  | PDict kvs => forallb (λ kv, plain_tree kv.2) kvs
  | PList xs => forallb plain_tree xs
  | PInst _ | PAtom _ => false
  end.

(* ===================================================================== *)
(** * Dictionaries *)
(* ===================================================================== *)

(** A [dict] is kept as the list of its bindings in insertion order.  The
    operations below are the ones the source uses; they keep keys unique. *)

(** [d.get(k)] / [k in d]. *)
Fixpoint dict_get (k : string) (d : pydict) : option pyobj :=
  match d with
  | [] => None
  | (k', v) :: d' => if decide (k = k') then Some v else dict_get k d'
  end.

(** [d[k] = v]: an existing key keeps its position, a new key goes last. *)
Fixpoint dict_set (k : string) (v : pyobj) (d : pydict) : pydict :=
  match d with
  | [] => [(k, v)]
  | (k', v') :: d' =>
      if decide (k = k') then (k, v) :: d' else (k', v') :: dict_set k v d'
  end.

(** [del d[k]] when present. *)
Definition dict_del (k : string) (d : pydict) : pydict :=
  filter (λ kv, kv.1 ≠ k) d.

(** [{**a, **b}]: the bindings of [b] are written over those of [a]. *)
Definition dict_merge (a b : pydict) : pydict :=
  foldl (λ acc kv, dict_set kv.1 kv.2 acc) a b.

(** [{key(x): val(x) for x in xs}]. *)
Definition dict_comp {A} (key : A → string) (val : A → pyobj)
    (xs : list A) : pydict :=
  foldl (λ acc x, dict_set (key x) (val x) acc) [] xs.

Definition dict_keys (d : pydict) : list string := d.*1.

(** [f(k1=..., k2=..., **kwargs)]: a key of [kwargs] that is one of the
    keywords written out is a [TypeError], raised before [f] is entered. *)
Definition keyword_clash (fixed : list string) (kwargs : pydict) : bool :=
  bool_decide (Exists (λ k, k ∈ fixed) (dict_keys kwargs)).

(* ===================================================================== *)
(** * Effects: exceptions, the store, the event log *)
(* ===================================================================== *)

Inductive exn :=
  | AttributeError (name : string)
  | KeyError (key : pyobj)
  | TypeError (what : string)
  | IndexError
  | HTTPError (message : string)
  | OverflowError
  | OpenAIError (message : string)
  | RemoteError (what : string)
  (** a read through a reference the store does not hold: Python has no
      such reads, the store of the model is partial *)
  | InvalidReference.

Abbreviation loc := positive.

(** What the program does to the outside, in the order it does it.  A remote
    call is logged when it is issued, whether or not it then raises. *)
Inductive event :=
  | EvSleep (seconds : Q)
  | EvPrint (line : string)
  | EvGetPrompt (name : string) (kwargs : pydict)
  | EvGetDataset (name : string)
  | EvCompile (kwargs : pydict)
  | EvChatCreate (messages : pyobj) (kwargs : pydict)
  | EvItemRun (item_id : string) (run_name : string) (kwargs : pydict)
  | EvGeneration (name : string) (input : pydict) (metadata : pydict)
      (model : pyobj)
  | EvGenerationUpdate (output : string)
  | EvUpdateTrace (input : pydict) (output : string)
  | EvEvaluate (response : string) (item_id : string)
  | EvHttpGet (url : string) (auth : string * string) (params : pydict)
  | EvTraceGet (trace_id : pyobj).

(** [heap] holds the dictionaries that are reached through more than one
    name; [environ] is [os.environ]. *)
Record state := State {
  heap : gmap loc pydict;
  environ : gmap string string;
  log : list event;
}.

Definition M (A : Type) : Type := state → state * (exn + A).

Definition ret {A} (a : A) : M A := λ s, (s, inr a).
Definition raise {A} (e : exn) : M A := λ s, (s, inl e).
Definition bind {A B} (m : M A) (k : A → M B) : M B :=
  λ s, match m s with
       | (s', inr a) => k a s'
       | (s', inl e) => (s', inl e)
       end.

Notation "x <- m ;; k" := (bind m (λ x, k))
  (at level 100, m at next level, right associativity).
Notation "m ;;; k" := (bind m (λ _, k))
  (at level 100, right associativity).

Definition lift {A} (r : exn + A) : M A := λ s, (s, r).

(** [try: m except E: h] for the exceptions selected by [catches]. *)
Definition try_except {A} (m : M A) (catches : exn → bool) (h : exn → M A)
    : M A :=
  λ s, match m s with
       | (s', inl e) => if catches e then h e s' else (s', inl e)
       | r => r
       end.

Definition emit (e : event) : M unit :=
  λ s, (State (heap s) (environ s) (log s ++ [e]), inr tt).

Definition heap_get (l : loc) : M pydict :=
  λ s, match heap s !! l with
       | Some d => (s, inr d)
       | None => (s, inl InvalidReference)
       end.

Definition heap_put (l : loc) (d : pydict) : M unit :=
  λ s, (State (<[l := d]> (heap s)) (environ s) (log s), inr tt).

(** [obj[k] = v] on the dictionary at [l]. *)
Definition heap_setitem (l : loc) (k : string) (v : pyobj) : M unit :=
  d <- heap_get l ;; heap_put l (dict_set k v d).

(** [obj.pop(k, default)] on the dictionary at [l]. *)
Definition heap_pop (l : loc) (k : string) (default : pyobj) : M pyobj :=
  d <- heap_get l ;;
  match dict_get k d with
  | Some v => heap_put l (dict_del k d) ;;; ret v
  | None => ret default
  end.

(** [os.environ[k]]. *)
Definition environ_get (k : string) : M string :=
  λ s, match environ s !! k with
       | Some v => (s, inr v)
       | None => (s, inl (KeyError (PStr k)))
       end.

(** [os.environ[k] = os.getenv(k)]: assigning [None] is a [TypeError]. *)
Definition environ_refresh (k : string) : M unit :=
  λ s, match environ s !! k with
       | Some v => (State (heap s) (<[k := v]> (environ s)) (log s), inr tt)
       | None => (s, inl (TypeError "str expected, not NoneType"))
       end.

Fixpoint for_each {A} (body : A → M unit) (xs : list A) : M unit :=
  match xs with
  | [] => ret tt
  | x :: xs' => body x ;;; for_each body xs'
  end.

(** [time.sleep(t)]. *)
Definition sleep (t : Q) : M unit := emit (EvSleep t).

(** The least [int] that cannot be converted to a float: the integers from
    [2^1024 - 2^970] on round to [2^1024], which is no double. *)
Definition float_limit : Z := 2 ^ 1024 - 2 ^ 970.

(** [60.0 / requests_per_minute if requests_per_minute > 0 else 0].  The
    division converts the [int] to a float first, and that is an
    [OverflowError] from [float_limit] on.  The quotient itself is kept as
    an exact rational, of which Python has the nearest double. *)
Definition sleep_time (requests_per_minute : Z) : exn + Q :=
  if 0 <? requests_per_minute then
    if requests_per_minute <? float_limit
    then inr (60 / inject_Z requests_per_minute)%Q
    else inl OverflowError
  else inr 0%Q.

(** [if sleep_time > 0: time.sleep(sleep_time)]. *)
Definition sleep_if_positive (t : Q) : M unit :=
  if Qlt_le_dec 0 t then sleep t else ret tt.

(* ===================================================================== *)
(** * The remote services *)
(* ===================================================================== *)

Record Prompt := {
  prompt_name : string;
  (** [prompt.config]: a reference, the same dictionary on every access *)
  prompt_config : loc;
}.

Record DatasetItem := {
  item_id : string;
  (** [item.input]: the payload dictionary, by reference *)
  item_input : loc;
  (** the remaining attributes of the item, by name *)
  item_fields : pydict;
}.

Record Dataset := {
  dataset_id : string;
  dataset_items : list DatasetItem;
}.

Record Response := {
  status_code : Z;
  (** the message of the [HTTPError] that [raise_for_status] builds *)
  status_message : string;
  response_text : string;
  (** [response.json()] *)
  response_json : exn + pyobj;
}.

(** The collaborators, none of which lives in this repository.  Each answer
    may depend on everything that happened before ([history] is the log at
    the time of the call), and may be an exception. *)
Class Remote := {
  load_dotenv : string → gmap string string → gmap string string;
  get_prompt : list event → string → pydict → exn + Prompt;
  prompt_compile : list event → Prompt → pydict → exn + pyobj;
  chat_completions_create : list event → pyobj → pydict → exn + list string;
  get_dataset : list event → string → exn + Dataset;
  item_run : list event → DatasetItem → string → pydict → exn + unit;
  start_generation :
    list event → string → pydict → pydict → pyobj → exn + unit;
  generation_update : list event → string → exn + unit;
  update_trace : list event → pydict → string → exn + unit;
  requests_get :
    list event → string → string * string → pydict → exn + Response;
  trace_get : list event → pyobj → exn + pyobj;
  (** [str()] of a container or an instance *)
  str_compound : pyobj → string;
}.

(** Issue a call: log it, then ask the service. *)
Definition ask {A} (answer : list event → exn + A) : M A :=
  λ s, (s, answer (log s)).

Definition call {A} (e : event) (answer : list event → exn + A) : M A :=
  emit e ;;; ask answer.

(** A call that is handed [**kwargs] besides the keywords written out: a
    duplicate keyword is a [TypeError] at the call site, and the service is
    not entered. *)
Definition call_keywords {A} (fixed : list string) (kwargs : pydict)
    (e : event) (answer : list event → exn + A) : M A :=
  if keyword_clash fixed kwargs
  then raise (TypeError "got multiple values for keyword argument")
  else call e answer.

(* ===================================================================== *)
(** * [langfuse_handler.py]: [PromptRunner] *)
(* ===================================================================== *)

Section program.
Context {remote : Remote}.

(** The start of every constructor: with a non-empty [env_path], load the
    file and copy each listed variable back into [os.environ]. *)
Definition load_env (env_path : option string) (keys : list string) : M unit :=
  match env_path with
  | Some path =>
      if truthy (PStr path) then
        (λ s, (State (heap s) (load_dotenv path (environ s)) (log s), inr tt)) ;;;
        for_each environ_refresh keys
      else ret tt
  | None => ret tt
  end.

Record PromptRunner := { prompt : Prompt }.

(** [OpenAI()]: the inference client takes its key from the environment
    and refuses to be built without one. *)
Definition OpenAI : M unit :=
  λ s, match environ s !! "OPENAI_API_KEY" with
       | Some _ => (s, inr tt)
       | None => (s, inl (OpenAIError "The api_key client option must be set"))
       end.

(** [PromptRunner.__init__], with [model_client] left at its default
    ["openai"], as every call in the repository has it: the client is
    built by [OpenAI()] before the prompt is requested.  What that client
    answers is part of [Remote]. *)
Definition PromptRunner_init (prompt_name : string) (env_path : option string)
    (kwargs : pydict) : M PromptRunner :=
  load_env env_path
    ["LANGFUSE_PUBLIC_KEY"; "LANGFUSE_SECRET_KEY"; "LANGFUSE_HOST";
     "OPENAI_API_KEY"] ;;;
  OpenAI ;;;
  p <- call (EvGetPrompt prompt_name kwargs)
         (λ h, get_prompt h prompt_name kwargs) ;;
  ret {| prompt := p |}.

(** [f"{value}"]. *)
Definition py_format (v : pyobj) : string :=
  match v with
  | PStr s => s
  | PAtom a => atom_str a
  | _ => str_compound v
  end.

(** [f"'{key}': {value}"]. *)
Definition schema_entry (kv : string * pyobj) : string :=
  "'" +:+ kv.1 +:+ "': " +:+ py_format kv.2.

(** [', '.join([... for key, value in json_schema.items()])]. *)
Definition schema_str (items : pydict) : string :=
  String.concat ", " (schema_entry <$> items).

(** [obj.items()]: only a [dict] has it. *)
Definition py_items (v : pyobj) : exn + pydict :=
  match v with
  | PDict kvs => inr kvs
  | _ => inl (AttributeError "items")
  end.

(** [response.choices[0].message.content]. *)
Definition first_choice (choices : list string) : exn + string :=
  match choices with
  | c :: _ => inr c
  | [] => inl IndexError
  end.

(** [if not config: config = self.prompt.config].  [config = None] is a call
    that leaves the argument out: its default [{}] is empty, hence replaced
    by the prompt's configuration, and never written to. *)
Definition select_config (self : PromptRunner) (config : option loc) : M loc :=
  match config with
  | Some c =>
      d <- heap_get c ;;
      ret (if truthy (PDict d) then c else prompt_config (prompt self))
  | None => ret (prompt_config (prompt self))
  end.

(** [PromptRunner.run_prompt(input_data, config)].  [input_data] and [config]
    are the caller's dictionaries, by reference. *)
Definition run_prompt (self : PromptRunner) (input_data : loc)
    (config : option loc) : M string :=
  config <- select_config self config ;;
  json_schema <- heap_pop config "json_schema" (PDict []) ;;
  (if truthy json_schema then
     items <- lift (py_items json_schema) ;;
     heap_setitem input_data "json_schema_str" (PStr (schema_str items))
   else ret tt) ;;;
  kwargs <- heap_get input_data ;;
  messages <- call (EvCompile kwargs)
                (λ h, prompt_compile h (prompt self) kwargs) ;;
  cfg <- heap_get config ;;
  choices <- call_keywords ["messages"] cfg (EvChatCreate messages cfg)
               (λ h, chat_completions_create h messages cfg) ;;
  lift (first_choice choices).

(* ===================================================================== *)
(** * [eval_generator.py]: [ExperimentRunner] *)
(* ===================================================================== *)

(** The instance attributes that the methods read, besides the client:
    [runner_env_path] is [None] as long as no [env_path] attribute has been
    assigned to the object. *)
Record ExperimentRunner := { runner_env_path : option (option string) }.

(** [ExperimentRunner.__init__]: it assigns [self.langfuse] only. *)
Definition ExperimentRunner_init (env_path : option string)
    : M ExperimentRunner :=
  load_env env_path
    ["LANGFUSE_PUBLIC_KEY"; "LANGFUSE_SECRET_KEY"; "LANGFUSE_HOST";
     "OPENAI_API_KEY"] ;;;
  ret {| runner_env_path := None |}.

(** [self.env_path]. *)
Definition self_env_path (self : ExperimentRunner) : M (option string) :=
  match runner_env_path self with
  | Some p => ret p
  | None => raise (AttributeError "env_path")
  end.

(** [ExperimentRunner.run_prompt]. *)
Definition runner_run_prompt (prompt_runner : PromptRunner) (input_data : loc)
    : M string :=
  run_prompt prompt_runner input_data None.

(** [d[k]] on a dictionary value. *)
Definition dict_item (d : pydict) (k : string) : exn + pyobj :=
  match dict_get k d with
  | Some v => inr v
  | None => inl (KeyError (PStr k))
  end.

(** [ExperimentRunner.prompt_app]. *)
Definition prompt_app (prompt_runner : PromptRunner) (input_data : loc)
    (item_id run_name : string) : M string :=
  let p := prompt prompt_runner in
  inp <- heap_get input_data ;;
  cfg <- heap_get (prompt_config p) ;;
  model <- lift (dict_item cfg "model") ;;
  let name := prompt_name p +:+ "-llm-call" in
  let metadata := [("item_id", PStr item_id); ("run", PStr run_name)] in
  call (EvGeneration name inp metadata model)
    (λ h, start_generation h name inp metadata model) ;;;
  response <- runner_run_prompt prompt_runner input_data ;;
  call (EvGenerationUpdate response) (λ h, generation_update h response) ;;;
  inp' <- heap_get input_data ;;
  call (EvUpdateTrace inp' response) (λ h, update_trace h inp' response) ;;;
  ret response.

(** [l[:stop]]. *)
Definition slice_to {A} (l : list A) (stop : option Z) : list A :=
  match stop with
  | None => l
  | Some n =>
      if 0 <=? n then take (Z.to_nat n) l
      else take (Z.to_nat (Z.of_nat (length l) + n)) l
  end.

(** The caller's [evaluator(response, item, root_span)]. *)
Definition Evaluator : Type := list event → string → DatasetItem → exn + unit.

(** One turn of the loop of [run_experiment]. *)
Definition run_item (prompt_runner : PromptRunner) (experiment_name : string)
    (evaluator : option Evaluator) (experiment_params : pydict)
    (sleep_time : Q) (item : DatasetItem) : M unit :=
  call_keywords ["run_name"] experiment_params
    (EvItemRun (item_id item) experiment_name experiment_params)
    (λ h, item_run h item experiment_name experiment_params) ;;;
  response <- prompt_app prompt_runner (item_input item) (item_id item)
                experiment_name ;;
  match evaluator with
  | Some ev => call (EvEvaluate response (item_id item))
                 (λ h, ev h response item)
  | None => ret tt
  end ;;;
  sleep_if_positive sleep_time.

(** [ExperimentRunner.run_experiment].  [requests_per_minute = None] is a
    call that leaves the argument out. *)
Definition run_experiment (self : ExperimentRunner)
    (experiment_name prompt_name dataset_name : string)
    (evaluator : option Evaluator) (experiment_params : pydict)
    (test_count : option Z) (requests_per_minute : option Z) : M unit :=
  let requests_per_minute := default 1000 requests_per_minute in
  env_path <- self_env_path self ;;
  prompt_runner <- PromptRunner_init prompt_name env_path [] ;;
  dataset <- call (EvGetDataset dataset_name)
               (λ h, get_dataset h dataset_name) ;;
  sleep_time <- lift (sleep_time requests_per_minute) ;;
  for_each
    (run_item prompt_runner experiment_name evaluator experiment_params
       sleep_time)
    (slice_to (dataset_items dataset) test_count).

(** [obj[k]] for a text key: only a [dict] can be indexed by text. *)
Definition subscript (obj : pyobj) (k : string) : exn + pyobj :=
  match obj with
  | PDict kvs => dict_item kvs k
  | _ => inl (TypeError "indices")
  end.

(** [obj.name]. *)
Definition getattr_strict (obj : pyobj) (name : string) : exn + pyobj :=
  match obj with
  | PInst attrs =>
      match dict_get name attrs with
      | Some v => inr v
      | None => inl (AttributeError name)
      end
  | _ => inl (AttributeError name)
  end.

(** [getattr(obj, name, default)]. *)
Definition getattr (obj : pyobj) (name : string) (default : pyobj) : pyobj :=
  match getattr_strict obj name with
  | inr v => v
  | inl _ => default
  end.

(** The attributes of a dataset item as an object: [id], [input] (read
    through its reference) and the remaining fields. *)
Definition item_object (item : DatasetItem) : M pyobj :=
  inp <- heap_get (item_input item) ;;
  ret (PInst (("id", PStr (item_id item)) :: ("input", PDict inp)
              :: item_fields item)).

(** What a [for] loop iterates over. *)
Definition py_iter (obj : pyobj) : exn + list pyobj :=
  match obj with
  | PList xs => inr xs
  | PDict kvs => inr (PStr <$> dict_keys kvs)
  | PStr s => inr ((λ c, PStr (String c EmptyString)) <$> String.list_ascii_of_string s)
  | PBytes b => inr ((λ c, PAtom (AInt (Z.of_N (Byte.to_N c)))) <$> b)
  | PInst _ | PAtom _ => inl (TypeError "not iterable")
  end.

(** [{item.id: item for item in dataset.items}]: a later item replaces an
    earlier one with the same id. *)
Definition build_item_lookup (items : list DatasetItem)
    : gmap string DatasetItem :=
  foldl (λ acc item, <[item_id item := item]> acc) ∅ items.

(** [item_lookup[key]]. *)
Definition lookup_item (item_lookup : gmap string DatasetItem) (key : pyobj)
    : exn + DatasetItem :=
  match key with
  | PStr k =>
      match item_lookup !! k with
      | Some item => inr item
      | None => inl (KeyError key)
      end
  | PDict _ | PList _ => inl (TypeError "unhashable")
  | _ => inl (KeyError key)
  end.

(** [response.raise_for_status()]. *)
Definition raise_for_status (response : Response) : M unit :=
  if bool_decide (400 ≤ status_code response < 600)
  then raise (HTTPError (status_message response))
  else ret tt.

Definition is_HTTPError (e : exn) : bool :=
  match e with HTTPError _ => true | _ => false end.

Definition exn_str (e : exn) : string :=
  match e with
  | HTTPError message => message
  | AttributeError name => name
  | KeyError key => py_format key
  | TypeError what | RemoteError what => what
  | IndexError => "list index out of range"
  | OverflowError => "int too large to convert to float"
  | OpenAIError message => message
  | InvalidReference => EmptyString
  end.

(** [{attr: getattr(obj, attr, None) for attr in fields}]. *)
Definition project (obj : pyobj) (fields : list string) : pydict :=
  dict_comp id (λ attr, getattr obj attr PNone) fields.

(** [{**trace_dict, **item_dict}]. *)
Definition combine (trace item : pyobj) (trace_info dataset_item_info : list string)
    : pydict :=
  let trace_dict := project trace trace_info in
  let item_dict := project item dataset_item_info in
  dict_merge trace_dict item_dict.

(** One turn of the loop of [get_dataset_run]; its result is the value that
    is appended to [run_traces]. *)
Definition fetch_trace (item_lookup : gmap string DatasetItem)
    (trace_info dataset_item_info : list string) (sleep_time : Q)
    (trace : pyobj) : M pydict :=
  trace_id <- lift (subscript trace "traceId") ;;
  trace <- call (EvTraceGet trace_id) (λ h, trace_get h trace_id) ;;
  metadata <- lift (getattr_strict trace "metadata") ;;
  key <- lift (subscript metadata "dataset_item_id") ;;
  item <- lift (lookup_item item_lookup key) ;;
  item <- item_object item ;;
  let combined_dict := combine trace item trace_info dataset_item_info in
  sleep_if_positive sleep_time ;;;
  ret combined_dict.

(** The [for] loop with its [run_traces.append]. *)
Fixpoint collect {A B} (body : A → M B) (xs : list A) : M (list B) :=
  match xs with
  | [] => ret []
  | x :: xs' => b <- body x ;; bs <- collect body xs' ;; ret (b :: bs)
  end.

(** [f"{os.environ['LANGFUSE_HOST']}/api/public/dataset-run-items"]. *)
Definition run_items_url (host : string) : string :=
  host +:+ "/api/public/dataset-run-items".

(** The query of the run-items GET. *)
Definition run_items_params (datasetId run_name : string) (limit : Z) : pydict :=
  [("datasetId", PStr datasetId); ("runName", PStr run_name);
   ("limit", PAtom (AInt limit)); ("response", PStr "json")].

(** [f"API request failed: {e} - {response.text}"]. *)
Definition failure_line (e : exn) (response : Response) : string :=
  "API request failed: " +:+ exn_str e +:+ " - " +:+ response_text response.

(** [ExperimentRunner.get_dataset_run].  An argument given as [None] is one
    the call leaves out. *)
Definition get_dataset_run (self : ExperimentRunner)
    (dataset_name run_name : string) (limit requests_per_minute : option Z)
    (trace_info dataset_item_info : option (list string))
    : M (option (list pyobj)) :=
  let limit := default 100 limit in
  let requests_per_minute := default 25 requests_per_minute in
  let trace_info := default ["input"; "output"] trace_info in
  let dataset_item_info := default [] dataset_item_info in
  host <- environ_get "LANGFUSE_HOST" ;;
  let url := run_items_url host in
  dataset <- call (EvGetDataset dataset_name)
               (λ h, get_dataset h dataset_name) ;;
  let datasetId := dataset_id dataset in
  public_key <- environ_get "LANGFUSE_PUBLIC_KEY" ;;
  secret_key <- environ_get "LANGFUSE_SECRET_KEY" ;;
  let params := run_items_params datasetId run_name limit in
  response <- call (EvHttpGet url (public_key, secret_key) params)
                (λ h, requests_get h url (public_key, secret_key) params) ;;
  ok <- try_except (raise_for_status response ;;; ret true) is_HTTPError
          (λ e, emit (EvPrint (failure_line e response)) ;;; ret false) ;;
  if ok : bool then
    body <- lift (response_json response) ;;
    run_items <- lift (subscript body "data") ;;
    sleep_time <- lift (sleep_time requests_per_minute) ;;
    let item_lookup := build_item_lookup (dataset_items dataset) in
    run_items <- lift (py_iter run_items) ;;
    run_traces <- collect (fetch_trace item_lookup trace_info dataset_item_info
                             sleep_time) run_items ;;
    let serialized_run_traces :=
      (λ trace, make_serializable (PDict trace)) <$> run_traces in
    ret (Some serialized_run_traces)
  else ret None.

End program.

(* ===================================================================== *)
(** * What a log says *)
(* ===================================================================== *)

Definition sleeps (l : list event) : list Q :=
  omap (λ e, match e with EvSleep t => Some t | _ => None end) l.

(** The items a run opened a tracing context for, in that order. *)
Definition item_runs (l : list event) : list string :=
  omap (λ e, match e with EvItemRun i _ _ => Some i | _ => None end) l.

Definition trace_gets (l : list event) : list pyobj :=
  omap (λ e, match e with EvTraceGet i => Some i | _ => None end) l.

Definition chat_configs (l : list event) : list pydict :=
  omap (λ e, match e with EvChatCreate _ c => Some c | _ => None end) l.

Definition compile_inputs (l : list event) : list pydict :=
  omap (λ e, match e with EvCompile k => Some k | _ => None end) l.

Definition total_sleep (l : list event) : Q :=
  foldr Qplus 0%Q (sleeps l).

(** The events that the statements below count. *)
Definition counted (e : event) : bool :=
  match e with
  | EvSleep _ | EvItemRun _ _ _ | EvTraceGet _ => true
  | _ => false
  end.

(** A computation that only ever appends uncounted events to the log. *)
Definition quiet {A} (m : M A) : Prop :=
  ∀ s s' r, m s = (s', r) →
    ∃ evs, log s' = log s ++ evs ∧ Forall (λ e, counted e = false) evs.

(** The sleeps of one completed turn of a rate-limited loop. *)
Definition turn_sleeps (t : Q) : list Q :=
  if Qlt_le_dec 0 t then [t] else [].

(** What one turn of a loop adds to the log: its counted calls [head],
    then its sleep; a turn that raises has not slept. *)
Definition turn_spec {A} (head : list event) (t : Q) (s s' : state)
    (r : exn + A) : Prop :=
  ∃ evs, log s' = log s ++ evs ∧
    match r with
    | inr _ =>
        sleeps evs = turn_sleeps t ∧
        item_runs evs = item_runs head ∧
        trace_gets evs = trace_gets head
    | inl _ =>
        sleeps evs = [] ∧
        item_runs evs `prefix_of` item_runs head ∧
        trace_gets evs `prefix_of` trace_gets head
    end.

(** A loop of such turns: a completed loop has run every turn and slept
    after each of them, the last one included; a loop that raises in turn
    [m] (counting from 0) has slept after the [m] turns before it. *)
Definition loop_spec {A B} (head : A → list event) (t : Q) (xs : list A)
    (s s' : state) (r : exn + B) : Prop :=
  ∃ evs, log s' = log s ++ evs ∧
    match r with
    | inr _ =>
        sleeps evs = xs ≫= (λ _, turn_sleeps t) ∧
        item_runs evs = item_runs (xs ≫= head) ∧
        trace_gets evs = trace_gets (xs ≫= head)
    | inl _ =>
        ∃ m : nat, (m < length xs)%nat ∧
          sleeps evs = take m xs ≫= (λ _, turn_sleeps t) ∧
          item_runs evs `prefix_of` item_runs (xs ≫= head) ∧
          trace_gets evs `prefix_of` trace_gets (xs ≫= head)
    end.

(** A computation that leaves the store as it is. *)
Definition heap_stable {A} (m : M A) : Prop :=
  ∀ s s' r, m s = (s', r) → heap s' = heap s.

(** [hasattr(obj, name)]. *)
Definition hasattr (obj : pyobj) (name : string) : bool :=
  match getattr_strict obj name with inr _ => true | inl _ => false end.

(** The part of [get_dataset_run] before the loop went through: the
    environment holds the three variables, the dataset was loaded, the
    endpoint answered with a status that is no error and a JSON body whose
    ["data"] can be iterated over.  [s0] is the state the loop starts in. *)
Definition reaches_loop {remote : Remote} (s : state) (dataset_name run_name : string)
    (limit : option Z) (dataset : Dataset) (run_items : list pyobj)
    (s0 : state) : Prop :=
  ∃ host public_key secret_key response body data,
    environ s !! "LANGFUSE_HOST" = Some host ∧
    environ s !! "LANGFUSE_PUBLIC_KEY" = Some public_key ∧
    environ s !! "LANGFUSE_SECRET_KEY" = Some secret_key ∧
    let url := run_items_url host in
    let params :=
      run_items_params (dataset_id dataset) run_name (default 100 limit) in
    let request := EvHttpGet url (public_key, secret_key) params in
    get_dataset (log s ++ [EvGetDataset dataset_name]) dataset_name
      = inr dataset ∧
    requests_get (log s ++ [EvGetDataset dataset_name; request]) url
      (public_key, secret_key) params = inr response ∧
    ¬ 400 ≤ status_code response < 600 ∧
    response_json response = inr body ∧
    subscript body "data" = inr data ∧
    py_iter data = inr run_items ∧
    s0 = State (heap s) (environ s)
           (log s ++ [EvGetDataset dataset_name; request]).

(** The schema entry of a configuration, if any, is one that [run_prompt]
    can render: a mapping, or a value that counts as false. *)
Definition schema_ok (cfg : pydict) : Prop :=
  ∀ v, dict_get "json_schema" cfg = Some v → truthy v = true →
    ∃ schema, v = PDict schema.

(** The store is ready for a batch over [items] with the prompt [p]: the
    stored configuration names a model, has no [messages] entry of its own
    and has a renderable schema, and every item has its input payload. *)
Definition ready (p : Prompt) (items : list DatasetItem) (s : state) : Prop :=
  (∃ cfg, heap s !! prompt_config p = Some cfg ∧
     is_Some (dict_get "model" cfg) ∧ dict_get "messages" cfg = None ∧
     schema_ok cfg) ∧
  Forall (λ item, is_Some (heap s !! item_input item)) items.

(** Services that answer every call of a batch: no remote call raises, the
    inference client returns at least one choice, the evaluator accepts. *)
Record reliable {remote : Remote} (p : Prompt) (evaluator : option Evaluator)
    : Prop := {
  reliable_compile : ∀ h kwargs, ∃ messages, prompt_compile h p kwargs = inr messages;
  reliable_create : ∀ h messages cfg,
    ∃ c cs, chat_completions_create h messages cfg = inr (c :: cs);
  reliable_item_run : ∀ h item run_name params,
    item_run h item run_name params = inr tt;
  reliable_generation : ∀ h name input metadata model,
    start_generation h name input metadata model = inr tt;
  reliable_update : ∀ h output, generation_update h output = inr tt;
  reliable_trace : ∀ h input output, update_trace h input output = inr tt;
  reliable_evaluator : ∀ ev, evaluator = Some ev →
    ∀ h response item, ev h response item = inr tt;
}.

(* ===================================================================== *)
(** * A small world to run the code in *)
(* ===================================================================== *)

(** The scenario of the specification, extended to three items: a prompt
    whose configuration carries a schema, a dataset, an inference client
    that always answers ["bar"]. *)
Module Scenario.

Definition config_ref : loc := 1%positive.
Definition input_ref (i : nat) : loc := Pos.of_nat (2 + i).

Definition the_prompt : Prompt :=
  {| prompt_name := "attestation"; prompt_config := config_ref |}.

Definition item (i : nat) (id expected : string) : DatasetItem :=
  {| item_id := id; item_input := input_ref i;
     item_fields := [("expected_output", PStr expected);
                     ("output", PStr ("item-" +:+ id))] |}.

Definition items : list DatasetItem :=
  [item 0 "a" "foo"; item 1 "b" "baz"; item 2 "c" "qux"].

Definition the_dataset : Dataset :=
  {| dataset_id := "ds-1"; dataset_items := items |}.

Definition trace_of (id : string) : pyobj :=
  PInst [("input", PDict [("x", PAtom (AInt 1))]);
         ("output", PStr "bar");
         ("metadata", PDict [("dataset_item_id", PStr id)])].

Definition run_items_of (ids : list string) : pyobj :=
  PDict [("data", PList ((λ i, PDict [("traceId", PStr i)]) <$> ids))].

(** The run-items endpoint knows three runs: ["full"] lists the traces of
    all items, ["orphan"] lists a trace recorded for an item the dataset
    does not hold, and any other name is refused. *)
Definition endpoint (params : pydict) : Response :=
  match dict_get "runName" params with
  | Some (PStr "full") =>
      {| status_code := 200; status_message := "OK"; response_text := "{}";
         response_json := inr (run_items_of ["a"; "b"; "c"]) |}
  | Some (PStr "one") =>
      {| status_code := 200; status_message := "OK"; response_text := "{}";
         response_json := inr (run_items_of ["a"]) |}
  | Some (PStr "orphan") =>
      {| status_code := 200; status_message := "OK"; response_text := "{}";
         response_json := inr (run_items_of ["a"; "zzz"; "c"]) |}
  | _ =>
      {| status_code := 401; status_message := "401 Client Error";
         response_text := "unauthorized";
         response_json := inl (TypeError "not json") |}
  end.

Definition world : Remote := {|
  load_dotenv := λ _ env, env;
  get_prompt := λ _ _ _, inr the_prompt;
  prompt_compile := λ _ _ kwargs, inr (PList [PDict kwargs]);
  chat_completions_create := λ _ _ _, inr ["bar"];
  get_dataset := λ _ _, inr the_dataset;
  item_run := λ _ _ _ _, inr tt;
  start_generation := λ _ _ _ _ _, inr tt;
  generation_update := λ _ _, inr tt;
  update_trace := λ _ _ _, inr tt;
  requests_get := λ _ _ _ params, inr (endpoint params);
  trace_get := λ _ id, match id with
                       | PStr i => inr (trace_of i)
                       | _ => inl (RemoteError "no such trace")
                       end;
  str_compound := λ _, "<object>";
|}.

Definition stored_config : pydict :=
  [("model", PStr "m"); ("json_schema", PDict [("s", PStr "skill")])].

Definition start : state :=
  {| heap := {[ config_ref := stored_config;
                input_ref 0 := [("x", PAtom (AInt 1))];
                input_ref 1 := [("x", PAtom (AInt 2))];
                input_ref 2 := [("x", PAtom (AInt 3))] ]};
     environ := {[ "LANGFUSE_HOST" := "https://host";
                   "LANGFUSE_PUBLIC_KEY" := "pk";
                   "LANGFUSE_SECRET_KEY" := "sk";
                   "OPENAI_API_KEY" := "sk-test" ]};
     log := [] |}.

Definition runner : PromptRunner := {| prompt := the_prompt |}.

(** An [ExperimentRunner] whose [env_path] attribute has been assigned
    ([runner.env_path = None]) after construction. *)
Definition patched : ExperimentRunner := {| runner_env_path := Some None |}.

(** The object that [get_dataset_run] reads the fields of item ["a"] from. *)
Definition item_a : pyobj :=
  PInst [("id", PStr "a"); ("input", PDict [("x", PAtom (AInt 1))]);
         ("expected_output", PStr "foo"); ("output", PStr "item-a")].

End Scenario.

(* ===================================================================== *)
(** * The registrars and the remaining methods *)
(* ===================================================================== *)

(** [PromptGenerator.__init__] and [DatasetGenerator.__init__]: the same
    start as the runners' constructors, without the inference key. *)
Definition PromptGenerator_init {remote : Remote} (env_path : option string)
    : M unit :=
  load_env env_path
    ["LANGFUSE_PUBLIC_KEY"; "LANGFUSE_SECRET_KEY"; "LANGFUSE_HOST"].

Definition DatasetGenerator_init {remote : Remote} (env_path : option string)
    : M unit :=
  load_env env_path
    ["LANGFUSE_PUBLIC_KEY"; "LANGFUSE_SECRET_KEY"; "LANGFUSE_HOST"].

(** The create calls that reach the observability store. *)
Inductive store_call :=
  | CreatePrompt (name : string) (prompt : pyobj) (kwargs : pydict)
  | CreateDataset (name : string) (kwargs : pydict)
  | CreateDatasetItem (dataset_name : string) (kwargs : pydict).

(** The store's answer to the last call of a history: it accepts, or it
    raises. *)
Class Store := { store_answer : list store_call → exn + unit }.

(** A registrar method: from the calls issued so far to the calls issued
    when it ends, and its outcome. *)
Definition W (A : Type) : Type :=
  list store_call → list store_call * (exn + A).

Definition wret {A} (a : A) : W A := λ h, (h, inr a).
Definition wraise {A} (e : exn) : W A := λ h, (h, inl e).
Definition wbind {A B} (m : W A) (k : A → W B) : W B :=
  λ h, match m h with
       | (h', inr a) => k a h'
       | (h', inl e) => (h', inl e)
       end.

Definition issue {store : Store} (c : store_call) : W unit :=
  λ h, (h ++ [c], store_answer (h ++ [c])).

(** A create call that is handed [**kwargs] besides the keywords written
    out. *)
Definition keyword_call {store : Store} (fixed : list string)
    (kwargs : pydict) (c : store_call) : W unit :=
  if keyword_clash fixed kwargs
  then wraise (TypeError "got multiple values for keyword argument")
  else issue c.

(** [PromptGenerator.generate_prompt]: the prompt value goes to the store as
    it is given. *)
Definition generate_prompt {store : Store} (prompt_name : string)
    (prompt : pyobj) (kwargs : pydict) : W unit :=
  keyword_call ["name"; "prompt"] kwargs
    (CreatePrompt prompt_name prompt kwargs).

(** [DatasetGenerator.create_dataset_item]. *)
Definition create_dataset_item {store : Store} (dataset_name : string)
    (item : pydict) : W unit :=
  keyword_call ["dataset_name"] item (CreateDatasetItem dataset_name item).

Fixpoint weach {A} (body : A → W unit) (xs : list A) : W unit :=
  match xs with
  | [] => wret tt
  | x :: xs' => wbind (body x) (λ _, weach body xs')
  end.

(** [DatasetGenerator.generate_dataset]; [data = None] is the default. *)
Definition generate_dataset {store : Store} (dataset_name : string)
    (dataset_params : pydict) (data : option (list pydict)) : W unit :=
  wbind (keyword_call ["name"] dataset_params
           (CreateDataset dataset_name dataset_params))
    (λ _, match data with
          | None => wret tt
          | Some items => weach (create_dataset_item dataset_name) items
          end).

(** The calls of a dataset registration that goes through. *)
Definition dataset_calls (dataset_name : string) (dataset_params : pydict)
    (data : option (list pydict)) : list store_call :=
  CreateDataset dataset_name dataset_params
    :: (CreateDatasetItem dataset_name <$> default [] data).

(** What [run_prompt] does once the schema has been dealt with: compile the
    template with [kwargs], then call the inference client with [cfg],
    unless [cfg] has a [messages] entry of its own, and take the first
    choice.  The events, and the outcome. *)
Definition inference {remote : Remote} (p : Prompt) (h : list event)
    (kwargs cfg : pydict) : list event * (exn + string) :=
  match prompt_compile (h ++ [EvCompile kwargs]) p kwargs with
  | inl e => ([EvCompile kwargs], inl e)
  | inr messages =>
      if keyword_clash ["messages"] cfg
      then ([EvCompile kwargs],
            inl (TypeError "got multiple values for keyword argument"))
      else
        ([EvCompile kwargs; EvChatCreate messages cfg],
         match chat_completions_create
                 (h ++ [EvCompile kwargs; EvChatCreate messages cfg])
                 messages cfg with
         | inl e => inl e
         | inr choices => first_choice choices
         end)
  end.

(** The sleep that a rate asks for after a turn. *)
Definition pause (R : Z) : list event :=
  if 0 <? R then [EvSleep (60 / inject_Z R)] else [].

(** One completed turn of a rate-limited loop: the call that opens it,
    then the rest of its work, in which nothing is opened or fetched and
    nobody sleeps, and last the sleep that the rate asks for. *)
Definition paced_turn (opening : event) (R : Z) (turn : list event) : Prop :=
  ∃ work, turn = opening :: work ++ pause R ∧
    Forall (λ e, counted e = false) work.

(** The events of one completed turn of [run_experiment] on [item]: the
    tracing context, the generation, one compilation, one inference call
    whose configuration has no schema entry, the response recorded on the
    generation and on the trace, the evaluator if there is one, the sleep. *)
Definition turn_trace (p : Prompt) (experiment_name : string)
    (evaluator : option Evaluator) (params : pydict) (t : Q)
    (item : DatasetItem) (evs : list event) : Prop :=
  ∃ input model kwargs messages cfg response,
    dict_get "json_schema" cfg = None ∧
    evs =
      [EvItemRun (item_id item) experiment_name params;
       EvGeneration (prompt_name p +:+ "-llm-call") input
         [("item_id", PStr (item_id item)); ("run", PStr experiment_name)]
         model;
       EvCompile kwargs;
       EvChatCreate messages cfg;
       EvGenerationUpdate response;
       EvUpdateTrace kwargs response]
      ++ match evaluator with
         | Some _ => [EvEvaluate response (item_id item)]
         | None => []
         end
      ++ (EvSleep <$> turn_sleeps t).

(** A run item whose trace can be fetched and joined whatever happened
    before: it names a trace, the trace is there, and the item id that the
    trace records is one of the lookup whose input payload is in the
    store. *)
Definition resolvable {remote : Remote}
    (item_lookup : gmap string DatasetItem) (σ : gmap loc pydict)
    (run_item : pyobj) : Prop :=
  ∃ trace_id trace metadata k item,
    subscript run_item "traceId" = inr trace_id ∧
    (∀ h, trace_get h trace_id = inr trace) ∧
    getattr_strict trace "metadata" = inr metadata ∧
    subscript metadata "dataset_item_id" = inr (PStr k) ∧
    item_lookup !! k = Some item ∧
    is_Some (σ !! item_input item).

(** The object that [get_dataset_run] reads the fields of a dataset item
    from, [inp] being the item's input payload. *)
Definition item_fields_object (item : DatasetItem) (inp : pydict) : pyobj :=
  PInst (("id", PStr (item_id item)) :: ("input", PDict inp)
         :: item_fields item).

(** The list that a completed loop of [get_dataset_run] over [run_items]
    returns, when the loop starts with the log [h], sleeps [t] after a
    turn and the store is [σ].  The record of a run item is the serialized
    merge of the requested fields of the trace fetched, at that point of
    the run, under the id that the run item names, and of the dataset item
    that the lookup holds under the id recorded in that trace, read with
    the input payload it has in the store. *)
Fixpoint records_of {remote : Remote}
    (item_lookup : gmap string DatasetItem) (σ : gmap loc pydict)
    (trace_info dataset_item_info : list string) (t : Q) (h : list event)
    (run_items records : list pyobj) : Prop :=
  match run_items, records with
  | [], [] => True
  | run_item :: run_items', record :: records' =>
      ∃ trace_id trace metadata key item inp,
        subscript run_item "traceId" = inr trace_id ∧
        trace_get (h ++ [EvTraceGet trace_id]) trace_id = inr trace ∧
        getattr_strict trace "metadata" = inr metadata ∧
        subscript metadata "dataset_item_id" = inr key ∧
        lookup_item item_lookup key = inr item ∧
        σ !! item_input item = Some inp ∧
        record = make_serializable
                   (PDict (combine trace (item_fields_object item inp)
                             trace_info dataset_item_info)) ∧
        records_of item_lookup σ trace_info dataset_item_info t
          (h ++ [EvTraceGet trace_id] ++ (EvSleep <$> turn_sleeps t))
          run_items' records'
  | _, _ => False
  end.

(** A store that accepts everything except a dataset item whose [id] is
    ["bad"]. *)
Module Registry.

Definition store : Store := {|
  store_answer := λ h,
    match last h with
    | Some (CreateDatasetItem _ item) =>
        match dict_get "id" item with
        | Some (PStr "bad") => inl (RemoteError "rejected")
        | _ => inr tt
        end
    | _ => inr tt
    end
|}.

Definition good (id : string) : pydict :=
  [("id", PStr id); ("input", PDict [("x", PAtom (AInt 1))]);
   ("expected_output", PStr "foo")].

End Registry.

(** Variations of the scenario: other configurations for the same prompt,
    and an override that is a dictionary of its own. *)
Module Cases.
Import Scenario.

Definition override_ref : loc := 9%positive.

Definition the_override : pydict :=
  [("model", PStr "o"); ("json_schema", PDict [("s", PStr "skill")])].

Definition with_config (cfg : pydict) : state :=
  {| heap := {[ config_ref := cfg;
                input_ref 0 := [("x", PAtom (AInt 1))];
                override_ref := the_override ]};
     environ := environ start;
     log := [] |}.

(** The scenario without an inference key in the environment. *)
Definition unkeyed : state :=
  {| heap := heap start;
     environ := delete "OPENAI_API_KEY" (environ start);
     log := [] |}.

End Cases.

(* ===================================================================== *)
(** * Lemmas on values and dictionaries *)
(* ===================================================================== *)

Lemma make_serializable_inst attrs :
  make_serializable (PInst attrs) = make_serializable (PDict attrs).
Proof. reflexivity. Qed.

Lemma make_serializable_plain v : plain_tree (make_serializable v) = true.
Proof.
  induction v as [s|b|kvs IH|xs IH|attrs IH|a] using pyobj_nested_ind;
    simpl; try reflexivity.
  - induction IH as [|kv l Hkv _ IHl]; simpl; [done|].
    by rewrite Hkv, IHl.
  - induction IH as [|x l Hx _ IHl]; simpl; [done|].
    by rewrite Hx, IHl.
  - induction IH as [|kv l Hkv _ IHl]; simpl; [done|].
    by rewrite Hkv, IHl.
Qed.

(** On a plain tree the function changes nothing. *)
Lemma make_serializable_fixed v :
  plain_tree v = true → make_serializable v = v.
Proof.
  induction v as [s|b|kvs IH|xs IH|attrs IH|a] using pyobj_nested_ind;
    simpl; intros Hp; try done.
  - f_equal. induction IH as [|[k w] l Hkv _ IHl]; simpl in *; [done|].
    apply andb_prop in Hp as [Hw Hl]. by rewrite Hkv, IHl.
  - f_equal. induction IH as [|x l Hx _ IHl]; simpl in *; [done|].
    apply andb_prop in Hp as [Hw Hl]. by rewrite Hx, IHl.
Qed.

Lemma dict_get_set_eq k v d : dict_get k (dict_set k v d) = Some v.
Proof.
  induction d as [|[k' v'] d IH]; simpl.
  - by rewrite decide_True.
  - destruct (decide (k = k')) as [->|Hne]; simpl.
    + by rewrite decide_True.
    + by rewrite decide_False.
Qed.

Lemma dict_get_set_ne k k' v d :
  k ≠ k' → dict_get k (dict_set k' v d) = dict_get k d.
Proof.
  intros Hne. induction d as [|[k'' v''] d IH]; simpl.
  - by rewrite decide_False.
  - destruct (decide (k' = k'')) as [->|Hne']; simpl.
    + by rewrite !decide_False.
    + destruct (decide (k = k'')); [done|apply IH].
Qed.

Lemma dict_get_set k k' v d :
  dict_get k (dict_set k' v d) = if decide (k = k') then Some v else dict_get k d.
Proof.
  destruct (decide (k = k')) as [->|Hne];
    [apply dict_get_set_eq | by apply dict_get_set_ne].
Qed.

Lemma dict_get_del_eq k d : dict_get k (dict_del k d) = None.
Proof.
  unfold dict_del. induction d as [|[k' v'] d IH]; [done|].
  rewrite filter_cons. simpl. destruct (decide (k' ≠ k)) as [Hne|Heq]; simpl.
  - by rewrite decide_False.
  - apply IH.
Qed.

Lemma dict_get_del_ne k k' d :
  k ≠ k' → dict_get k (dict_del k' d) = dict_get k d.
Proof.
  intros Hne. unfold dict_del. induction d as [|[k'' v''] d IH]; [done|].
  rewrite filter_cons. simpl. destruct (decide (k'' ≠ k')) as [Hne'|Heq]; simpl.
  - by rewrite IH.
  - apply dec_stable in Heq as ->. by rewrite decide_False.
Qed.

Lemma dict_get_None_keys k d : dict_get k d = None ↔ k ∉ dict_keys d.
Proof.
  unfold dict_keys. induction d as [|[k' v'] d IH]; simpl.
  - split; [intros _; apply not_elem_of_nil|done].
  - rewrite not_elem_of_cons. destruct (decide (k = k')) as [->|Hne].
    + split; [done|by intros [? _]].
    + rewrite IH. split; [by intros ?|by intros [_ ?]].
Qed.

Lemma dict_get_is_Some_keys k d : is_Some (dict_get k d) ↔ k ∈ dict_keys d.
Proof.
  rewrite <- not_eq_None_Some, dict_get_None_keys.
  split; [apply dec_stable|auto].
Qed.

(** The last binding written for a key is the one a merge leaves. *)
Lemma dict_get_merge_snoc k a b kv :
  dict_get k (dict_merge a (b ++ [kv])) =
    if decide (k = kv.1) then Some kv.2 else dict_get k (dict_merge a b).
Proof.
  unfold dict_merge. rewrite foldl_app. simpl. apply dict_get_set.
Qed.

Lemma dict_get_merge_absent k a b :
  k ∉ dict_keys b → dict_get k (dict_merge a b) = dict_get k a.
Proof.
  induction b as [|kv b IH] using rev_ind; [done|].
  unfold dict_keys. rewrite fmap_app, not_elem_of_app. simpl.
  rewrite list_elem_of_singleton. intros [Hb Hkv].
  rewrite dict_get_merge_snoc, decide_False by done. by apply IH.
Qed.

(** A comprehension binds exactly the keys it is run over, each to the value
    computed for its last occurrence. *)
Lemma dict_get_comp_snoc {A} (key : A → string) val xs x k :
  dict_get k (dict_comp key val (xs ++ [x])) =
    if decide (k = key x) then Some (val x) else dict_get k (dict_comp key val xs).
Proof.
  unfold dict_comp. rewrite foldl_app. simpl. apply dict_get_set.
Qed.

Lemma dict_get_comp_absent {A} (key : A → string) val xs k :
  k ∉ key <$> xs → dict_get k (dict_comp key val xs) = None.
Proof.
  induction xs as [|x xs IH] using rev_ind; [done|].
  rewrite fmap_app, not_elem_of_app. simpl.
  rewrite list_elem_of_singleton. intros [Hb Hkv].
  rewrite dict_get_comp_snoc, decide_False by done. by apply IH.
Qed.

Lemma dict_set_keys_NoDup k v d :
  NoDup (dict_keys d) → NoDup (dict_keys (dict_set k v d)).
Proof.
  unfold dict_keys. induction d as [|[k' v'] d IH]; simpl; intros Hnd.
  - apply NoDup_singleton.
  - apply NoDup_cons in Hnd as [Hk' Hnd].
    destruct (decide (k = k')) as [->|Hne]; simpl.
    + by apply NoDup_cons.
    + apply NoDup_cons. split; [|by apply IH].
      intros Hin. apply Hk'.
      change (k' ∈ dict_keys (dict_set k v d)) in Hin.
      apply dict_get_is_Some_keys in Hin.
      rewrite dict_get_set_ne in Hin by done.
      by apply dict_get_is_Some_keys in Hin.
Qed.

Lemma dict_merge_keys_NoDup a b :
  NoDup (dict_keys a) → NoDup (dict_keys (dict_merge a b)).
Proof.
  revert a. induction b as [|kv b IH]; intros a Ha; [done|].
  simpl. apply IH. by apply dict_set_keys_NoDup.
Qed.

Lemma dict_comp_keys_NoDup {A} (key : A → string) val xs :
  NoDup (dict_keys (dict_comp key val xs)).
Proof.
  unfold dict_comp. generalize (NoDup_nil_2 (A:=string)).
  change [] with (dict_keys []) at 1. generalize (@nil (string * pyobj)).
  induction xs as [|x xs IH]; intros d Hd; [done|].
  simpl. apply IH. by apply dict_set_keys_NoDup.
Qed.

(** With unique keys in [b], a merge reads from [b] first, then from [a]. *)
Lemma dict_get_merge k a b :
  NoDup (dict_keys b) →
  dict_get k (dict_merge a b) =
    match dict_get k b with Some v => Some v | None => dict_get k a end.
Proof.
  revert a. induction b as [|[k' v'] b IH]; intros a Hnd; [done|].
  unfold dict_keys in Hnd. simpl in Hnd. apply NoDup_cons in Hnd as [Hk' Hnd].
  simpl. rewrite IH by done.
  destruct (decide (k = k')) as [->|Hne].
  - apply dict_get_None_keys in Hk'. rewrite Hk'. apply dict_get_set_eq.
  - by rewrite dict_get_set_ne.
Qed.

(* ===================================================================== *)
(** * Reasoning about computations *)
(* ===================================================================== *)

Lemma bind_inv {A B} (m : M A) (k : A → M B) s s' r :
  bind m k s = (s', r) →
  (∃ e, m s = (s', inl e) ∧ r = inl e) ∨
  (∃ a s1, m s = (s1, inr a) ∧ k a s1 = (s', r)).
Proof.
  unfold bind. destruct (m s) as [s1 [e|a]]; intros Heq.
  - left. exists e. by simplify_eq.
  - right. by exists a, s1.
Qed.

Lemma bind_ok {A B} (m : M A) (k : A → M B) s s1 a :
  m s = (s1, inr a) → bind m k s = k a s1.
Proof. unfold bind. by intros ->. Qed.

Lemma bind_raise {A B} (m : M A) (k : A → M B) s s1 e :
  m s = (s1, inl e) → bind m k s = (s1, inl e).
Proof. unfold bind. by intros ->. Qed.

Lemma heap_get_inv l s s' d :
  heap_get l s = (s', inr d) → s' = s ∧ heap s !! l = Some d.
Proof.
  unfold heap_get. by destruct (heap s !! l); intros [= <- <-].
Qed.

Lemma lift_inv {A} (x : exn + A) s s' r : lift x s = (s', r) → s' = s ∧ r = x.
Proof. by intros [= <- <-]. Qed.

Lemma sleeps_app l1 l2 : sleeps (l1 ++ l2) = sleeps l1 ++ sleeps l2.
Proof. apply omap_app. Qed.
Lemma item_runs_app l1 l2 : item_runs (l1 ++ l2) = item_runs l1 ++ item_runs l2.
Proof. apply omap_app. Qed.
Lemma trace_gets_app l1 l2 :
  trace_gets (l1 ++ l2) = trace_gets l1 ++ trace_gets l2.
Proof. apply omap_app. Qed.

Lemma uncounted_projections evs :
  Forall (λ e, counted e = false) evs →
  sleeps evs = [] ∧ item_runs evs = [] ∧ trace_gets evs = [].
Proof.
  induction 1 as [|e evs He _ IH]; [done|].
  destruct e; try discriminate; exact IH.
Qed.

Create HintDb quiet.

Section quiet.
Context {remote : Remote}.

Lemma quiet_ret {A} (a : A) : quiet (ret a).
Proof.
  intros s s' r [= <- <-]. exists []. by rewrite app_nil_r.
Qed.

Lemma quiet_raise {A} e : quiet (raise (A:=A) e).
Proof.
  intros s s' r [= <- <-]. exists []. by rewrite app_nil_r.
Qed.

Lemma quiet_lift {A} (x : exn + A) : quiet (lift x).
Proof.
  intros s s' r [= <- <-]. exists []. by rewrite app_nil_r.
Qed.

Lemma quiet_bind {A B} (m : M A) (k : A → M B) :
  quiet m → (∀ a, quiet (k a)) → quiet (bind m k).
Proof.
  intros Hm Hk s s' r Hrun.
  apply bind_inv in Hrun as [(e & Hrun & ->)|(a & s1 & Hrun & Hrest)].
  - by apply Hm in Hrun.
  - apply Hm in Hrun as (evs1 & Hlog1 & Hevs1).
    apply Hk in Hrest as (evs2 & Hlog2 & Hevs2).
    exists (evs1 ++ evs2). split.
    + by rewrite Hlog2, Hlog1, app_assoc.
    + by apply Forall_app.
Qed.

Lemma quiet_emit e : counted e = false → quiet (emit e).
Proof.
  intros He s s' r [= <- <-]. exists [e]. split; [done|].
  by apply Forall_singleton.
Qed.

Lemma quiet_call {A} e (answer : list event → exn + A) :
  counted e = false → quiet (call e answer).
Proof.
  intros He. apply quiet_bind; [by apply quiet_emit|].
  intros _ s s' r [= <- <-]. exists []. by rewrite app_nil_r.
Qed.

Lemma quiet_call_keywords {A} fixed kwargs e (answer : list event → exn + A) :
  counted e = false → quiet (call_keywords fixed kwargs e answer).
Proof.
  intros He. unfold call_keywords.
  destruct (keyword_clash fixed kwargs); [apply quiet_raise|by apply quiet_call].
Qed.

Lemma quiet_state_only {A} (f : state → exn + A) (g : state → state) :
  (∀ s, log (g s) = log s) → quiet (λ s, (g s, f s)).
Proof.
  intros Hg s s' r [= <- <-]. exists []. by rewrite app_nil_r, Hg.
Qed.

Lemma quiet_heap_get l : quiet (heap_get l).
Proof.
  intros s s' r. unfold heap_get.
  destruct (heap s !! l); intros [= <- <-]; exists []; by rewrite app_nil_r.
Qed.

Lemma quiet_heap_put l d : quiet (heap_put l d).
Proof.
  intros s s' r [= <- <-]. exists []. by rewrite app_nil_r.
Qed.

Lemma quiet_environ_get k : quiet (environ_get k).
Proof.
  intros s s' r. unfold environ_get.
  destruct (environ s !! k); intros [= <- <-]; exists []; by rewrite app_nil_r.
Qed.

Lemma quiet_environ_refresh k : quiet (environ_refresh k).
Proof.
  intros s s' r. unfold environ_refresh.
  destruct (environ s !! k); intros [= <- <-]; exists []; by rewrite app_nil_r.
Qed.

Lemma quiet_for_each {A} (body : A → M unit) xs :
  (∀ x, quiet (body x)) → quiet (for_each body xs).
Proof.
  intros Hbody. induction xs as [|x xs IH]; simpl.
  - apply quiet_ret.
  - apply quiet_bind; [apply Hbody|by intros _].
Qed.

Lemma quiet_try_except {A} (m : M A) catches h :
  quiet m → (∀ e, quiet (h e)) → quiet (try_except m catches h).
Proof.
  intros Hm Hh s s' r. unfold try_except.
  destruct (m s) as [s1 [e|a]] eqn:Hrun.
  - destruct (catches e).
    + intros Hrest. apply Hm in Hrun as (evs1 & Hlog1 & Hevs1).
      apply Hh in Hrest as (evs2 & Hlog2 & Hevs2).
      exists (evs1 ++ evs2). split.
      * by rewrite Hlog2, Hlog1, app_assoc.
      * by apply Forall_app.
    + intros [= <- <-]. by apply Hm in Hrun.
  - intros [= <- <-]. by apply Hm in Hrun.
Qed.

#[local] Hint Resolve quiet_ret quiet_raise quiet_lift quiet_heap_get quiet_heap_put
  quiet_environ_get quiet_environ_refresh : quiet.

(** Peel the binds of a computation and close each primitive. *)
Ltac quiet_steps :=
  repeat first
    [ solve [auto with quiet]
    | apply quiet_call; reflexivity
    | apply quiet_call_keywords; reflexivity
    | apply quiet_for_each; intros
    | apply quiet_bind; [|intros]
    | match goal with |- quiet (match ?x with _ => _ end) => destruct x end
    | match goal with |- quiet (if ?x then _ else _) => destruct x end ].

Lemma quiet_heap_setitem l k v : quiet (heap_setitem l k v).
Proof. unfold heap_setitem. quiet_steps. Qed.

Lemma quiet_heap_pop l k v : quiet (heap_pop l k v).
Proof. unfold heap_pop. quiet_steps. Qed.

#[local] Hint Resolve quiet_heap_setitem quiet_heap_pop : quiet.

Lemma quiet_load_env env_path keys : quiet (load_env env_path keys).
Proof.
  unfold load_env. quiet_steps.
  by apply (quiet_state_only (λ _, inr tt)
              (λ s, State (heap s) (load_dotenv _ (environ s)) (log s))).
Qed.

Lemma quiet_OpenAI : quiet OpenAI.
Proof.
  intros s s' r. unfold OpenAI.
  destruct (environ s !! "OPENAI_API_KEY"); intros [= <- <-]; exists [];
    by rewrite app_nil_r.
Qed.

Lemma quiet_PromptRunner_init name env_path kwargs :
  quiet (PromptRunner_init name env_path kwargs).
Proof.
  unfold PromptRunner_init.
  apply quiet_bind; [apply quiet_load_env|intros _].
  apply quiet_bind; [apply quiet_OpenAI|intros _]. quiet_steps.
Qed.

Lemma quiet_run_prompt self input_data config :
  quiet (run_prompt self input_data config).
Proof. unfold run_prompt, select_config. quiet_steps. Qed.

Lemma quiet_runner_run_prompt prompt_runner input_data :
  quiet (runner_run_prompt prompt_runner input_data).
Proof. apply quiet_run_prompt. Qed.

#[local] Hint Resolve quiet_runner_run_prompt : quiet.

Lemma quiet_prompt_app prompt_runner input_data item_id run_name :
  quiet (prompt_app prompt_runner input_data item_id run_name).
Proof. unfold prompt_app. quiet_steps. Qed.

Lemma quiet_item_object item : quiet (item_object item).
Proof. unfold item_object. quiet_steps. Qed.
End quiet.

(* ===================================================================== *)
(** * The two rate-limited loops *)
(* ===================================================================== *)

Section loops.
Context {remote : Remote}.

Lemma call_inv {A} e (answer : list event → exn + A) s s' r :
  call e answer s = (s', r) →
  s' = State (heap s) (environ s) (log s ++ [e]) ∧ r = answer (log s ++ [e]).
Proof. by intros [= <- <-]. Qed.

Lemma call_keywords_inv {A} fixed kwargs e (answer : list event → exn + A)
    s s' r :
  call_keywords fixed kwargs e answer s = (s', r) →
  (keyword_clash fixed kwargs = true ∧ s' = s ∧
   r = inl (TypeError "got multiple values for keyword argument")) ∨
  (keyword_clash fixed kwargs = false ∧
   s' = State (heap s) (environ s) (log s ++ [e]) ∧
   r = answer (log s ++ [e])).
Proof.
  unfold call_keywords. destruct (keyword_clash fixed kwargs).
  - intros [= <- <-]. by left.
  - intros Hcall. apply call_inv in Hcall as [-> ->]. by right.
Qed.

Lemma call_keywords_eq {A} fixed kwargs e (answer : list event → exn + A) s :
  keyword_clash fixed kwargs = false →
  call_keywords fixed kwargs e answer s =
    (State (heap s) (environ s) (log s ++ [e]), answer (log s ++ [e])).
Proof. unfold call_keywords. by intros ->. Qed.

Lemma keyword_clash_one k kwargs :
  keyword_clash [k] kwargs = bool_decide (is_Some (dict_get k kwargs)).
Proof.
  unfold keyword_clash. apply bool_decide_ext.
  rewrite dict_get_is_Some_keys, Exists_exists. split.
  - by intros (k' & Hk' & ->%list_elem_of_singleton).
  - intros Hk. exists k. split; [done|by left].
Qed.

Lemma keyword_clash_absent k kwargs :
  dict_get k kwargs = None → keyword_clash [k] kwargs = false.
Proof.
  intros Hk. rewrite keyword_clash_one, Hk.
  apply bool_decide_eq_false_2. by intros [? [=]].
Qed.

Lemma keyword_clash_present k kwargs v :
  dict_get k kwargs = Some v → keyword_clash [k] kwargs = true.
Proof.
  intros Hk. rewrite keyword_clash_one, Hk. by apply bool_decide_eq_true_2.
Qed.

Lemma sleep_if_positive_inv t s s' r :
  sleep_if_positive t s = (s', r) →
  r = inr tt ∧ log s' = log s ++ (EvSleep <$> turn_sleeps t).
Proof.
  unfold sleep_if_positive, turn_sleeps.
  destruct (Qlt_le_dec 0 t); intros [= <- <-]; simpl; [done|].
  by rewrite app_nil_r.
Qed.

Lemma sleeps_EvSleep ts : sleeps (EvSleep <$> ts) = ts.
Proof. induction ts as [|t ts IH]; [done|]. cbn. by f_equal. Qed.

Lemma item_runs_EvSleep ts : item_runs (EvSleep <$> ts) = [].
Proof. by induction ts. Qed.

Lemma trace_gets_EvSleep ts : trace_gets (EvSleep <$> ts) = [].
Proof. by induction ts. Qed.

Lemma quiet_bind_inv {A B} (m : M A) (k : A → M B) s s' r :
  quiet m → bind m k s = (s', r) →
  ∃ evs, sleeps evs = [] ∧ item_runs evs = [] ∧ trace_gets evs = [] ∧
    ((∃ e, r = inl e ∧ log s' = log s ++ evs) ∨
     (∃ a s1, log s1 = log s ++ evs ∧ k a s1 = (s', r))).
Proof.
  intros Hm Hrun.
  apply bind_inv in Hrun as [(e & Hrun & ->)|(a & s1 & Hrun & Hrest)];
    apply Hm in Hrun as (evs & Hlog & Hevs);
    apply uncounted_projections in Hevs as (Hs & Hi & Ht);
    exists evs; repeat (split; [done|]); [left|right]; eauto.
Qed.

(** Split the projections of a log along its appends and evaluate them on
    the pieces that are known. *)
Ltac project_log :=
  rewrite ?sleeps_app, ?item_runs_app, ?trace_gets_app,
    ?sleeps_EvSleep, ?item_runs_EvSleep, ?trace_gets_EvSleep;
  repeat match goal with
    | H : sleeps _ = _ |- _ => rewrite H
    | H : item_runs _ = _ |- _ => rewrite H
    | H : trace_gets _ = _ |- _ => rewrite H
    end;
  rewrite ?app_nil_r; try reflexivity.

Lemma run_item_log prompt_runner experiment_name evaluator params t item
    s s' r :
  run_item prompt_runner experiment_name evaluator params t item s = (s', r) →
  turn_spec [EvItemRun (item_id item) experiment_name params] t s s' r.
Proof.
  unfold run_item, turn_spec. intros Hrun.
  set (head := EvItemRun (item_id item) experiment_name params) in *.
  apply bind_inv in Hrun as [(e & Hcall & ->)|(? & s1 & Hcall & Hrun)];
    apply call_keywords_inv in Hcall as [(_ & -> & Hans)|(_ & -> & Hans)];
    simpl; [| |done|].
  { exists []. rewrite app_nil_r. split_and!; [done..|apply prefix_nil|apply prefix_nil]. }
  { by exists [head]. }
  apply (quiet_bind_inv _ _ _ _ _ (quiet_prompt_app _ _ _ _)) in Hrun
      as (evs1 & Hs1 & Hi1 & Ht1
          & [(e & -> & Hlog1)|(response & s1 & Hlog1 & Hrun)]);
    simpl in Hlog1.
  { exists ([head] ++ evs1).
    rewrite Hlog1, <- app_assoc. repeat split; project_log. }
  assert (quiet (match evaluator with
                 | Some ev => call (EvEvaluate response (item_id item))
                                (λ h, ev h response item)
                 | None => ret tt
                 end)) as Hev.
  { destruct evaluator; [by apply quiet_call|apply quiet_ret]. }
  apply (quiet_bind_inv _ _ _ _ _ Hev) in Hrun
      as (evs2 & Hs2 & Hi2 & Ht2
          & [(e & -> & Hlog2)|(? & s2 & Hlog2 & Hrun)]).
  { exists ([head] ++ evs1 ++ evs2).
    rewrite Hlog2, Hlog1, <- !app_assoc. repeat split; project_log. }
  apply sleep_if_positive_inv in Hrun as [-> Hlog'].
  exists ([head] ++ evs1 ++ evs2 ++ (EvSleep <$> turn_sleeps t)).
  rewrite Hlog', Hlog2, Hlog1, <- !app_assoc. repeat split; project_log.
Qed.

Lemma collect_log {A B} (body : A → M B) head t xs :
  (∀ x s s' r, body x s = (s', r) → turn_spec (head x) t s s' r) →
  ∀ s s' r, collect body xs s = (s', r) →
    loop_spec head t xs s s' r ∧
    (∀ bs, r = inr bs → length bs = length xs).
Proof.
  intros Hbody. unfold loop_spec.
  induction xs as [|x xs IH]; intros s s' r; cbn [collect].
  { intros [= <- <-]. split; [|by intros ? [= <-]].
    exists []. by rewrite app_nil_r. }
  rewrite bind_cons. intros Hrun.
  apply bind_inv in Hrun as [(e & Hx & ->)|(b & s1 & Hx & Hrun)];
    apply Hbody in Hx as (evs1 & Hlog1 & Hx).
  { split; [|done]. exists evs1. split; [done|].
    destruct Hx as (Hs & Hi & Ht). exists 0%nat.
    rewrite item_runs_app, trace_gets_app.
    split_and!; [simpl; lia|done|by apply prefix_app_r..]. }
  destruct Hx as (Hs1 & Hi1 & Ht1).
  apply bind_inv in Hrun as [(e & Hxs & ->)|(bs & s2 & Hxs & Hrun)];
    apply IH in Hxs as [(evs2 & Hlog2 & Hxs) Hlen].
  - split; [|done]. exists (evs1 ++ evs2).
    rewrite Hlog2, Hlog1, <- app_assoc. split; [done|].
    destruct Hxs as (m & Hm & Hs2 & Hi2 & Ht2). exists (S m).
    rewrite !item_runs_app, !trace_gets_app, sleeps_app, Hs1, Hs2, Hi1, Ht1.
    split_and!;
      [simpl; lia|by rewrite firstn_cons, bind_cons|by apply prefix_app..].
  - injection Hrun as <- <-. split.
    + exists (evs1 ++ evs2).
      rewrite Hlog2, Hlog1, <- app_assoc. split; [done|].
      destruct Hxs as (Hs2 & Hi2 & Ht2).
      by rewrite !item_runs_app, !trace_gets_app, sleeps_app,
        Hs1, Hs2, Hi1, Hi2, Ht1, Ht2.
    + intros ? [= <-]. simpl. f_equal. by apply Hlen.
Qed.

Lemma for_each_collect {A} (body : A → M unit) xs s :
  for_each body xs s =
    let '(s', r) := collect body xs s in
    (s', match r with inr _ => inr tt | inl e => inl e end).
Proof.
  revert s. induction xs as [|x xs IH]; intros s; [done|].
  cbn [for_each collect]. unfold bind.
  destruct (body x s) as [s1 [e|[]]]; [done|].
  rewrite IH. by destruct (collect body xs s1) as [s2 [e|bs]].
Qed.

Lemma for_each_log {A} (body : A → M unit) head t xs :
  (∀ x s s' r, body x s = (s', r) → turn_spec (head x) t s s' r) →
  ∀ s s' r, for_each body xs s = (s', r) → loop_spec head t xs s s' r.
Proof.
  intros Hbody s s' r. rewrite for_each_collect.
  destruct (collect body xs s) as [s1 r1] eqn:Hrun.
  apply (collect_log _ _ _ _ Hbody) in Hrun as [Hspec _].
  intros [= <- <-]. by destruct r1.
Qed.
Lemma for_each_environ_refresh_log keys s s' r :
  for_each environ_refresh keys s = (s', r) → log s' = log s.
Proof.
  revert s. induction keys as [|k keys IH]; intros s; cbn [for_each].
  { by intros [= <- <-]. }
  intros Hrun.
  apply bind_inv in Hrun as [(e & Hk & ->)|([] & s1 & Hk & Hrun)].
  - unfold environ_refresh in Hk. by destruct (environ s !! k); simplify_eq.
  - apply IH in Hrun. rewrite Hrun.
    unfold environ_refresh in Hk. by destruct (environ s !! k); simplify_eq.
Qed.

Lemma load_env_log env_path keys s s' r :
  load_env env_path keys s = (s', r) → log s' = log s.
Proof.
  unfold load_env. destruct env_path as [path|]; [|by intros [= <- <-]].
  destruct (truthy (PStr path)); [|by intros [= <- <-]].
  intros Hrun. by apply for_each_environ_refresh_log in Hrun.
Qed.

Lemma OpenAI_inv s s' r :
  OpenAI s = (s', r) →
  s' = s ∧
  ((is_Some (environ s !! "OPENAI_API_KEY") ∧ r = inr tt) ∨
   (environ s !! "OPENAI_API_KEY" = None ∧ ∃ e, r = inl e)).
Proof.
  unfold OpenAI. destruct (environ s !! "OPENAI_API_KEY") eqn:Hkey;
    intros [= <- <-]; (split; [done|]); [left|right]; eauto.
Qed.

(** The constructor of [PromptRunner] asks for the prompt, once, unless
    loading the environment or building the client has already raised. *)
Lemma PromptRunner_init_inv name env_path kwargs s s' r :
  PromptRunner_init name env_path kwargs s = (s', r) →
  (log s' = log s ∧ ∃ e, r = inl e) ∨
  (log s' = log s ++ [EvGetPrompt name kwargs]
   ∧ r = match get_prompt (log s ++ [EvGetPrompt name kwargs]) name kwargs
         with
         | inr p => inr {| prompt := p |}
         | inl e => inl e
         end).
Proof.
  unfold PromptRunner_init. intros Hrun.
  apply bind_inv in Hrun as [(e & Hload & ->)|([] & s1 & Hload & Hrun)];
    apply load_env_log in Hload.
  { left. eauto. }
  apply bind_inv in Hrun as [(e & Hclient & ->)|([] & s2 & Hclient & Hrun)];
    apply OpenAI_inv in Hclient as [-> _].
  { left. eauto. }
  right. apply bind_inv in Hrun as [(e & Hcall & ->)|(p & s2 & Hcall & Hrun)];
    apply call_inv in Hcall as [-> Hans]; rewrite Hload in Hans.
  - simpl. by rewrite Hload, <- Hans.
  - injection Hrun as <- <-. simpl. by rewrite Hload, <- Hans.
Qed.

(** [run_experiment], as far as the counted events go: either it raises
    before the loop, having neither opened an item nor slept, or it loads
    a dataset and runs the loop over the selected items. *)
Lemma run_experiment_log self experiment_name prompt_name dataset_name
    evaluator params test_count requests_per_minute s s' r :
  run_experiment self experiment_name prompt_name dataset_name evaluator
    params test_count requests_per_minute s = (s', r) →
  (∃ e evs, r = inl e ∧ log s' = log s ++ evs ∧
     sleeps evs = [] ∧ item_runs evs = []) ∨
  (∃ dataset t s0,
     let before := [EvGetPrompt prompt_name []; EvGetDataset dataset_name] in
     get_dataset (log s ++ before) dataset_name = inr dataset ∧
     sleep_time (default 1000 requests_per_minute) = inr t ∧
     log s0 = log s ++ before ∧
     loop_spec (λ item, [EvItemRun (item_id item) experiment_name params]) t
       (slice_to (dataset_items dataset) test_count) s0 s' r).
Proof.
  unfold run_experiment. intros Hrun.
  apply bind_inv in Hrun as [(e & Hself & ->)|(env_path & s1 & Hself & Hrun)].
  { left. exists e, []. rewrite app_nil_r.
    unfold self_env_path, ret, raise in Hself.
    destruct (runner_env_path self); simplify_eq. by split_and!. }
  assert (s1 = s) as ->.
  { unfold self_env_path, ret, raise in Hself.
    by destruct (runner_env_path self); simplify_eq. }
  apply bind_inv in Hrun as [(e & Hinit & ->)|(pr & s2 & Hinit & Hrun)];
    apply PromptRunner_init_inv in Hinit as [[Hlog He]|[Hlog Hans]].
  - left. exists e, []. rewrite app_nil_r. by split_and!.
  - left. exists e, [EvGetPrompt prompt_name []]. by split_and!.
  - by destruct He.
  - apply bind_inv in Hrun as [(e & Hcall & ->)|(ds & s3 & Hcall & Hrun)];
      apply call_inv in Hcall as [-> Hds]; simpl in *;
      rewrite Hlog, <- app_assoc in *; simpl in *.
    + left. exists e, [EvGetPrompt prompt_name []; EvGetDataset dataset_name].
      by split_and!.
    + apply bind_inv in Hrun as [(e & Hrate & ->)|(t & s4 & Hrate & Hrun)];
        apply lift_inv in Hrate as [-> Hrate].
      * left.
        exists e, [EvGetPrompt prompt_name []; EvGetDataset dataset_name].
        by split_and!.
      * right. exists ds, t, (State (heap s2) (environ s2)
                               (log s ++ [EvGetPrompt prompt_name [];
                                          EvGetDataset dataset_name])).
        split_and!; [done..|].
        by apply (for_each_log _ _ _ _ (run_item_log _ _ _ _ _)) in Hrun.
Qed.
End loops.

(* ===================================================================== *)
(** * Serialization *)
(* ===================================================================== *)

(** C8.  Whatever the input, [make_serializable] returns a tree made of
    mappings, sequences, text and binary leaves only.  Mappings and lists
    are walked recursively (keys are kept), an object with attributes is
    treated as the mapping of its attributes, text and binary values are
    returned as they are, and every other value becomes its [str()]. *)
Theorem make_serializable_plain_tree :
  (∀ obj, plain_tree (make_serializable obj) = true) ∧
  (∀ kvs, make_serializable (PDict kvs) =
            PDict ((λ kv, (kv.1, make_serializable kv.2)) <$> kvs)) ∧
  (∀ xs, make_serializable (PList xs) = PList (make_serializable <$> xs)) ∧
  (∀ attrs, make_serializable (PInst attrs) = make_serializable (PDict attrs)) ∧
  (∀ a, make_serializable (PAtom a) = PStr (atom_str a)) ∧
  (∀ s, make_serializable (PStr s) = PStr s) ∧
  (∀ b, make_serializable (PBytes b) = PBytes b).
Proof. split_and!; try done. apply make_serializable_plain. Qed.

(** C9.  [make_serializable] is idempotent: serializing a serialized value
    changes nothing. *)
Theorem make_serializable_idempotent obj :
  make_serializable (make_serializable obj) = make_serializable obj.
Proof. apply make_serializable_fixed, make_serializable_plain. Qed.

(** The keys of a mapping survive serialization, each with its value
    serialized. *)
Lemma dict_get_make_serializable k d :
  dict_get k ((λ kv, (kv.1, make_serializable kv.2)) <$> d) =
    make_serializable <$> dict_get k d.
Proof.
  induction d as [|[k' v] d IH]; [done|].
  simpl. by destruct (decide (k = k')).
Qed.

(* ===================================================================== *)
(** * The merged record *)
(* ===================================================================== *)

Lemma getattr_absent obj name default :
  hasattr obj name = false → getattr obj name default = default.
Proof.
  unfold hasattr, getattr. by destruct (getattr_strict obj name).
Qed.

Lemma dict_get_project obj fields attr :
  dict_get attr (project obj fields) =
    if decide (attr ∈ fields) then Some (getattr obj attr PNone) else None.
Proof.
  unfold project. induction fields as [|f fields IH] using rev_ind.
  { rewrite decide_False; [done|apply not_elem_of_nil]. }
  rewrite dict_get_comp_snoc. simpl. destruct (decide (attr = f)) as [->|Hne].
  - rewrite decide_True; [done|]. apply elem_of_app. right. by left.
  - rewrite IH. destruct (decide (attr ∈ fields)) as [Hin|Hnin].
    + rewrite decide_True; [done|]. apply elem_of_app. by left.
    + rewrite decide_False; [done|]. rewrite elem_of_app.
      intros [?|Hin%list_elem_of_singleton]; done.
Qed.

Lemma project_keys_NoDup obj fields : NoDup (dict_keys (project obj fields)).
Proof. apply dict_comp_keys_NoDup. Qed.

(** The merged record reads a key from the item projection first and from
    the trace projection otherwise. *)
Lemma dict_get_combine trace item trace_info dataset_item_info attr :
  dict_get attr (combine trace item trace_info dataset_item_info) =
    if decide (attr ∈ dataset_item_info) then Some (getattr item attr PNone)
    else if decide (attr ∈ trace_info) then Some (getattr trace attr PNone)
    else None.
Proof.
  unfold combine. rewrite dict_get_merge by apply project_keys_NoDup.
  rewrite !dict_get_project. by destruct (decide (attr ∈ dataset_item_info)).
Qed.

(** C1, as the code has it.  When a field name is requested both as a trace
    field and as an item field, the merged record holds the dataset item's
    value under that name: the item fields are written over the trace
    fields. *)
Theorem item_value_wins_collision trace item trace_info dataset_item_info attr :
  attr ∈ trace_info → attr ∈ dataset_item_info →
  dict_get attr (combine trace item trace_info dataset_item_info)
    = Some (getattr item attr PNone).
Proof. intros _ Hitem. by rewrite dict_get_combine, decide_True. Qed.

(** C10.  Every requested name is a key of the merged record, whether or
    not the trace or the item has such an attribute.  A name the item lacks
    is bound to [None] when requested as an item field, and a name the trace
    lacks is bound to [None] in the trace projection, hence in the merged
    record unless the same name is also requested from the item. *)
Theorem requested_fields_present trace item trace_info dataset_item_info attr :
  attr ∈ trace_info ∨ attr ∈ dataset_item_info →
  is_Some (dict_get attr (combine trace item trace_info dataset_item_info)) ∧
  (attr ∈ trace_info → hasattr trace attr = false →
     dict_get attr (project trace trace_info) = Some PNone) ∧
  (attr ∈ dataset_item_info → hasattr item attr = false →
     dict_get attr (project item dataset_item_info) = Some PNone ∧
     dict_get attr (combine trace item trace_info dataset_item_info)
       = Some PNone) ∧
  (attr ∈ trace_info → attr ∉ dataset_item_info → hasattr trace attr = false →
     dict_get attr (combine trace item trace_info dataset_item_info)
       = Some PNone).
Proof.
  intros Hreq. rewrite dict_get_combine, !dict_get_project. split_and!.
  - destruct Hreq; repeat case_decide; done.
  - intros Hin Habs. by rewrite decide_True, getattr_absent.
  - intros Hin Habs. by rewrite !decide_True, getattr_absent.
  - intros Hin Hnin Habs. by rewrite decide_False, decide_True, getattr_absent.
Qed.

(** In the list that [get_dataset_run] returns the records have gone through
    [make_serializable]: the keys are the same, and a [None] has become the
    text ["None"]. *)
Lemma absent_field_serialized record attr :
  dict_get attr record = Some PNone →
  ∃ kvs, make_serializable (PDict record) = PDict kvs ∧
    dict_get attr kvs = Some (PStr "None").
Proof.
  intros Habs. eexists. split; [reflexivity|].
  by rewrite dict_get_make_serializable, Habs.
Qed.

(* ===================================================================== *)
(** * Item selection and rate limiting *)
(* ===================================================================== *)

Lemma slice_to_limit {A} (l : list A) (L : Z) :
  0 ≤ L →
  slice_to l (Some L) = take (Z.to_nat L) l ∧
  length (slice_to l (Some L)) = (length l `min` Z.to_nat L)%nat.
Proof.
  intros HL. unfold slice_to.
  destruct (0 <=? L) eqn:Hle; [|lia]. split; [done|].
  rewrite length_take. lia.
Qed.

Lemma item_runs_heads experiment_name params (items : list DatasetItem) :
  item_runs (items ≫= λ item, [EvItemRun (item_id item) experiment_name params])
    = item_id <$> items.
Proof.
  induction items as [|item items IH]; [done|].
  rewrite bind_cons, fmap_cons, item_runs_app, IH. done.
Qed.

Lemma float_limit_positive : 0 < float_limit.
Proof. by vm_compute. Qed.

Lemma rate_positive R : 0 < R → (0 < 60 / inject_Z R)%Q.
Proof.
  intros HR. destruct R as [|p|p]; try lia. unfold Qlt. simpl. lia.
Qed.

(** Below the limit the sleep time is the quotient, from the limit on the
    division raises. *)
Lemma sleep_time_value R :
  R < float_limit →
  sleep_time R = inr (if 0 <? R then (60 / inject_Z R)%Q else 0%Q).
Proof.
  intros HR. unfold sleep_time. destruct (0 <? R); [|done].
  destruct (R <? float_limit) eqn:Hlt; [done|lia].
Qed.

Lemma sleep_time_overflow R :
  float_limit ≤ R → sleep_time R = inl OverflowError.
Proof.
  intros HR. pose proof float_limit_positive. unfold sleep_time.
  destruct (0 <? R) eqn:Hpos; [|lia].
  destruct (R <? float_limit) eqn:Hlt; [lia|done].
Qed.

Lemma sleep_time_inv R t :
  sleep_time R = inr t →
  R < float_limit ∧ t = if 0 <? R then (60 / inject_Z R)%Q else 0%Q.
Proof.
  intros Ht. destruct (decide (R < float_limit)) as [HR|HR].
  - rewrite (sleep_time_value R HR) in Ht. by injection Ht as <-.
  - rewrite sleep_time_overflow in Ht by lia. done.
Qed.

(** One sleep of [60/R] per turn when [R > 0], none otherwise. *)
Lemma turn_sleeps_sleep_time R t :
  sleep_time R = inr t →
  turn_sleeps t = if 0 <? R then [(60 / inject_Z R)%Q] else [].
Proof.
  intros [_ ->]%sleep_time_inv. unfold turn_sleeps.
  destruct (0 <? R) eqn:Hlt.
  - destruct (Qlt_le_dec 0 (60 / inject_Z R)) as [_|Hle]; [done|].
    exfalso. apply (Qle_not_lt _ _ Hle), rate_positive. lia.
  - by destruct (Qlt_le_dec 0 0).
Qed.

Lemma pause_sleep_time R t :
  sleep_time R = inr t → EvSleep <$> turn_sleeps t = pause R.
Proof.
  intros Ht. rewrite (turn_sleeps_sleep_time R t Ht). unfold pause.
  by destruct (0 <? R).
Qed.

Lemma loop_sleeps {A} (xs : list A) R t :
  sleep_time R = inr t →
  xs ≫= (λ _, turn_sleeps t) =
    if 0 <? R then replicate (length xs) (60 / inject_Z R)%Q else [].
Proof.
  intros Ht. rewrite (turn_sleeps_sleep_time R t Ht).
  induction xs as [|x xs IH]; [by destruct (0 <? R)|].
  rewrite bind_cons, IH. by destruct (0 <? R).
Qed.

Lemma total_sleep_replicate (K : nat) (t : Q) :
  (foldr Qplus 0 (replicate K t) == inject_Z (Z.of_nat K) * t)%Q.
Proof.
  induction K as [|K IH].
  - simpl. ring.
  - rewrite Nat2Z.inj_succ. unfold Z.succ. rewrite inject_Z_plus.
    simpl. rewrite IH. ring.
Qed.

Section limits.
Context {remote : Remote}.

(** X13.  [ExperimentRunner.__init__] assigns no [env_path] attribute, and
    [run_experiment] starts by reading it: on a runner that comes straight
    from the constructor the method raises before it loads anything. *)
Lemma run_experiment_fresh_runner_raises env_path s s1 self experiment_name
    pname dataset_name evaluator params test_count requests_per_minute :
  ExperimentRunner_init env_path s = (s1, inr self) →
  run_experiment self experiment_name pname dataset_name evaluator params
    test_count requests_per_minute s1 = (s1, inl (AttributeError "env_path")).
Proof.
  unfold ExperimentRunner_init. intros Hinit.
  apply bind_inv in Hinit as [(e & _ & [=])|([] & s2 & _ & [= _ <-])].
  reflexivity.
Qed.

(** X9.  The selection of the items.  A run of [run_experiment] that
    returns has
    opened a tracing context for exactly the items
    [dataset.items[:test_count]] of the dataset it loaded, in their stored
    order: the first [min(N, L)] of the [N] items for a limit [L >= 0], and
    all of them when no limit is given.  A run that raises has opened a
    prefix of them. *)
Lemma run_experiment_processes_slice self experiment_name prompt_name
    dataset_name evaluator params test_count requests_per_minute s s' r :
  run_experiment self experiment_name prompt_name dataset_name evaluator
    params test_count requests_per_minute s = (s', r) →
  ∃ evs, log s' = log s ++ evs ∧
    (r = inr tt →
     ∃ dataset,
       get_dataset
         (log s ++ [EvGetPrompt prompt_name []; EvGetDataset dataset_name])
         dataset_name = inr dataset ∧
       let items := dataset_items dataset in
       item_runs evs = item_id <$> slice_to items test_count ∧
       (∀ L, test_count = Some L → 0 ≤ L →
          item_runs evs = item_id <$> take (Z.to_nat L) items ∧
          length (item_runs evs) = (length items `min` Z.to_nat L)%nat) ∧
       (test_count = None → item_runs evs = item_id <$> items)) ∧
    (∀ e, r = inl e →
     item_runs evs = [] ∨
     ∃ dataset,
       get_dataset
         (log s ++ [EvGetPrompt prompt_name []; EvGetDataset dataset_name])
         dataset_name = inr dataset ∧
       item_runs evs `prefix_of`
         item_id <$> slice_to (dataset_items dataset) test_count).
Proof.
  intros Hrun.
  apply run_experiment_log in Hrun
    as [(e & evs & -> & Hlog & Hs & Hi)
       |(dataset & t & s0 & Hds & _ & Hlog0 & evs & Hlog & Hloop)].
  { exists evs. split_and!; [done|done|]. intros. by left. }
  exists ([EvGetPrompt prompt_name []; EvGetDataset dataset_name] ++ evs).
  rewrite Hlog, Hlog0, <- app_assoc. split_and!; [done|..].
  - intros ->. destruct Hloop as (Hs & Hi & Ht). exists dataset.
    rewrite item_runs_app, Hi, item_runs_heads. simpl.
    split_and!; [done..| |by intros ->].
    intros L -> HL. destruct (slice_to_limit (dataset_items dataset) L HL)
      as [Hslice Hlen].
    by rewrite length_fmap, Hlen, Hslice.
  - intros e ->. right. exists dataset. split; [done|].
    destruct Hloop as (m & Hm & Hs & Hi & Ht).
    by rewrite item_runs_app, item_runs_heads in *.
Qed.

End limits.

(* ===================================================================== *)
(** * The run-items request and the join *)
(* ===================================================================== *)

Lemma environ_get_ok k v s :
  environ s !! k = Some v → environ_get k s = (s, inr v).
Proof. unfold environ_get. by intros ->. Qed.

Lemma call_eq {A} e (answer : list event → exn + A) s :
  call e answer s =
    (State (heap s) (environ s) (log s ++ [e]), answer (log s ++ [e])).
Proof. reflexivity. Qed.

Lemma build_item_lookup_None items k :
  k ∉ item_id <$> items → build_item_lookup items !! k = None.
Proof.
  unfold build_item_lookup.
  induction items as [|item items IH] using rev_ind; [done|].
  rewrite fmap_app, foldl_app, not_elem_of_app. simpl.
  rewrite list_elem_of_singleton. intros [Hitems Hitem].
  rewrite lookup_insert_ne by done. by apply IH.
Qed.

Lemma build_item_lookup_Some items k item :
  build_item_lookup items !! k = Some item → item ∈ items ∧ item_id item = k.
Proof.
  unfold build_item_lookup.
  induction items as [|item' items IH] using rev_ind; [done|].
  rewrite foldl_app, elem_of_app. simpl.
  destruct (decide (item_id item' = k)) as [<-|Hne].
  - rewrite lookup_insert_eq. intros [= <-]. split; [|done]. right. by left.
  - rewrite lookup_insert_ne by done. intros [? ?]%IH. auto.
Qed.

Section request.
Context {remote : Remote}.

(** C6.  When the run-items endpoint answers with an HTTP error status
    (4xx or 5xx), [get_dataset_run] returns [None]: the [HTTPError] of
    [raise_for_status] is caught, one line is printed, and nothing is
    raised. *)
Theorem http_error_returns_None self dataset_name run_name limit
    requests_per_minute trace_info dataset_item_info s
    host public_key secret_key dataset response :
  environ s !! "LANGFUSE_HOST" = Some host →
  environ s !! "LANGFUSE_PUBLIC_KEY" = Some public_key →
  environ s !! "LANGFUSE_SECRET_KEY" = Some secret_key →
  let url := run_items_url host in
  let params :=
    run_items_params (dataset_id dataset) run_name (default 100 limit) in
  let request := EvHttpGet url (public_key, secret_key) params in
  get_dataset (log s ++ [EvGetDataset dataset_name]) dataset_name
    = inr dataset →
  requests_get (log s ++ [EvGetDataset dataset_name; request]) url
    (public_key, secret_key) params = inr response →
  400 ≤ status_code response < 600 →
  get_dataset_run self dataset_name run_name limit requests_per_minute
    trace_info dataset_item_info s =
    (State (heap s) (environ s)
       (log s ++ [EvGetDataset dataset_name; request;
                  EvPrint (failure_line
                             (HTTPError (status_message response)) response)]),
     inr None).
Proof.
  intros Hhost Hpk Hsk url params request Hds Hget Hstatus.
  unfold get_dataset_run.
  erewrite bind_ok by by apply environ_get_ok.
  erewrite bind_ok by (rewrite call_eq, Hds; reflexivity).
  erewrite bind_ok by by apply environ_get_ok.
  erewrite bind_ok by by apply environ_get_ok.
  erewrite bind_ok.
  2:{ rewrite call_eq. simpl. rewrite <- app_assoc. simpl.
      fold url params request. rewrite Hget. reflexivity. }
  erewrite bind_ok.
  2:{ unfold try_except, bind at 1, raise_for_status.
      rewrite bool_decide_eq_true_2 by done. reflexivity. }
  simpl. by rewrite <- app_assoc.
Qed.
(** Once the loop is reached, the result of [get_dataset_run] is that of
    the loop: an exception of a turn is passed on, a completed loop gives
    the serialized records. *)
Lemma get_dataset_run_loop self dataset_name run_name limit
    requests_per_minute trace_info dataset_item_info s dataset run_items s0
    t :
  reaches_loop s dataset_name run_name limit dataset run_items s0 →
  sleep_time (default 25 requests_per_minute) = inr t →
  get_dataset_run self dataset_name run_name limit requests_per_minute
    trace_info dataset_item_info s =
    let '(s', r) :=
      collect (fetch_trace (build_item_lookup (dataset_items dataset))
                 (default ["input"; "output"] trace_info)
                 (default [] dataset_item_info) t)
        run_items s0 in
    (s', match r with
         | inr records =>
             inr (Some ((λ trace, make_serializable (PDict trace))
                          <$> records))
         | inl e => inl e
         end).
Proof.
  intros (host & public_key & secret_key & response & body & data
          & Hhost & Hpk & Hsk & Hds & Hget & Hstatus & Hjson & Hdata
          & Hiter & ->) Hrate.
  unfold get_dataset_run.
  erewrite bind_ok by by apply environ_get_ok.
  erewrite bind_ok by (rewrite call_eq, Hds; reflexivity).
  erewrite bind_ok by by apply environ_get_ok.
  erewrite bind_ok by by apply environ_get_ok.
  erewrite bind_ok.
  2:{ rewrite call_eq. simpl. rewrite <- app_assoc. simpl.
      rewrite Hget. reflexivity. }
  erewrite bind_ok.
  2:{ unfold try_except, bind at 1, raise_for_status.
      rewrite bool_decide_eq_false_2 by done. reflexivity. }
  cbv beta iota.
  erewrite bind_ok by (unfold lift; rewrite Hjson; reflexivity).
  erewrite bind_ok by (unfold lift; rewrite Hdata; reflexivity).
  erewrite bind_ok by (unfold lift; rewrite Hrate; reflexivity).
  erewrite bind_ok by (unfold lift; rewrite Hiter; reflexivity).
  unfold bind, ret.
  by destruct (collect _ run_items _) as [s' [e|records]].
Qed.

Lemma collect_app_raise {A B} (body : A → M B) pre x post s s1 s2 bs e :
  collect body pre s = (s1, inr bs) →
  body x s1 = (s2, inl e) →
  collect body (pre ++ x :: post) s = (s2, inl e).
Proof.
  revert s bs. induction pre as [|y pre IH]; intros s bs; cbn [collect app].
  { intros [= <- _] Hx. by rewrite (bind_raise _ _ _ _ _ Hx). }
  intros Hpre Hx.
  apply bind_inv in Hpre as [(e' & _ & [=])|(b & s3 & Hy & Hpre)].
  apply bind_inv in Hpre as [(e' & _ & [=])|(bs' & s4 & Hpre & [= <- _])].
  rewrite (bind_ok _ _ _ _ _ Hy).
  by rewrite (bind_raise _ _ _ _ _ (IH _ _ Hpre Hx)).
Qed.

(** A completed turn has fetched a trace, found the item that the trace
    records, and appended the merge of their projections. *)
Lemma fetch_trace_record item_lookup trace_info dataset_item_info t run_item
    s s' record :
  fetch_trace item_lookup trace_info dataset_item_info t run_item s
    = (s', inr record) →
  ∃ trace_id trace metadata key item object,
    subscript run_item "traceId" = inr trace_id ∧
    trace_get (log s ++ [EvTraceGet trace_id]) trace_id = inr trace ∧
    getattr_strict trace "metadata" = inr metadata ∧
    subscript metadata "dataset_item_id" = inr key ∧
    lookup_item item_lookup key = inr item ∧
    item_object item s = (s, inr object) ∧
    record = combine trace object trace_info dataset_item_info.
Proof.
  unfold fetch_trace. unfold bind at 1, lift at 1.
  destruct (subscript run_item "traceId") as [e|trace_id] eqn:Hid; [done|].
  intros Hrun.
  apply bind_inv in Hrun as [(e & _ & [=])|(trace & s1 & Hcall & Hrun)].
  apply call_inv in Hcall as [-> Hans].
  unfold bind at 1, lift at 1 in Hrun.
  destruct (getattr_strict trace "metadata") as [e|metadata] eqn:Hmeta;
    [done|].
  unfold bind at 1, lift at 1 in Hrun.
  destruct (subscript metadata "dataset_item_id") as [e|key] eqn:Hkey;
    [done|].
  unfold bind at 1, lift at 1 in Hrun.
  destruct (lookup_item item_lookup key) as [e|item] eqn:Hitem; [done|].
  apply bind_inv in Hrun as [(e & _ & [=])|(object & s2 & Hobj & Hrun)].
  apply bind_inv in Hrun as [(e & _ & [=])|([] & s3 & _ & [= _ <-])].
  exists trace_id, trace, metadata, key, item, object.
  split_and!; try done.
  unfold item_object, bind, heap_get, ret in *. simpl in Hobj.
  by destruct (heap s !! item_input item); simplify_eq.
Qed.

Lemma collect_Forall {A B} (body : A → M B) (P : B → Prop) xs s s' bs :
  (∀ x s1 s2 b, body x s1 = (s2, inr b) → P b) →
  collect body xs s = (s', inr bs) → Forall P bs.
Proof.
  intros Hbody. revert s s' bs. induction xs as [|x xs IH]; intros s s' bs;
    cbn [collect].
  { intros [= _ <-]. constructor. }
  intros Hrun.
  apply bind_inv in Hrun as [(e & _ & [=])|(b & s1 & Hx & Hrun)].
  apply bind_inv in Hrun as [(e & _ & [=])|(bs' & s2 & Hxs & [= _ <-])].
  constructor; [by eapply Hbody|by eapply IH].
Qed.

(** One turn on a trace whose recorded item id is no key of the lookup. *)
Lemma fetch_trace_orphan items trace_info dataset_item_info t run_item s
    trace_id trace metadata k :
  subscript run_item "traceId" = inr trace_id →
  trace_get (log s ++ [EvTraceGet trace_id]) trace_id = inr trace →
  getattr_strict trace "metadata" = inr metadata →
  subscript metadata "dataset_item_id" = inr (PStr k) →
  k ∉ item_id <$> items →
  fetch_trace (build_item_lookup items) trace_info dataset_item_info t
    run_item s =
    (State (heap s) (environ s) (log s ++ [EvTraceGet trace_id]),
     inl (KeyError (PStr k))).
Proof.
  intros Hid Hget Hmeta Hkey Hk. unfold fetch_trace.
  erewrite bind_ok by (unfold lift; rewrite Hid; reflexivity).
  erewrite bind_ok by (rewrite call_eq, Hget; reflexivity).
  erewrite bind_ok by (unfold lift; rewrite Hmeta; reflexivity).
  erewrite bind_ok by (unfold lift; rewrite Hkey; reflexivity).
  erewrite bind_raise; [reflexivity|].
  unfold lift, lookup_item. by rewrite build_item_lookup_None.
Qed.

(** C7.  When a fetched trace records a dataset-item id that is no key of
    the lookup built from the dataset's items, [get_dataset_run] raises
    [KeyError] for that id at that trace: the record is not skipped, the
    remaining run items are not fetched, and no list is returned. *)
Theorem orphan_trace_raises self dataset_name run_name limit
    requests_per_minute trace_info dataset_item_info s dataset
    before orphan after s0 s1 records trace_id trace metadata k t :
  reaches_loop s dataset_name run_name limit dataset
    (before ++ orphan :: after) s0 →
  sleep_time (default 25 requests_per_minute) = inr t →
  collect (fetch_trace (build_item_lookup (dataset_items dataset))
             (default ["input"; "output"] trace_info)
             (default [] dataset_item_info) t)
    before s0 = (s1, inr records) →
  subscript orphan "traceId" = inr trace_id →
  trace_get (log s1 ++ [EvTraceGet trace_id]) trace_id = inr trace →
  getattr_strict trace "metadata" = inr metadata →
  subscript metadata "dataset_item_id" = inr (PStr k) →
  k ∉ item_id <$> dataset_items dataset →
  get_dataset_run self dataset_name run_name limit requests_per_minute
    trace_info dataset_item_info s =
    (State (heap s1) (environ s1) (log s1 ++ [EvTraceGet trace_id]),
     inl (KeyError (PStr k))).
Proof.
  intros Hreach Hrate Hbefore Hid Hget Hmeta Hkey Hk.
  rewrite (get_dataset_run_loop _ _ _ _ _ _ _ _ _ _ _ _ Hreach Hrate).
  erewrite collect_app_raise; [done|exact Hbefore|].
  by eapply fetch_trace_orphan.
Qed.
End request.

(* ===================================================================== *)
(** * The schema description *)
(* ===================================================================== *)

Lemma heap_get_ok l d s : heap s !! l = Some d → heap_get l s = (s, inr d).
Proof. unfold heap_get. by intros ->. Qed.

Lemma heap_pop_present l k default d v s :
  heap s !! l = Some d → dict_get k d = Some v →
  heap_pop l k default s =
    (State (<[l := dict_del k d]> (heap s)) (environ s) (log s), inr v).
Proof.
  intros Hl Hk. unfold heap_pop.
  rewrite (bind_ok _ _ _ _ _ (heap_get_ok _ _ _ Hl)), Hk. done.
Qed.

Lemma heap_pop_absent l k default d s :
  heap s !! l = Some d → dict_get k d = None →
  heap_pop l k default s = (s, inr default).
Proof.
  intros Hl Hk. unfold heap_pop.
  rewrite (bind_ok _ _ _ _ _ (heap_get_ok _ _ _ Hl)), Hk. done.
Qed.

Lemma heap_setitem_ok l k v d s :
  heap s !! l = Some d →
  heap_setitem l k v s =
    (State (<[l := dict_set k v d]> (heap s)) (environ s) (log s), inr tt).
Proof.
  intros Hl. unfold heap_setitem.
  by rewrite (bind_ok _ _ _ _ _ (heap_get_ok _ _ _ Hl)).
Qed.

Example schema_str_two :
  ∀ remote : Remote,
    schema_str [("skill", PStr "skill title or undefined");
                ("bot_response", PAtom (AInt 3))]
    = "'skill': skill title or undefined, 'bot_response': 3".
Proof. reflexivity. Qed.

Section schema.
Context {remote : Remote}.

(** C4.  When the configuration in force (the override if it is given and
    not empty, the prompt's stored one otherwise) holds a non-empty schema
    under ["json_schema"], one call of [run_prompt] (1) binds
    ["json_schema_str"] in the input payload to the entries of the schema,
    each rendered as ['key': value] (a text value as it is, any other value
    by its [str()]) and joined by [", "] in the order of the schema, the
    other entries of the payload being kept, and compiles the template
    with that payload; (2) when the template compiles, calls the inference
    client once, with a configuration that has no ["json_schema"] key and
    is otherwise the configuration in force, and returns the first choice
    of its answer.  A configuration with a ["messages"] entry of its own
    cannot be passed on beside the compiled messages: the call is then a
    [TypeError] and the client is not entered. *)
Theorem schema_injected_and_withheld self input_data config s c cfg schema
    inp :
  select_config self config s = (s, inr c) →
  heap s !! c = Some cfg →
  dict_get "json_schema" cfg = Some (PDict schema) →
  schema ≠ [] →
  heap s !! input_data = Some inp →
  ∃ s' r evs kwargs,
    run_prompt self input_data config s = (s', r) ∧
    log s' = log s ++ evs ∧
    heap s' !! input_data = Some kwargs ∧
    dict_get "json_schema_str" kwargs =
      Some (PStr (String.concat ", "
                    ((λ kv, "'" +:+ kv.1 +:+ "': " +:+
                            match kv.2 with
                            | PStr text => text
                            | PAtom a => atom_str a
                            | value => str_compound value
                            end) <$> schema))) ∧
    (∀ k, k ≠ "json_schema_str" → k ≠ "json_schema" →
       dict_get k kwargs = dict_get k inp) ∧
    match prompt_compile (log s ++ [EvCompile kwargs]) (prompt self) kwargs
    with
    | inl e => evs = [EvCompile kwargs] ∧ r = inl e
    | inr messages =>
        match dict_get "messages" cfg with
        | Some _ =>
            evs = [EvCompile kwargs] ∧
            r = inl (TypeError "got multiple values for keyword argument")
        | None =>
            ∃ cfg', evs = [EvCompile kwargs; EvChatCreate messages cfg'] ∧
              dict_get "json_schema" cfg' = None ∧
              (∀ k, k ≠ "json_schema_str" → k ≠ "json_schema" →
                 dict_get k cfg' = dict_get k cfg) ∧
              r = match chat_completions_create (log s ++ evs) messages cfg'
                  with
                  | inl e => inl e
                  | inr [] => inl IndexError
                  | inr (choice :: _) => inr choice
                  end
        end
    end.
Proof.
  intros Hsel Hc Hschema Hne Hinp. unfold run_prompt.
  rewrite (bind_ok _ _ _ _ _ Hsel).
  rewrite (bind_ok _ _ _ _ _
             (heap_pop_present _ _ (PDict []) _ _ _ Hc Hschema)).
  assert (truthy (PDict schema) = true) as -> by by destruct schema.
  set (d0 := if decide (c = input_data) then dict_del "json_schema" cfg
             else inp).
  set (kwargs := dict_set "json_schema_str" (PStr (schema_str schema)) d0).
  set (s1 := State _ _ _).
  assert (heap s1 !! input_data = Some d0) as Hd0.
  { subst s1 d0. simpl. rewrite lookup_insert. by case_decide. }
  erewrite bind_ok.
  2:{ cbn [py_items]. unfold bind at 1, lift at 1.
      apply (heap_setitem_ok _ _ _ _ _ Hd0). }
  fold kwargs. set (s2 := State _ _ _).
  assert (heap s2 !! input_data = Some kwargs) as Hkw.
  { subst s2. simpl. apply lookup_insert_eq. }
  rewrite (bind_ok _ _ _ _ _ (heap_get_ok _ _ _ Hkw)).
  assert (dict_get "json_schema_str" kwargs =
            Some (PStr (String.concat ", "
                          ((λ kv, "'" +:+ kv.1 +:+ "': " +:+
                                  match kv.2 with
                                  | PStr text => text
                                  | PAtom a => atom_str a
                                  | value => str_compound value
                                  end) <$> schema)))) as Hstr.
  { subst kwargs. rewrite dict_get_set_eq. do 2 f_equal.
    unfold schema_str. f_equal. apply list_fmap_ext. intros _ [k v] _.
    unfold schema_entry, py_format. simpl. by destruct v. }
  assert (∀ k, k ≠ "json_schema_str" → k ≠ "json_schema" →
            dict_get k kwargs = dict_get k inp) as Hkeep.
  { intros k Hk1 Hk2. subst kwargs d0. rewrite dict_get_set_ne by done.
    case_decide as Hal; [|done]. subst c.
    rewrite dict_get_del_ne by done. congruence. }
  set (cfg' := if decide (input_data = c) then kwargs
               else dict_del "json_schema" cfg).
  assert (heap s2 !! c = Some cfg') as Hcfg'.
  { subst s2 cfg'. simpl. rewrite lookup_insert. case_decide; [done|].
    subst s1. simpl. apply lookup_insert_eq. }
  assert (dict_get "json_schema" cfg' = None) as Hgone.
  { subst cfg' kwargs d0. case_decide as Hal.
    - rewrite dict_get_set_ne by done. rewrite decide_True by done.
      apply dict_get_del_eq.
    - apply dict_get_del_eq. }
  assert (∀ k, k ≠ "json_schema_str" → k ≠ "json_schema" →
            dict_get k cfg' = dict_get k cfg) as Hrest.
  { intros k Hk1 Hk2. subst cfg'. case_decide as Hal.
    - rewrite Hkeep by done. subst c. congruence.
    - by rewrite dict_get_del_ne. }
  unfold bind at 1. rewrite call_eq.
  change (log s2) with (log s).
  destruct (prompt_compile (log s ++ [EvCompile kwargs]) (prompt self)
              kwargs) as [e|messages] eqn:Hcompile.
  { eexists _, _, [EvCompile kwargs], kwargs.
    split; [reflexivity|]. cbn [heap log]. rewrite Hcompile.
    by split_and!. }
  set (s3 := State _ _ _).
  assert (heap s3 !! c = Some cfg') as Hcfg3 by done.
  rewrite (bind_ok _ _ _ _ _ (heap_get_ok _ _ _ Hcfg3)).
  unfold bind at 1.
  destruct (dict_get "messages" cfg) as [v|] eqn:Hmessages.
  - unfold call_keywords.
    rewrite (keyword_clash_present "messages" cfg' v)
      by by rewrite Hrest.
    eexists _, _, [EvCompile kwargs], kwargs.
    split; [reflexivity|]. cbn [heap log]. rewrite Hcompile.
    by split_and!.
  - rewrite call_keywords_eq
      by (apply keyword_clash_absent; by rewrite Hrest).
    subst s3. cbn [heap log environ]. rewrite <- app_assoc. cbn [app].
    destruct (chat_completions_create _ messages cfg') as [e|choices]
      eqn:Hcreate.
    + eexists _, _, [EvCompile kwargs; EvChatCreate messages cfg'], kwargs.
      split; [reflexivity|]. cbn [heap log]. rewrite Hcompile.
      split_and!; [done..|]. exists cfg'. split_and!; [done..|].
      by rewrite Hcreate.
    + eexists _, _, [EvCompile kwargs; EvChatCreate messages cfg'], kwargs.
      split; [reflexivity|]. cbn [heap log]. rewrite Hcompile.
      split_and!; [done..|]. exists cfg'. split_and!; [done..|].
      rewrite Hcreate. by destruct choices.
Qed.
End schema.

(* ===================================================================== *)
(** * The stored configuration across calls *)
(* ===================================================================== *)

Lemma heap_stable_bind {A B} (m : M A) (k : A → M B) :
  heap_stable m → (∀ a, heap_stable (k a)) → heap_stable (bind m k).
Proof.
  intros Hm Hk s s' r Hrun.
  apply bind_inv in Hrun as [(e & Hrun & ->)|(a & s1 & Hrun & Hrest)].
  - by apply Hm in Hrun.
  - apply Hm in Hrun. apply Hk in Hrest. congruence.
Qed.

Lemma heap_stable_lift {A} (x : exn + A) : heap_stable (lift x).
Proof. by intros s s' r [= <- <-]. Qed.

Lemma heap_stable_heap_get l : heap_stable (heap_get l).
Proof.
  intros s s' r. unfold heap_get. by destruct (heap s !! l); intros [= <- <-].
Qed.

Lemma heap_stable_call {A} e (answer : list event → exn + A) :
  heap_stable (call e answer).
Proof. by intros s s' r [= <- <-]. Qed.

Lemma heap_stable_call_keywords {A} fixed kwargs e
    (answer : list event → exn + A) :
  heap_stable (call_keywords fixed kwargs e answer).
Proof.
  unfold call_keywords. destruct (keyword_clash fixed kwargs).
  - by intros s s' r [= <- <-].
  - apply heap_stable_call.
Qed.

Section stored_config.
Context {remote : Remote}.

(** Without an override, a call of [run_prompt] on a prompt whose stored
    configuration has a ["json_schema"] entry leaves that configuration
    without it, whatever the call returns or raises. *)
Lemma run_prompt_strips_stored_schema self input_data s cfg v s' r :
  heap s !! prompt_config (prompt self) = Some cfg →
  dict_get "json_schema" cfg = Some v →
  run_prompt self input_data None s = (s', r) →
  ∃ cfg', heap s' !! prompt_config (prompt self) = Some cfg' ∧
    dict_get "json_schema" cfg' = None.
Proof.
  intros Hc Hv. unfold run_prompt, select_config.
  set (c := prompt_config (prompt self)) in *.
  change (bind (ret c) ?k s) with (k c s). cbv beta.
  rewrite (bind_ok _ _ _ _ _ (heap_pop_present _ _ (PDict []) _ _ _ Hc Hv)).
  set (s1 := State _ _ _). intros Hrun.
  assert (∀ s2 r2,
            (if truthy v
             then items <- lift (py_items v) ;;
                  heap_setitem input_data "json_schema_str"
                    (PStr (schema_str items))
             else ret tt) s1 = (s2, r2) →
            ∃ cfg', heap s2 !! c = Some cfg' ∧
              dict_get "json_schema" cfg' = None) as Hinject.
  { intros s2 r2. destruct (truthy v).
    - unfold bind at 1, lift at 1. destruct (py_items v) as [e|items].
      { intros [= <- _]. exists (dict_del "json_schema" cfg).
        split; [apply lookup_insert_eq|apply dict_get_del_eq]. }
      unfold heap_setitem, bind, heap_get.
      destruct (heap s1 !! input_data) as [d|] eqn:Hd.
      + intros [= <- _]. simpl. rewrite lookup_insert.
        case_decide as Hal.
        * subst input_data. simpl in Hd. rewrite lookup_insert_eq in Hd.
          injection Hd as <-. eexists. split; [done|].
          rewrite dict_get_set_ne by done. apply dict_get_del_eq.
        * exists (dict_del "json_schema" cfg).
          split; [apply lookup_insert_eq|apply dict_get_del_eq].
      + intros [= <- _]. exists (dict_del "json_schema" cfg).
        split; [apply lookup_insert_eq|apply dict_get_del_eq].
    - intros [= <- _]. exists (dict_del "json_schema" cfg).
      split; [apply lookup_insert_eq|apply dict_get_del_eq]. }
  apply bind_inv in Hrun as [(e & Hrun & ->)|([] & s2 & Hrun & Hrest)];
    apply Hinject in Hrun; [done|].
  assert (heap s' = heap s2) as ->; [|done].
  revert Hrest. apply heap_stable_bind; [apply heap_stable_heap_get|].
  intros kwargs. apply heap_stable_bind; [apply heap_stable_call|].
  intros messages. apply heap_stable_bind; [apply heap_stable_heap_get|].
  intros cfg0. apply heap_stable_bind; [apply heap_stable_call_keywords|].
  intros choices. apply heap_stable_lift.
Qed.
End stored_config.

(* ===================================================================== *)
(** * Batches that run to the end *)
(* ===================================================================== *)

Section completion.
Context {remote : Remote}.

Lemma for_each_ok {A} (body : A → M unit) (I : state → Prop) xs s :
  (∀ x s, x ∈ xs → I s → ∃ s', body x s = (s', inr tt) ∧ I s') →
  I s → ∃ s', for_each body xs s = (s', inr tt) ∧ I s'.
Proof.
  revert s. induction xs as [|x xs IH]; intros s Hbody HI; cbn [for_each].
  { by exists s. }
  destruct (Hbody x s) as (s1 & Hx & HI1); [by left|done|].
  rewrite (bind_ok _ _ _ _ _ Hx).
  apply IH; [|done]. intros y s2 Hy. apply Hbody. by right.
Qed.

(** On a ready store and with reliable services, [run_prompt] without an
    override returns; the stored configuration has no schema entry
    afterwards and is otherwise what it was, and nothing is removed from
    the store. *)
Lemma run_prompt_ok p evaluator input_data s cfg inp :
  reliable p evaluator →
  heap s !! prompt_config p = Some cfg → schema_ok cfg →
  dict_get "messages" cfg = None →
  heap s !! input_data = Some inp →
  ∃ s' response,
    run_prompt {| prompt := p |} input_data None s = (s', inr response) ∧
    (∃ cfg', heap s' !! prompt_config p = Some cfg' ∧
       dict_get "model" cfg' = dict_get "model" cfg ∧
       dict_get "messages" cfg' = None ∧
       dict_get "json_schema" cfg' = None) ∧
    (∀ l, is_Some (heap s !! l) → is_Some (heap s' !! l)).
Proof.
  intros Hrel Hc Hok Hfree Hinp. unfold run_prompt, select_config.
  simpl prompt. set (c := prompt_config p) in *.
  change (bind (ret c) ?k s) with (k c s). cbv beta.
  (* the part after the schema has been dealt with *)
  assert (∀ s2 kwargs cfg2,
            heap s2 !! input_data = Some kwargs → heap s2 !! c = Some cfg2 →
            dict_get "messages" cfg2 = None →
            ∃ s' response,
              (kwargs <- heap_get input_data ;;
               messages <- call (EvCompile kwargs)
                             (λ h, prompt_compile h p kwargs) ;;
               cfg <- heap_get c ;;
               choices <- call_keywords ["messages"] cfg
                            (EvChatCreate messages cfg)
                            (λ h, chat_completions_create h messages cfg) ;;
               lift (first_choice choices)) s2 = (s', inr response)
              ∧ heap s' = heap s2) as Htail.
  { intros s2 kwargs cfg2 Hkw Hcfg2 Hfree2.
    rewrite (bind_ok _ _ _ _ _ (heap_get_ok _ _ _ Hkw)).
    destruct (reliable_compile _ _ Hrel (log s2 ++ [EvCompile kwargs]) kwargs)
      as [messages Hm].
    erewrite bind_ok by (rewrite call_eq, Hm; reflexivity).
    erewrite bind_ok by by apply heap_get_ok.
    destruct (reliable_create _ _ Hrel
                ((log s2 ++ [EvCompile kwargs])
                 ++ [EvChatCreate messages cfg2]) messages cfg2)
      as (choice & choices & Hcs).
    erewrite bind_ok
      by (rewrite call_keywords_eq by (by apply keyword_clash_absent);
          simpl; rewrite Hcs; reflexivity).
    by eexists _, _. }
  destruct (dict_get "json_schema" cfg) as [v|] eqn:Hschema.
  - rewrite (bind_ok _ _ _ _ _
               (heap_pop_present _ _ (PDict []) _ _ _ Hc Hschema)).
    set (s1 := State _ _ _).
    assert (heap s1 !! c = Some (dict_del "json_schema" cfg)) as Hc1
      by apply lookup_insert_eq.
    assert (∃ d0, heap s1 !! input_data = Some d0) as [d0 Hd0].
    { subst s1. simpl. rewrite lookup_insert. case_decide; eauto. }
    destruct (truthy v) eqn:Htruthy.
    + destruct (Hok v Hschema Htruthy) as [schema ->].
      erewrite bind_ok.
      2:{ cbn [py_items]. unfold bind at 1, lift at 1.
          apply (heap_setitem_ok _ _ _ _ _ Hd0). }
      set (kwargs := dict_set _ _ d0). set (s2 := State _ _ _).
      assert (heap s2 !! input_data = Some kwargs) as Hkw
        by apply lookup_insert_eq.
      assert (∃ cfg2, heap s2 !! c = Some cfg2 ∧
                dict_get "model" cfg2 = dict_get "model" cfg ∧
                dict_get "messages" cfg2 = None ∧
                dict_get "json_schema" cfg2 = None)
        as (cfg2 & Hc2 & Hm2 & Hf2 & Hs2).
      { subst s2. simpl. rewrite lookup_insert. case_decide as Hal.
        - subst input_data. rewrite Hc1 in Hd0. injection Hd0 as <-.
          exists kwargs. subst kwargs.
          rewrite !dict_get_set_ne by done.
          rewrite !dict_get_del_ne by done. by rewrite dict_get_del_eq.
        - exists (dict_del "json_schema" cfg).
          rewrite !dict_get_del_ne by done. by rewrite dict_get_del_eq. }
      destruct (Htail s2 kwargs cfg2 Hkw Hc2 Hf2)
        as (s' & response & Hrun & Hheap).
      exists s', response. rewrite Hrun, Hheap. split_and!; [done|eauto|].
      intros l Hl. subst s2 s1. simpl. rewrite !lookup_insert.
      repeat case_decide; eauto.
    + change (bind (ret tt) ?k s1) with (k tt s1). cbv beta.
      destruct (Htail s1 d0 _ Hd0 Hc1) as (s' & response & Hrun & Hheap).
      { by rewrite dict_get_del_ne. }
      exists s', response. rewrite Hrun, Hheap. split_and!; [done| |].
      * exists (dict_del "json_schema" cfg).
        rewrite !dict_get_del_ne by done. by rewrite dict_get_del_eq.
      * intros l Hl. subst s1. simpl. rewrite lookup_insert.
        case_decide; eauto.
  - rewrite (bind_ok _ _ _ _ _
               (heap_pop_absent _ _ (PDict []) _ _ Hc Hschema)).
    change (truthy (PDict [])) with false. cbv iota.
    change (bind (ret tt) ?k s) with (k tt s). cbv beta.
    destruct (Htail s inp cfg Hinp Hc Hfree) as (s' & response & Hrun & Hheap).
    exists s', response. rewrite Hrun, Hheap. split_and!; eauto.
Qed.

Lemma prompt_app_ok p evaluator input_data item_id run_name s cfg model inp :
  reliable p evaluator →
  heap s !! prompt_config p = Some cfg →
  dict_get "model" cfg = Some model → schema_ok cfg →
  dict_get "messages" cfg = None →
  heap s !! input_data = Some inp →
  ∃ s' response,
    prompt_app {| prompt := p |} input_data item_id run_name s
      = (s', inr response) ∧
    (∃ cfg', heap s' !! prompt_config p = Some cfg' ∧
       dict_get "model" cfg' = Some model ∧
       dict_get "messages" cfg' = None ∧
       dict_get "json_schema" cfg' = None) ∧
    (∀ l, is_Some (heap s !! l) → is_Some (heap s' !! l)).
Proof.
  intros Hrel Hc Hmodel Hok Hfree Hinp. unfold prompt_app. simpl prompt.
  erewrite bind_ok by by apply heap_get_ok.
  erewrite bind_ok by by apply heap_get_ok.
  erewrite bind_ok by (unfold lift, dict_item; rewrite Hmodel; reflexivity).
  erewrite bind_ok
    by (rewrite call_eq, (reliable_generation _ _ Hrel); reflexivity).
  set (s1 := State _ _ _).
  destruct (run_prompt_ok p evaluator input_data s1 cfg inp Hrel Hc Hok Hfree
              Hinp)
    as (s2 & response & Hrun & (cfg' & Hc' & Hm' & Hf' & Hs') & Hmono).
  unfold runner_run_prompt. rewrite (bind_ok _ _ _ _ _ Hrun).
  erewrite bind_ok
    by (rewrite call_eq, (reliable_update _ _ Hrel); reflexivity).
  destruct (Hmono input_data) as [inp' Hinp']; [by eexists|].
  erewrite bind_ok by by apply heap_get_ok.
  erewrite bind_ok
    by (rewrite call_eq, (reliable_trace _ _ Hrel); reflexivity).
  eexists _, _. split; [reflexivity|]. simpl. split; [|done].
  exists cfg'. by rewrite Hm'.
Qed.

Lemma run_item_ok p evaluator experiment_name params t items item s :
  reliable p evaluator → dict_get "run_name" params = None →
  ready p items s → item ∈ items →
  ∃ s', run_item {| prompt := p |} experiment_name evaluator params t item s
          = (s', inr tt) ∧ ready p items s'.
Proof.
  intros Hrel Hparams [(cfg & Hc & [model Hmodel] & Hfree & Hok) Hitems] Hitem.
  pose proof Hitems as Hinputs. rewrite Forall_forall in Hinputs.
  destruct (Hinputs item Hitem) as [inp Hinp].
  unfold run_item.
  erewrite bind_ok
    by (rewrite call_keywords_eq by (by apply keyword_clash_absent);
        rewrite (reliable_item_run _ _ Hrel); reflexivity).
  set (s1 := State _ _ _).
  destruct (prompt_app_ok p evaluator (item_input item) (item_id item)
              experiment_name s1 cfg model inp Hrel Hc Hmodel Hok Hfree Hinp)
    as (s2 & response & Hrun & (cfg' & Hc' & Hm' & Hf' & Hs') & Hmono).
  rewrite (bind_ok _ _ _ _ _ Hrun).
  assert (ready p items s2) as Hready.
  { split.
    - exists cfg'. split_and!; [done|by eexists|done|].
      intros v Hv. congruence.
    - apply Forall_forall. intros x Hx. apply Hmono, Hinputs, Hx. }
  assert (∃ s3, (match evaluator with
                 | Some ev => call (EvEvaluate response (item_id item))
                                (λ h, ev h response item)
                 | None => ret tt
                 end) s2 = (s3, inr tt) ∧ heap s3 = heap s2)
    as (s3 & Hev & Hheap).
  { destruct evaluator as [ev|]; [|by exists s2].
    eexists. rewrite call_eq, (reliable_evaluator _ _ Hrel ev eq_refl).
    done. }
  rewrite (bind_ok _ _ _ _ _ Hev).
  unfold sleep_if_positive, sleep, emit, ret.
  destruct (Qlt_le_dec 0 t); eexists; (split; [reflexivity|]);
    unfold ready in *; simpl; by rewrite ?Hheap.
Qed.

(** X12.  With a runner whose [env_path] attribute is [None], an
    inference key in the environment, a prompt and a dataset that can be
    loaded, experiment parameters without a [run_name] of their own, a
    rate below the limit of the float conversion, reliable services and a
    ready store, [run_experiment] runs the whole batch and returns. *)
Lemma run_experiment_completes self experiment_name pname dataset_name
    evaluator params test_count requests_per_minute s p dataset :
  runner_env_path self = Some None →
  is_Some (environ s !! "OPENAI_API_KEY") →
  (∀ h, get_prompt h pname [] = inr p) →
  (∀ h, get_dataset h dataset_name = inr dataset) →
  dict_get "run_name" params = None →
  default 1000 requests_per_minute < float_limit →
  reliable p evaluator →
  ready p (dataset_items dataset) s →
  ∃ s', run_experiment self experiment_name pname dataset_name evaluator
          params test_count requests_per_minute s = (s', inr tt).
Proof.
  intros Hself [key Hkey] Hprompt Hdataset Hparams Hrate Hrel Hready.
  unfold run_experiment, self_env_path. rewrite Hself.
  change (bind (ret None) ?k s) with (k None s). cbv beta.
  erewrite bind_ok.
  2:{ unfold PromptRunner_init, load_env, OpenAI, bind, call, emit, ask, ret.
      simpl. rewrite Hkey, Hprompt. reflexivity. }
  erewrite bind_ok by (rewrite call_eq, Hdataset; reflexivity).
  pose proof (sleep_time_value _ Hrate) as Ht.
  destruct (sleep_time (default 1000 requests_per_minute)) as [?|t]; [done|].
  erewrite bind_ok by reflexivity.
  set (s1 := State _ _ _).
  destruct (for_each_ok
              (run_item {| prompt := p |} experiment_name evaluator params t)
              (ready p (dataset_items dataset))
              (slice_to (dataset_items dataset) test_count) s1)
    as (s' & Hrun & _); [|done|by exists s'].
  intros item s2 Hitem Hready2. apply run_item_ok; [done..|].
  unfold slice_to in Hitem.
  destruct test_count as [n|]; [|done].
  destruct (0 <=? n); by apply subseteq_take in Hitem.
Qed.
End completion.

(* ===================================================================== *)
(** * [run_prompt]: what reaches the services *)
(* ===================================================================== *)

Section run_prompt_sends.
Context {remote : Remote}.

Lemma select_config_state self config s s' r :
  select_config self config s = (s', r) → s' = s.
Proof.
  unfold select_config. destruct config as [c|]; [|by intros [= <- _]].
  unfold bind, heap_get, ret. by destruct (heap s !! c); intros [= <- _].
Qed.

(** After [config.pop(k, default)] the dictionary is still in the store
    and has no entry for [k]. *)
Lemma heap_pop_inv l k default s s' r :
  heap_pop l k default s = (s', r) →
  environ s' = environ s ∧ log s' = log s ∧
  ((s' = s ∧ ∃ e, r = inl e) ∨
   (∃ v d', r = inr v ∧ heap s' !! l = Some d' ∧ dict_get k d' = None)).
Proof.
  unfold heap_pop, bind, heap_get.
  destruct (heap s !! l) as [d|] eqn:Hl.
  - destruct (dict_get k d) as [v|] eqn:Hk.
    + intros [= <- <-]. split_and!; [done..|]. right.
      exists v, (dict_del k d). split_and!; [done| |apply dict_get_del_eq].
      apply lookup_insert_eq.
    + intros [= <- <-]. split_and!; [done..|]. right. by exists default, d.
  - intros [= <- <-]. split_and!; [done..|]. left. eauto.
Qed.

(** The compilation and the inference call, once the payload [kwargs] and
    the configuration [cfg] are settled. *)
Lemma inference_tail p input_data c s kwargs cfg :
  heap s !! input_data = Some kwargs → heap s !! c = Some cfg →
  (kwargs <- heap_get input_data ;;
   messages <- call (EvCompile kwargs) (λ h, prompt_compile h p kwargs) ;;
   cfg <- heap_get c ;;
   choices <- call_keywords ["messages"] cfg (EvChatCreate messages cfg)
                (λ h, chat_completions_create h messages cfg) ;;
   lift (first_choice choices)) s =
  (State (heap s) (environ s)
     (log s ++ (inference p (log s) kwargs cfg).1),
   (inference p (log s) kwargs cfg).2).
Proof.
  intros Hkw Hcfg.
  rewrite (bind_ok _ _ _ _ _ (heap_get_ok _ _ _ Hkw)).
  unfold bind at 1. rewrite call_eq. unfold inference.
  destruct (prompt_compile (log s ++ [EvCompile kwargs]) p kwargs)
    as [e|messages]; [done|].
  set (s1 := State _ _ _).
  assert (heap s1 !! c = Some cfg) as Hcfg1 by done.
  rewrite (bind_ok _ _ _ _ _ (heap_get_ok _ _ _ Hcfg1)).
  unfold bind at 1, call_keywords.
  destruct (keyword_clash ["messages"] cfg); [done|].
  rewrite call_eq. subst s1. simpl.
  rewrite <- app_assoc. simpl.
  by destruct (chat_completions_create _ messages cfg) as [e|choices].
Qed.

Lemma run_prompt_inv self input_data config s s' r :
  run_prompt self input_data config s = (s', r) →
  environ s' = environ s ∧
  ((log s' = log s ∧ ∃ e, r = inl e) ∨
   ∃ c kwargs cfg,
     select_config self config s = (s, inr c) ∧
     heap s' !! input_data = Some kwargs ∧
     heap s' !! c = Some cfg ∧
     dict_get "json_schema" cfg = None ∧
     log s' = log s ++ (inference (prompt self) (log s) kwargs cfg).1 ∧
     r = (inference (prompt self) (log s) kwargs cfg).2).
Proof.
  unfold run_prompt. intros Hrun.
  apply bind_inv in Hrun as [(e & Hsel & ->)|(c & s0 & Hsel & Hrun)];
    pose proof (select_config_state _ _ _ _ _ Hsel) as ->.
  { split; [done|]. left. eauto. }
  apply bind_inv in Hrun as [(e & Hpop & ->)|(v & s1 & Hpop & Hrun)];
    apply heap_pop_inv in Hpop as (Henv1 & Hlog1 & Hpop).
  { split; [done|]. left. eauto. }
  destruct Hpop as [[_ [e [=]]]|(? & cfg1 & [= <-] & Hc1 & Hgone1)].
  apply bind_inv in Hrun as [(e & Hstep & ->)|([] & s2 & Hstep & Hrun)].
  { assert (environ s' = environ s1 ∧ log s' = log s1) as [-> ->].
    { destruct (truthy v); [|by injection Hstep as <-].
      unfold bind at 1, lift at 1 in Hstep.
      destruct (py_items v); [by injection Hstep as <-|].
      unfold heap_setitem, bind, heap_get, heap_put in Hstep.
      by destruct (heap s1 !! input_data); injection Hstep as <-. }
    split; [done|]. left. eauto. }
  assert (environ s2 = environ s1 ∧ log s2 = log s1 ∧
          ∃ cfg2, heap s2 !! c = Some cfg2 ∧
            dict_get "json_schema" cfg2 = None) as (Henv2 & Hlog2 & Hc2).
  { destruct (truthy v); [|injection Hstep as <-; eauto].
    unfold bind at 1, lift at 1 in Hstep.
    destruct (py_items v) as [e|items]; [done|].
    unfold heap_setitem, bind, heap_get, heap_put in Hstep.
    destruct (heap s1 !! input_data) as [d|] eqn:Hd; [|done].
    injection Hstep as <-. simpl. split_and!; [done..|].
    rewrite lookup_insert. case_decide as Hal; [|eauto].
    subst input_data. eexists. split; [done|].
    rewrite dict_get_set_ne by done. congruence. }
  destruct Hc2 as (cfg2 & Hc2 & Hgone2).
  destruct (heap s2 !! input_data) as [kwargs|] eqn:Hkw.
  - rewrite (inference_tail _ _ _ _ _ _ Hkw Hc2) in Hrun.
    injection Hrun as <- <-. simpl.
    split; [congruence|]. right. exists c, kwargs, cfg2.
    rewrite Hlog2, Hlog1. by split_and!.
  - unfold bind at 1, heap_get in Hrun. rewrite Hkw in Hrun.
    injection Hrun as <- <-. split; [congruence|]. left.
    split; [congruence|eauto].
Qed.

(** X1.  Whatever its arguments and the state it starts in, a call of
    [run_prompt] either raises before anything is sent, or it compiles the
    template once, with the payload that it leaves in the caller's
    dictionary, and then, if the template compiled, calls the inference
    client once, with the configuration in force, which has no
    ["json_schema"] entry by then; a configuration with a ["messages"]
    entry of its own is a [TypeError] instead, and the client is not
    called.  Nothing else is sent, and the value returned is the first
    choice of the response. *)
Theorem run_prompt_calls self input_data config s s' r :
  run_prompt self input_data config s = (s', r) →
  ∃ evs, log s' = log s ++ evs ∧
    (evs = [] ∧ (∃ e, r = inl e) ∨
     ∃ c kwargs cfg,
       select_config self config s = (s, inr c) ∧
       heap s' !! input_data = Some kwargs ∧
       heap s' !! c = Some cfg ∧
       dict_get "json_schema" cfg = None ∧
       match prompt_compile (log s ++ [EvCompile kwargs]) (prompt self) kwargs
       with
       | inl e => evs = [EvCompile kwargs] ∧ r = inl e
       | inr messages =>
           match dict_get "messages" cfg with
           | Some _ =>
               evs = [EvCompile kwargs] ∧
               r = inl (TypeError "got multiple values for keyword argument")
           | None =>
               evs = [EvCompile kwargs; EvChatCreate messages cfg] ∧
               match chat_completions_create (log s ++ evs) messages cfg with
               | inl e => r = inl e
               | inr [] => r = inl IndexError
               | inr (choice :: _) => r = inr choice
               end
           end
       end).
Proof.
  intros Hrun.
  apply run_prompt_inv in Hrun
    as [_ [[Hlog [e ->]]
          |(c & kwargs & cfg & Hsel & Hkw & Hcfg & Hgone & Hlog & ->)]].
  { exists []. rewrite app_nil_r. split; [done|]. left. eauto. }
  eexists. split; [exact Hlog|]. right. exists c, kwargs, cfg.
  split_and!; [done..|]. unfold inference.
  destruct (prompt_compile _ (prompt self) kwargs) as [e|messages]; [done|].
  rewrite keyword_clash_one.
  destruct (dict_get "messages" cfg) as [v|].
  - by rewrite bool_decide_eq_true_2.
  - rewrite bool_decide_eq_false_2 by by intros [? [=]].
    simpl. split; [done|].
    by destruct (chat_completions_create _ messages cfg) as [e|[|choice ?]].
Qed.

(** X2.  When the configuration in force has no ["json_schema"] entry,
    [run_prompt] writes nothing: the payload is compiled as the caller
    gave it and the store is left as it was.  If the template compiles,
    the configuration goes to the inference client as it is, unless it has
    a ["messages"] entry of its own: that is a [TypeError], and the client
    is not called. *)
Theorem run_prompt_without_schema self input_data config s c cfg inp :
  select_config self config s = (s, inr c) →
  heap s !! c = Some cfg →
  dict_get "json_schema" cfg = None →
  heap s !! input_data = Some inp →
  run_prompt self input_data config s =
    (State (heap s) (environ s)
       (log s ++ (inference (prompt self) (log s) inp cfg).1),
     (inference (prompt self) (log s) inp cfg).2).
Proof.
  intros Hsel Hc Hschema Hinp. unfold run_prompt.
  rewrite (bind_ok _ _ _ _ _ Hsel).
  rewrite (bind_ok _ _ _ _ _ (heap_pop_absent _ _ (PDict []) _ _ Hc Hschema)).
  change (truthy (PDict [])) with false. cbv iota.
  change (bind (ret tt) ?k s) with (k tt s). cbv beta.
  by apply inference_tail.
Qed.

(** X3.  A schema entry whose value counts as false (an empty mapping,
    [None], an empty text) is removed from the configuration in force and
    nothing is added to the payload: the template is compiled with the
    payload as given, and, if it compiles, the inference client gets the
    configuration without the entry, unless the configuration has a
    ["messages"] entry of its own: that is a [TypeError], and the client
    is not called. *)
Theorem run_prompt_falsy_schema self input_data config s c cfg v inp :
  select_config self config s = (s, inr c) →
  heap s !! c = Some cfg →
  dict_get "json_schema" cfg = Some v →
  truthy v = false →
  heap s !! input_data = Some inp →
  c ≠ input_data →
  let cfg' := dict_del "json_schema" cfg in
  run_prompt self input_data config s =
    (State (<[c := cfg']> (heap s)) (environ s)
       (log s ++ (inference (prompt self) (log s) inp cfg').1),
     (inference (prompt self) (log s) inp cfg').2).
Proof.
  intros Hsel Hc Hschema Hfalse Hinp Hne cfg'. unfold run_prompt.
  rewrite (bind_ok _ _ _ _ _ Hsel).
  rewrite (bind_ok _ _ _ _ _
             (heap_pop_present _ _ (PDict []) _ _ _ Hc Hschema)).
  rewrite Hfalse. set (s1 := State _ _ _).
  change (bind (ret tt) ?k s1) with (k tt s1). cbv beta.
  rewrite (inference_tail _ _ c s1 inp cfg'); [done| |apply lookup_insert_eq].
  subst s1. simpl. by rewrite lookup_insert_ne.
Qed.

(** X4.  A schema given as a non-empty text or list, not as a mapping,
    makes [run_prompt] raise [AttributeError] on [.items()]: nothing is
    compiled or sent, and the entry has already been removed from the
    configuration in force. *)
Theorem run_prompt_schema_not_mapping self input_data config s c cfg v :
  select_config self config s = (s, inr c) →
  heap s !! c = Some cfg →
  dict_get "json_schema" cfg = Some v →
  (∃ text, v = PStr text) ∨ (∃ xs, v = PList xs) →
  truthy v = true →
  run_prompt self input_data config s =
    (State (<[c := dict_del "json_schema" cfg]> (heap s)) (environ s) (log s),
     inl (AttributeError "items")).
Proof.
  intros Hsel Hc Hschema Hshape Htrue. unfold run_prompt.
  rewrite (bind_ok _ _ _ _ _ Hsel).
  rewrite (bind_ok _ _ _ _ _
             (heap_pop_present _ _ (PDict []) _ _ _ Hc Hschema)).
  rewrite Htrue. by destruct Hshape as [[? ->]|[? ->]].
Qed.

Lemma select_config_override self override s d :
  heap s !! override = Some d → d ≠ [] →
  select_config self (Some override) s = (s, inr override).
Proof.
  intros Hd Hne. unfold select_config.
  rewrite (bind_ok _ _ _ _ _ (heap_get_ok _ _ _ Hd)).
  by destruct d.
Qed.

(** What a call of [run_prompt] does to the store: the configuration in
    force has no schema entry afterwards, and no dictionary other than
    that configuration and the payload is written to. *)
Lemma run_prompt_store self input_data config s c cfg s' r :
  select_config self config s = (s, inr c) →
  heap s !! c = Some cfg →
  run_prompt self input_data config s = (s', r) →
  (∃ cfg', heap s' !! c = Some cfg' ∧ dict_get "json_schema" cfg' = None) ∧
  (∀ l, l ≠ c → l ≠ input_data → heap s' !! l = heap s !! l).
Proof.
  intros Hsel Hc. unfold run_prompt. rewrite (bind_ok _ _ _ _ _ Hsel).
  assert (∀ s2, (∃ cfg', heap s2 !! c = Some cfg' ∧
                   dict_get "json_schema" cfg' = None) →
            (∀ l, l ≠ c → l ≠ input_data → heap s2 !! l = heap s !! l) →
            (kwargs <- heap_get input_data ;;
             messages <- call (EvCompile kwargs)
                           (λ h, prompt_compile h (prompt self) kwargs) ;;
             cfg <- heap_get c ;;
             choices <- call_keywords ["messages"] cfg
                          (EvChatCreate messages cfg)
                          (λ h, chat_completions_create h messages cfg) ;;
             lift (first_choice choices)) s2 = (s', r) →
            (∃ cfg', heap s' !! c = Some cfg' ∧
               dict_get "json_schema" cfg' = None) ∧
            (∀ l, l ≠ c → l ≠ input_data → heap s' !! l = heap s !! l))
    as Htail.
  { intros s2 Hc2 Hframe Hrest.
    assert (heap s' = heap s2) as ->; [|done].
    revert Hrest. apply heap_stable_bind; [apply heap_stable_heap_get|].
    intros kwargs. apply heap_stable_bind; [apply heap_stable_call|].
    intros messages. apply heap_stable_bind; [apply heap_stable_heap_get|].
    intros cfg0. apply heap_stable_bind; [apply heap_stable_call_keywords|].
    intros choices. apply heap_stable_lift. }
  destruct (dict_get "json_schema" cfg) as [v|] eqn:Hschema.
  2:{ rewrite (bind_ok _ _ _ _ _
                 (heap_pop_absent _ _ (PDict []) _ _ Hc Hschema)).
      change (truthy (PDict [])) with false. cbv iota.
      change (bind (ret tt) ?k s) with (k tt s). cbv beta.
      apply Htail; eauto. }
  rewrite (bind_ok _ _ _ _ _
             (heap_pop_present _ _ (PDict []) _ _ _ Hc Hschema)).
  set (s1 := State _ _ _).
  assert ((∃ cfg', heap s1 !! c = Some cfg' ∧
             dict_get "json_schema" cfg' = None) ∧
          (∀ l, l ≠ c → l ≠ input_data → heap s1 !! l = heap s !! l))
    as [Hc1 Hframe1].
  { split.
    - exists (dict_del "json_schema" cfg).
      split; [apply lookup_insert_eq|apply dict_get_del_eq].
    - intros l Hl _. subst s1. simpl. by rewrite lookup_insert_ne. }
  intros Hrun.
  apply bind_inv in Hrun as [(e & Hstep & ->)|([] & s2 & Hstep & Hrest)].
  - destruct (truthy v); [|by injection Hstep as <-].
    unfold bind at 1, lift at 1 in Hstep.
    destruct (py_items v) as [e'|items]; [by injection Hstep as <-|].
    unfold heap_setitem, bind, heap_get, heap_put in Hstep.
    by destruct (heap s1 !! input_data); injection Hstep as <-.
  - revert Hrest. destruct (truthy v); [|injection Hstep as <-; by apply Htail].
    unfold bind at 1, lift at 1 in Hstep.
    destruct (py_items v) as [e'|items]; [done|].
    unfold heap_setitem, bind, heap_get, heap_put in Hstep.
    destruct (heap s1 !! input_data) as [d0|] eqn:Hd0; [|done].
    injection Hstep as <-. apply Htail; simpl.
    + rewrite lookup_insert. case_decide as Hal.
      * subst input_data. destruct Hc1 as (cfg1 & Hc1 & Hgone).
        rewrite Hc1 in Hd0. injection Hd0 as <-. eexists. split; [done|].
        by rewrite dict_get_set_ne.
      * done.
    + intros l Hl Hl'. rewrite lookup_insert_ne by done. by apply Hframe1.
Qed.

(** X5.  A non-empty override that is a dictionary of its own protects
    the prompt's stored configuration: whatever the call returns or
    raises, it is the override that loses its ["json_schema"] entry, and
    the stored configuration is what it was. *)
Theorem run_prompt_override_spares_stored self input_data override s d s' r :
  heap s !! override = Some d → d ≠ [] →
  override ≠ prompt_config (prompt self) →
  input_data ≠ prompt_config (prompt self) →
  run_prompt self input_data (Some override) s = (s', r) →
  heap s' !! prompt_config (prompt self)
    = heap s !! prompt_config (prompt self) ∧
  ∃ d', heap s' !! override = Some d' ∧ dict_get "json_schema" d' = None.
Proof.
  intros Hd Hne Hover Hinput Hrun.
  destruct (run_prompt_store _ _ _ _ _ _ _ _
              (select_config_override self _ _ _ Hd Hne) Hd Hrun)
    as [Hgone Hframe].
  split; [|done]. by apply Hframe.
Qed.

(** X6.  The schema is injected at most once per prompt.  After any call
    of [run_prompt] without an override, whatever it returned or raised,
    the stored configuration has no schema entry; so the next call
    without an override adds nothing to its payload: it compiles the
    payload as given and, if the template compiles, sends the stored
    configuration as it then is, unless that configuration has a
    ["messages"] entry of its own: the call is then a [TypeError], and
    the client is not called. *)
Theorem schema_injected_once self first_input second_input s cfg s1 r1 inp :
  heap s !! prompt_config (prompt self) = Some cfg →
  run_prompt self first_input None s = (s1, r1) →
  heap s1 !! second_input = Some inp →
  ∃ cfg',
    heap s1 !! prompt_config (prompt self) = Some cfg' ∧
    dict_get "json_schema" cfg' = None ∧
    run_prompt self second_input None s1 =
      (State (heap s1) (environ s1)
         (log s1 ++ (inference (prompt self) (log s1) inp cfg').1),
       (inference (prompt self) (log s1) inp cfg').2).
Proof.
  intros Hcfg Hfirst Hinp.
  destruct (run_prompt_store self first_input None s _ cfg s1 r1 eq_refl
              Hcfg Hfirst) as [(cfg' & Hcfg' & Hgone) _].
  exists cfg'. split_and!; [done..|].
  unfold run_prompt, select_config.
  change (bind (ret ?c) ?k s1) with (k c s1). cbv beta.
  rewrite (bind_ok _ _ _ _ _
             (heap_pop_absent _ _ (PDict []) _ _ Hcfg' Hgone)).
  change (truthy (PDict [])) with false. cbv iota.
  change (bind (ret tt) ?k s1) with (k tt s1). cbv beta.
  by apply inference_tail.
Qed.
End run_prompt_sends.

(* ===================================================================== *)
(** * [prompt_app] and the trace of a batch *)
(* ===================================================================== *)


Section batch_trace.
Context {remote : Remote}.

Lemma prompt_app_inv prompt_runner input_data item_id run_name s s' response :
  prompt_app prompt_runner input_data item_id run_name s = (s', inr response) →
  ∃ inp cfg0 model kwargs messages cfg,
    heap s !! input_data = Some inp ∧
    heap s !! prompt_config (prompt prompt_runner) = Some cfg0 ∧
    dict_get "model" cfg0 = Some model ∧
    heap s' !! input_data = Some kwargs ∧
    dict_get "json_schema" cfg = None ∧
    (let generation :=
       EvGeneration (prompt_name (prompt prompt_runner) +:+ "-llm-call") inp
         [("item_id", PStr item_id); ("run", PStr run_name)] model in
     prompt_compile (log s ++ [generation; EvCompile kwargs])
       (prompt prompt_runner) kwargs = inr messages ∧
     (∃ rest,
        chat_completions_create
          (log s ++ [generation; EvCompile kwargs; EvChatCreate messages cfg])
          messages cfg = inr (response :: rest)) ∧
     log s' = log s ++
       [generation; EvCompile kwargs; EvChatCreate messages cfg;
        EvGenerationUpdate response; EvUpdateTrace kwargs response]).
Proof.
  unfold prompt_app. intros Hrun.
  apply bind_inv in Hrun as [(e & _ & [=])|(inp & s1 & Hinp & Hrun)].
  apply heap_get_inv in Hinp as [-> Hinp].
  apply bind_inv in Hrun as [(e & _ & [=])|(cfg0 & s1 & Hcfg0 & Hrun)].
  apply heap_get_inv in Hcfg0 as [-> Hcfg0].
  apply bind_inv in Hrun as [(e & _ & [=])|(model0 & s1 & Hmodel & Hrun)].
  apply lift_inv in Hmodel as [-> Hmodel].
  unfold dict_item in Hmodel.
  destruct (dict_get "model" cfg0) as [model|] eqn:Hm; [|done].
  injection Hmodel as ->.
  apply bind_inv in Hrun as [(e & _ & [=])|([] & s1 & Hgen & Hrun)].
  apply call_inv in Hgen as [-> _].
  apply bind_inv in Hrun as [(e & _ & [=])|(response' & s2 & Hcall & Hrun)].
  apply run_prompt_inv in Hcall
    as [_ [[_ [e [=]]]
          |(c & kwargs & cfg & _ & Hkw & _ & Hgone & Hlog2 & Hr)]].
  unfold inference in Hlog2, Hr. simpl in Hlog2, Hr.
  destruct (prompt_compile _ (prompt prompt_runner) kwargs)
    as [e|messages] eqn:Hcompile; [done|].
  destruct (keyword_clash ["messages"] cfg); [done|].
  simpl in Hlog2, Hr.
  destruct (chat_completions_create _ messages cfg)
    as [e|[|choice rest]] eqn:Hcreate; [done..|].
  injection Hr as ->.
  rewrite <- app_assoc in Hcompile, Hcreate. simpl in Hcompile, Hcreate.
  apply bind_inv in Hrun as [(e & _ & [=])|([] & s3 & Hupd & Hrun)].
  apply call_inv in Hupd as [-> _].
  apply bind_inv in Hrun as [(e & _ & [=])|(inp' & s3 & Hinp' & Hrun)].
  apply heap_get_inv in Hinp' as [-> Hinp']. simpl in Hinp'.
  assert (inp' = kwargs) as -> by congruence.
  apply bind_inv in Hrun as [(e & _ & [=])|([] & s3 & Htrace & Hrun)].
  apply call_inv in Htrace as [-> _].
  injection Hrun as <- <-.
  exists inp, cfg0, model, kwargs, messages, cfg. simpl.
  split_and!; [done..|by exists rest|]. by rewrite Hlog2, <- !app_assoc.
Qed.

(** X7.  [prompt_app] reads the model name from the prompt's stored
    configuration before it starts the generation: when that
    configuration has no ["model"] entry the call raises [KeyError], and
    nothing has been recorded or sent. *)
Theorem prompt_app_requires_model prompt_runner input_data item_id run_name
    s inp cfg :
  heap s !! input_data = Some inp →
  heap s !! prompt_config (prompt prompt_runner) = Some cfg →
  dict_get "model" cfg = None →
  prompt_app prompt_runner input_data item_id run_name s
    = (s, inl (KeyError (PStr "model"))).
Proof.
  intros Hinp Hcfg Hmodel. unfold prompt_app.
  rewrite (bind_ok _ _ _ _ _ (heap_get_ok _ _ _ Hinp)).
  rewrite (bind_ok _ _ _ _ _ (heap_get_ok _ _ _ Hcfg)).
  unfold bind at 1, lift at 1, dict_item. by rewrite Hmodel.
Qed.

(** X8.  A call of [prompt_app] that returns has done five things, in
    this order: started a generation named after the prompt, with the
    payload as it was given, the item id and the run name as metadata and
    the model of the stored configuration; compiled the template; called
    the inference client, with a configuration that has no schema entry;
    recorded the response on the generation; and recorded on the trace
    the response together with the payload as [run_prompt] left it, which
    is the payload that was compiled.  The response is the value
    returned. *)
Theorem prompt_app_records_response prompt_runner input_data item_id
    run_name s s' response :
  prompt_app prompt_runner input_data item_id run_name s = (s', inr response) →
  ∃ inp cfg0 model kwargs messages cfg rest,
    heap s !! input_data = Some inp ∧
    heap s !! prompt_config (prompt prompt_runner) = Some cfg0 ∧
    dict_get "model" cfg0 = Some model ∧
    heap s' !! input_data = Some kwargs ∧
    dict_get "json_schema" cfg = None ∧
    let generation :=
      EvGeneration (prompt_name (prompt prompt_runner) +:+ "-llm-call") inp
        [("item_id", PStr item_id); ("run", PStr run_name)] model in
    chat_completions_create
      (log s ++ [generation; EvCompile kwargs; EvChatCreate messages cfg])
      messages cfg = inr (response :: rest) ∧
    log s' = log s ++
      [generation; EvCompile kwargs; EvChatCreate messages cfg;
       EvGenerationUpdate response; EvUpdateTrace kwargs response].
Proof.
  intros Hrun.
  apply prompt_app_inv in Hrun
    as (inp & cfg0 & model & kwargs & messages & cfg & Hinp & Hcfg0 & Hmodel
        & Hkw & Hgone & _ & [rest Hcreate] & Hlog).
  by exists inp, cfg0, model, kwargs, messages, cfg, rest.
Qed.

Lemma run_item_inv prompt_runner experiment_name evaluator params t item
    s s' :
  run_item prompt_runner experiment_name evaluator params t item s
    = (s', inr tt) →
  ∃ evs, log s' = log s ++ evs ∧
    turn_trace (prompt prompt_runner) experiment_name evaluator params t
      item evs.
Proof.
  unfold run_item. intros Hrun.
  apply bind_inv in Hrun as [(e & _ & [=])|([] & s1 & Hopen & Hrun)].
  apply call_keywords_inv in Hopen as [(_ & _ & [=])|(_ & -> & _)].
  apply bind_inv in Hrun as [(e & _ & [=])|(response & s2 & Happ & Hrun)].
  apply prompt_app_inv in Happ
    as (inp & cfg0 & model & kwargs & messages & cfg & _ & _ & _ & _
        & Hgone & _ & _ & Hlog2).
  simpl in Hlog2.
  apply bind_inv in Hrun as [(e & _ & [=])|([] & s3 & Hev & Hrun)].
  apply sleep_if_positive_inv in Hrun as [_ Hlog'].
  assert (log s3 = log s2 ++ match evaluator with
                             | Some _ => [EvEvaluate response (item_id item)]
                             | None => []
                             end) as Hlog3.
  { destruct evaluator as [ev|].
    - by apply call_inv in Hev as [-> _].
    - injection Hev as <-. by rewrite app_nil_r. }
  eexists. split.
  - rewrite Hlog', Hlog3, Hlog2, <- !app_assoc. reflexivity.
  - exists inp, model, kwargs, messages, cfg, response. by split.
Qed.

Lemma for_each_trace {A} (body : A → M unit) (T : A → list event → Prop) xs :
  (∀ x s s', body x s = (s', inr tt) → ∃ evs, log s' = log s ++ evs ∧ T x evs) →
  ∀ s s', for_each body xs s = (s', inr tt) →
    ∃ turns, Forall2 T xs turns ∧ log s' = log s ++ concat turns.
Proof.
  intros Hbody. induction xs as [|x xs IH]; intros s s'; cbn [for_each].
  { intros [= <-]. exists []. split; [constructor|]. simpl.
    by rewrite app_nil_r. }
  intros Hrun.
  apply bind_inv in Hrun as [(e & _ & [=])|([] & s1 & Hx & Hrun)].
  apply Hbody in Hx as (evs & Hlog1 & Hx).
  apply IH in Hrun as (turns & Hxs & Hlog).
  exists (evs :: turns). split; [by constructor|].
  simpl. by rewrite Hlog, Hlog1, <- app_assoc.
Qed.

(** A run of [run_experiment] that returns has loaded the prompt and the
    dataset, computed the sleep time and gone through the loop. *)
Lemma run_experiment_inv self experiment_name pname dataset_name
    evaluator params test_count requests_per_minute s s' :
  run_experiment self experiment_name pname dataset_name evaluator params
    test_count requests_per_minute s = (s', inr tt) →
  ∃ p dataset t s0,
    get_prompt (log s ++ [EvGetPrompt pname []]) pname [] = inr p ∧
    get_dataset (log s ++ [EvGetPrompt pname []; EvGetDataset dataset_name])
      dataset_name = inr dataset ∧
    sleep_time (default 1000 requests_per_minute) = inr t ∧
    log s0 = log s ++ [EvGetPrompt pname []; EvGetDataset dataset_name] ∧
    for_each
      (run_item {| prompt := p |} experiment_name evaluator params t)
      (slice_to (dataset_items dataset) test_count) s0 = (s', inr tt).
Proof.
  unfold run_experiment. intros Hrun.
  apply bind_inv in Hrun as [(e & _ & [=])|(env_path & s1 & Hself & Hrun)].
  assert (s1 = s) as ->.
  { unfold self_env_path, ret, raise in Hself.
    by destruct (runner_env_path self); simplify_eq. }
  apply bind_inv in Hrun as [(e & _ & [=])|(pr & s2 & Hinit & Hrun)].
  apply PromptRunner_init_inv in Hinit as [[_ [e [=]]]|[Hlog2 Hp]].
  destruct (get_prompt _ pname []) as [e|p] eqn:Hprompt; [done|].
  injection Hp as ->.
  apply bind_inv in Hrun as [(e & _ & [=])|(dataset & s3 & Hds & Hrun)].
  apply call_inv in Hds as [-> Hds]. rewrite Hlog2, <- app_assoc in Hds.
  apply bind_inv in Hrun as [(e & _ & [=])|(t & s4 & Hrate & Hrun)].
  apply lift_inv in Hrate as [-> Hrate].
  exists p, dataset, t. eexists. split_and!; [done..| |exact Hrun].
  simpl. by rewrite Hlog2, <- app_assoc.
Qed.

(** X11.  The whole trace of a batch that ran to its end.  After the
    prompt and the dataset have been loaded, [run_experiment] takes the
    selected items one at a time, in their stored order, each turn being
    complete before the next starts: it opens the item's run context under
    the experiment name, starts a generation, compiles the template and
    calls the inference client exactly once (never with a schema entry in
    the configuration), records the response on the generation and on
    the trace, hands it to the evaluator if there is one, and sleeps if
    the rate asks for it.  Nothing else is sent or recorded. *)
Theorem run_experiment_trace self experiment_name pname dataset_name
    evaluator params test_count requests_per_minute s s' :
  run_experiment self experiment_name pname dataset_name evaluator params
    test_count requests_per_minute s = (s', inr tt) →
  ∃ p dataset t turns,
    get_prompt (log s ++ [EvGetPrompt pname []]) pname [] = inr p ∧
    get_dataset (log s ++ [EvGetPrompt pname []; EvGetDataset dataset_name])
      dataset_name = inr dataset ∧
    sleep_time (default 1000 requests_per_minute) = inr t ∧
    Forall2
      (turn_trace p experiment_name evaluator params t)
      (slice_to (dataset_items dataset) test_count) turns ∧
    log s' = log s
      ++ [EvGetPrompt pname []; EvGetDataset dataset_name] ++ concat turns.
Proof.
  intros Hrun.
  apply run_experiment_inv in Hrun
    as (p & dataset & t & s0 & Hp & Hds & Ht & Hlog0 & Hloop).
  apply (for_each_trace _ _ _ (run_item_inv _ _ _ _ _)) in Hloop
    as (turns & Hturns & Hlog).
  exists p, dataset, t, turns. rewrite Hlog, Hlog0, <- !app_assoc.
  by split_and!.
Qed.
End batch_trace.

(* ===================================================================== *)
(** * Limits that are zero or negative *)
(* ===================================================================== *)

Lemma slice_to_negative {A} (l : list A) (L : Z) :
  L < 0 → slice_to l (Some L) = take (length l - Z.to_nat (- L)) l.
Proof.
  intros HL. unfold slice_to. destruct (0 <=? L) eqn:Hle; [lia|].
  f_equal. lia.
Qed.

Section nonpositive_limit.
Context {remote : Remote}.

(** X10.  [test_count] is a slice bound, not a count: a run of
    [run_experiment] that returns with [test_count = 0] has processed no
    item, and with a negative [test_count = L] it has processed all items
    of the dataset but the last [-L], in their stored order. *)
Theorem run_experiment_nonpositive_limit self experiment_name pname
    dataset_name evaluator params L requests_per_minute s s' :
  L ≤ 0 →
  run_experiment self experiment_name pname dataset_name evaluator params
    (Some L) requests_per_minute s = (s', inr tt) →
  ∃ dataset evs,
    get_dataset (log s ++ [EvGetPrompt pname []; EvGetDataset dataset_name])
      dataset_name = inr dataset ∧
    log s' = log s ++ evs ∧
    let items := dataset_items dataset in
    (L = 0 → item_runs evs = []) ∧
    (L < 0 →
       item_runs evs = item_id <$> take (length items - Z.to_nat (- L)) items).
Proof.
  intros HL Hrun.
  apply run_experiment_log in Hrun
    as [(e & evs & [=] & _)
       |(dataset & t & s0 & Hds & _ & Hlog0 & evs & Hlog & Hs & Hi & Ht)].
  exists dataset, ([EvGetPrompt pname []; EvGetDataset dataset_name] ++ evs).
  rewrite Hlog, Hlog0, <- app_assoc. split_and!; [done..|].
  cbv zeta. split.
  - intros ->. by rewrite item_runs_app, Hi.
  - intros Hneg.
    by rewrite item_runs_app, Hi, item_runs_heads, slice_to_negative.
Qed.
End nonpositive_limit.

(* ===================================================================== *)
(** * [get_dataset_run]: when it returns, and what *)
(* ===================================================================== *)

Lemma environ_get_inv k s s' v :
  environ_get k s = (s', inr v) → s' = s ∧ environ s !! k = Some v.
Proof.
  unfold environ_get. by destruct (environ s !! k); intros [= <- <-].
Qed.

Lemma collect_Forall2 {A B} (body : A → M B) (R : A → B → Prop) xs s s' bs :
  (∀ x s1 s2 b, body x s1 = (s2, inr b) → R x b) →
  collect body xs s = (s', inr bs) → Forall2 R xs bs.
Proof.
  intros Hbody. revert s s' bs. induction xs as [|x xs IH]; intros s s' bs;
    cbn [collect].
  { intros [= _ <-]. constructor. }
  intros Hrun.
  apply bind_inv in Hrun as [(e & _ & [=])|(b & s1 & Hx & Hrun)].
  apply bind_inv in Hrun as [(e & _ & [=])|(bs' & s2 & Hxs & [= _ <-])].
  constructor; [by eapply Hbody|by eapply IH].
Qed.

Lemma collect_ok_length {A B} (body : A → M B) xs s s' bs :
  collect body xs s = (s', inr bs) → length bs = length xs.
Proof.
  revert s s' bs. induction xs as [|x xs IH]; intros s s' bs; cbn [collect].
  { by intros [= _ <-]. }
  intros Hrun.
  apply bind_inv in Hrun as [(e & _ & [=])|(b & s1 & Hx & Hrun)].
  apply bind_inv in Hrun as [(e & _ & [=])|(bs' & s2 & Hxs & [= _ <-])].
  simpl. f_equal. by eapply IH.
Qed.

Lemma collect_ok {A B} (body : A → M B) (I : state → Prop) xs s :
  (∀ x s, x ∈ xs → I s → ∃ s' b, body x s = (s', inr b) ∧ I s') →
  I s →
  ∃ s' bs, collect body xs s = (s', inr bs) ∧ I s' ∧ length bs = length xs.
Proof.
  revert s. induction xs as [|x xs IH]; intros s Hbody HI; cbn [collect].
  { by exists s, []. }
  destruct (Hbody x s) as (s1 & b & Hx & HI1); [by left|done|].
  rewrite (bind_ok _ _ _ _ _ Hx).
  destruct (IH s1) as (s2 & bs & Hxs & HI2 & Hlen); [|done|].
  { intros y s2 Hy. apply Hbody. by right. }
  rewrite (bind_ok _ _ _ _ _ Hxs).
  exists s2, (b :: bs). simpl. by rewrite Hlen.
Qed.

Section fetch.
Context {remote : Remote}.

(** A call of [get_dataset_run] that returns has had the three variables,
    the dataset and an answer of the endpoint; what it returns depends on
    the status of that answer. *)
Lemma get_dataset_run_returns self dataset_name run_name limit
    requests_per_minute trace_info dataset_item_info s s' result :
  get_dataset_run self dataset_name run_name limit requests_per_minute
    trace_info dataset_item_info s = (s', inr result) →
  ∃ host public_key secret_key dataset response,
    environ s !! "LANGFUSE_HOST" = Some host ∧
    environ s !! "LANGFUSE_PUBLIC_KEY" = Some public_key ∧
    environ s !! "LANGFUSE_SECRET_KEY" = Some secret_key ∧
    let url := run_items_url host in
    let params :=
      run_items_params (dataset_id dataset) run_name (default 100 limit) in
    let request := EvHttpGet url (public_key, secret_key) params in
    let s0 := State (heap s) (environ s)
                (log s ++ [EvGetDataset dataset_name; request]) in
    get_dataset (log s ++ [EvGetDataset dataset_name]) dataset_name
      = inr dataset ∧
    requests_get (log s ++ [EvGetDataset dataset_name; request]) url
      (public_key, secret_key) params = inr response ∧
    ((400 ≤ status_code response < 600 ∧ result = None ∧
      s' = State (heap s) (environ s)
             (log s0 ++ [EvPrint (failure_line
                                    (HTTPError (status_message response))
                                    response)])) ∨
     (¬ 400 ≤ status_code response < 600 ∧
      ∃ body data t run_items records,
        response_json response = inr body ∧
        subscript body "data" = inr data ∧
        sleep_time (default 25 requests_per_minute) = inr t ∧
        py_iter data = inr run_items ∧
        collect (fetch_trace (build_item_lookup (dataset_items dataset))
                   (default ["input"; "output"] trace_info)
                   (default [] dataset_item_info) t)
          run_items s0 = (s', inr records) ∧
        result = Some ((λ trace, make_serializable (PDict trace))
                         <$> records))).
Proof.
  unfold get_dataset_run. intros Hrun.
  apply bind_inv in Hrun as [(e & _ & [=])|(host & s1 & Hhost & Hrun)].
  apply environ_get_inv in Hhost as [-> Hhost].
  apply bind_inv in Hrun as [(e & _ & [=])|(dataset & s1 & Hds & Hrun)].
  apply call_inv in Hds as [-> Hds].
  apply bind_inv in Hrun as [(e & _ & [=])|(public_key & s1 & Hpk & Hrun)].
  apply environ_get_inv in Hpk as [-> Hpk].
  apply bind_inv in Hrun as [(e & _ & [=])|(secret_key & s1 & Hsk & Hrun)].
  apply environ_get_inv in Hsk as [-> Hsk].
  apply bind_inv in Hrun as [(e & _ & [=])|(response & s1 & Hget & Hrun)].
  apply call_inv in Hget as [-> Hget].
  simpl in Hpk, Hsk, Hget. rewrite <- app_assoc in Hget. simpl in Hget.
  exists host, public_key, secret_key, dataset, response.
  split_and!; [done..|].
  apply bind_inv in Hrun as [(e & _ & [=])|(ok & s1 & Hstatus & Hrun)].
  unfold try_except, bind at 1, raise_for_status in Hstatus.
  case_bool_decide as Hcode;
    unfold raise, ret, bind, emit in Hstatus; simpl in Hstatus.
  - left. injection Hstatus as Hs1 Hok. subst s1 ok.
    injection Hrun as Hs' Hres. subst s' result.
    split; [done|]. split; [done|]. simpl. by rewrite <- !app_assoc.
  - right. injection Hstatus as Hs1 Hok. subst s1 ok. split; [done|].
    apply bind_inv in Hrun as [(e & _ & [=])|(body & s1 & Hbody & Hrun)].
    apply lift_inv in Hbody as [-> Hbody].
    apply bind_inv in Hrun as [(e & _ & [=])|(data & s1 & Hdata & Hrun)].
    apply lift_inv in Hdata as [-> Hdata].
    apply bind_inv in Hrun as [(e & _ & [=])|(t & s1 & Hrate & Hrun)].
    apply lift_inv in Hrate as [-> Hrate].
    apply bind_inv in Hrun as [(e & _ & [=])|(run_items & s1 & Hiter & Hrun)].
    apply lift_inv in Hiter as [-> Hiter].
    apply bind_inv in Hrun as [(e & _ & [=])|(records & s1 & Hloop & Hrun)].
    injection Hrun as Hs' Hres. subst s' result.
    exists body, data, t, run_items, records. simpl in Hloop.
    rewrite <- app_assoc in Hloop. by split_and!.
Qed.

(** X14.  [get_dataset_run] returns [None] in one case only: the three
    variables were set, the dataset was loaded, the run-items endpoint
    answered, and its status was an HTTP error (4xx or 5xx).  One line
    has then been printed and no trace has been fetched.  Every other
    failure is raised. *)
Theorem None_only_after_http_error self dataset_name run_name limit
    requests_per_minute trace_info dataset_item_info s s' :
  get_dataset_run self dataset_name run_name limit requests_per_minute
    trace_info dataset_item_info s = (s', inr None) →
  ∃ host public_key secret_key dataset response,
    environ s !! "LANGFUSE_HOST" = Some host ∧
    environ s !! "LANGFUSE_PUBLIC_KEY" = Some public_key ∧
    environ s !! "LANGFUSE_SECRET_KEY" = Some secret_key ∧
    let url := run_items_url host in
    let params :=
      run_items_params (dataset_id dataset) run_name (default 100 limit) in
    let request := EvHttpGet url (public_key, secret_key) params in
    get_dataset (log s ++ [EvGetDataset dataset_name]) dataset_name
      = inr dataset ∧
    requests_get (log s ++ [EvGetDataset dataset_name; request]) url
      (public_key, secret_key) params = inr response ∧
    400 ≤ status_code response < 600 ∧
    heap s' = heap s ∧
    log s' = log s ++
      [EvGetDataset dataset_name; request;
       EvPrint (failure_line (HTTPError (status_message response)) response)].
Proof.
  intros Hrun.
  apply get_dataset_run_returns in Hrun
    as (host & public_key & secret_key & dataset & response & Hhost & Hpk
        & Hsk & Hds & Hget & Hcase).
  exists host, public_key, secret_key, dataset, response.
  destruct Hcase
    as [(Hcode & _ & ->)|(_ & ? & ? & ? & ? & ? & _ & _ & _ & _ & _ & [=])].
  cbv zeta. do 7 (split; [done|]). simpl. by rewrite <- !app_assoc.
Qed.

Lemma item_object_inv item s s' object :
  item_object item s = (s', inr object) →
  s' = s ∧
  ∃ inp, heap s !! item_input item = Some inp ∧
    object = item_fields_object item inp.
Proof.
  unfold item_object. intros Hrun.
  apply bind_inv in Hrun as [(e & _ & [=])|(inp & s1 & Hinp & [= <- <-])].
  apply heap_get_inv in Hinp as [-> Hinp]. eauto.
Qed.

(** One completed turn of the loop of [get_dataset_run]: what was read,
    the merge that was appended, and the state it leaves, in which the one
    event of the fetch is followed by the sleep and the store is as it
    was. *)
Lemma fetch_trace_returns item_lookup trace_info dataset_item_info t run_item
    s s' record :
  fetch_trace item_lookup trace_info dataset_item_info t run_item s
    = (s', inr record) →
  ∃ trace_id trace metadata key item inp,
    subscript run_item "traceId" = inr trace_id ∧
    trace_get (log s ++ [EvTraceGet trace_id]) trace_id = inr trace ∧
    getattr_strict trace "metadata" = inr metadata ∧
    subscript metadata "dataset_item_id" = inr key ∧
    lookup_item item_lookup key = inr item ∧
    heap s !! item_input item = Some inp ∧
    record = combine trace (item_fields_object item inp) trace_info
               dataset_item_info ∧
    s' = State (heap s) (environ s)
           (log s ++ [EvTraceGet trace_id] ++ (EvSleep <$> turn_sleeps t)).
Proof.
  unfold fetch_trace. intros Hrun.
  apply bind_inv in Hrun as [(e & _ & [=])|(trace_id & s1 & Hid & Hrun)].
  apply lift_inv in Hid as [-> Hid].
  apply bind_inv in Hrun as [(e & _ & [=])|(trace & s1 & Hcall & Hrun)].
  apply call_inv in Hcall as [-> Hans].
  apply bind_inv in Hrun as [(e & _ & [=])|(metadata & s1 & Hmeta & Hrun)].
  apply lift_inv in Hmeta as [-> Hmeta].
  apply bind_inv in Hrun as [(e & _ & [=])|(key & s1 & Hkey & Hrun)].
  apply lift_inv in Hkey as [-> Hkey].
  apply bind_inv in Hrun as [(e & _ & [=])|(item & s1 & Hitem & Hrun)].
  apply lift_inv in Hitem as [-> Hitem].
  apply bind_inv in Hrun as [(e & _ & [=])|(object & s1 & Hobj & Hrun)].
  apply item_object_inv in Hobj as (-> & inp & Hinp & ->).
  apply bind_inv in Hrun as [(e & _ & [=])|([] & s1 & Hsleep & Hrun)].
  injection Hrun as <- <-.
  exists trace_id, trace, metadata, key, item, inp.
  split_and!; [done..|].
  unfold sleep_if_positive, turn_sleeps, sleep, emit, ret in *.
  destruct (Qlt_le_dec 0 t); injection Hsleep as <-; simpl.
  - by rewrite <- app_assoc.
  - done.
Qed.

(** A completed loop: the records, in the order of the run items, and the
    events, turn after turn. *)
Lemma collect_fetch_trace item_lookup trace_info dataset_item_info t
    run_items s s' records :
  collect (fetch_trace item_lookup trace_info dataset_item_info t) run_items s
    = (s', inr records) →
  records_of item_lookup (heap s) trace_info dataset_item_info t (log s)
    run_items ((λ trace, make_serializable (PDict trace)) <$> records) ∧
  heap s' = heap s ∧
  ∃ turns,
    log s' = log s ++ concat turns ∧
    Forall2 (λ run_item turn,
               ∃ trace_id, subscript run_item "traceId" = inr trace_id ∧
                 turn = EvTraceGet trace_id :: (EvSleep <$> turn_sleeps t))
      run_items turns.
Proof.
  revert s s' records.
  induction run_items as [|x xs IH]; intros s s' records; cbn [collect].
  { intros [= <- <-]. split_and!; [done..|]. exists [].
    split; [by rewrite app_nil_r|constructor]. }
  intros Hrun.
  apply bind_inv in Hrun as [(e & _ & [=])|(b & s1 & Hx & Hrun)].
  apply bind_inv in Hrun as [(e & _ & [=])|(bs & s2 & Hxs & [= <- <-])].
  apply fetch_trace_returns in Hx
    as (trace_id & trace & metadata & key & item & inp & Hid & Htrace & Hmeta
        & Hkey & Hitem & Hinp & -> & ->).
  apply IH in Hxs as (Hrecords & Hheap & turns & Hlog & Hturns).
  simpl in Hrecords, Hheap, Hlog. split_and!; [|done|].
  - simpl. by exists trace_id, trace, metadata, key, item, inp.
  - exists ((EvTraceGet trace_id :: (EvSleep <$> turn_sleeps t)) :: turns).
    split.
    + rewrite Hlog. simpl. by rewrite <- app_assoc.
    + constructor; [by exists trace_id|done].
Qed.

(** X15.  The list that [get_dataset_run] returns follows the run items
    of the response, one record per run item and in the same order.  The
    record of a run item is the serialized merge of the requested fields
    of the trace that was fetched, at that point of the run, under the
    [traceId] of that run item, and of the dataset item that the lookup
    holds under the id recorded in the metadata of that trace, read with
    the input payload that the item has in the store. *)
Theorem records_follow_run_items self dataset_name run_name limit
    requests_per_minute trace_info dataset_item_info s s' records :
  get_dataset_run self dataset_name run_name limit requests_per_minute
    trace_info dataset_item_info s = (s', inr (Some records)) →
  ∃ dataset run_items t s0,
    reaches_loop s dataset_name run_name limit dataset run_items s0 ∧
    sleep_time (default 25 requests_per_minute) = inr t ∧
    records_of (build_item_lookup (dataset_items dataset)) (heap s)
      (default ["input"; "output"] trace_info)
      (default [] dataset_item_info) t (log s0) run_items records.
Proof.
  intros Hrun.
  apply get_dataset_run_returns in Hrun
    as (host & public_key & secret_key & dataset & response & Hhost & Hpk
        & Hsk & Hds & Hget & Hcase).
  destruct Hcase
    as [(_ & [=] & _)
       |(Hcode & body & data & t & run_items & recs & Hbody & Hdata & Hrate
         & Hiter & Hloop & [= ->])].
  exists dataset, run_items, t. eexists. split.
  { exists host, public_key, secret_key, response, body, data.
    split_and!; [done..|]. cbv zeta. split_and!; [done..|reflexivity]. }
  split; [done|].
  by apply collect_fetch_trace in Hloop as [Hrecords _].
Qed.

Lemma fetch_trace_ok item_lookup trace_info dataset_item_info t run_item s :
  resolvable item_lookup (heap s) run_item →
  ∃ s' record,
    fetch_trace item_lookup trace_info dataset_item_info t run_item s
      = (s', inr record) ∧ heap s' = heap s.
Proof.
  intros (trace_id & trace & metadata & k & item & Hid & Hget & Hmeta & Hkey
          & Hitem & [inp Hinp]).
  unfold fetch_trace.
  erewrite bind_ok by (unfold lift; rewrite Hid; reflexivity).
  erewrite bind_ok by (rewrite call_eq, Hget; reflexivity).
  erewrite bind_ok by (unfold lift; rewrite Hmeta; reflexivity).
  erewrite bind_ok by (unfold lift; rewrite Hkey; reflexivity).
  erewrite bind_ok by (unfold lift, lookup_item; rewrite Hitem; reflexivity).
  erewrite bind_ok.
  2:{ unfold item_object. erewrite bind_ok by by apply heap_get_ok.
      reflexivity. }
  unfold sleep_if_positive, sleep, emit, bind, ret.
  destruct (Qlt_le_dec 0 t); by eexists _, _.
Qed.

(** X16.  When the request has gone through, the rate is below the limit
    of the float conversion, and every run item of the response can be
    resolved (it names a trace, the trace is there, and the item id that
    the trace records is in the lookup), [get_dataset_run] returns a list,
    with one record per run item. *)
Theorem get_dataset_run_completes self dataset_name run_name limit
    requests_per_minute trace_info dataset_item_info s dataset run_items s0 :
  reaches_loop s dataset_name run_name limit dataset run_items s0 →
  default 25 requests_per_minute < float_limit →
  Forall (resolvable (build_item_lookup (dataset_items dataset)) (heap s))
    run_items →
  ∃ s' records,
    get_dataset_run self dataset_name run_name limit requests_per_minute
      trace_info dataset_item_info s = (s', inr (Some records)) ∧
    length records = length run_items.
Proof.
  intros Hreach Hrate Hall.
  pose proof (sleep_time_value _ Hrate) as Hvalue.
  destruct (sleep_time (default 25 requests_per_minute)) as [?|t] eqn:Ht;
    [done|]. clear Hvalue.
  rewrite (get_dataset_run_loop _ _ _ _ _ _ _ _ _ _ _ _ Hreach Ht).
  assert (heap s0 = heap s) as Hheap.
  { destruct Hreach as (? & ? & ? & ? & ? & ? & _ & _ & _ & H).
    cbv zeta in H. by destruct H as (_ & _ & _ & _ & _ & _ & ->). }
  destruct (collect_ok
              (fetch_trace (build_item_lookup (dataset_items dataset))
                 (default ["input"; "output"] trace_info)
                 (default [] dataset_item_info) t)
              (λ s1, heap s1 = heap s) run_items s0)
    as (s' & recs & Hloop & _ & Hlen); [|done|].
  { intros x s1 Hx Hs1. rewrite Forall_forall in Hall.
    specialize (Hall x Hx). rewrite <- Hs1 in Hall.
    destruct (fetch_trace_ok _ (default ["input"; "output"] trace_info)
                (default [] dataset_item_info) t _ _ Hall)
      as (s2 & record & Hrun & Hheap2).
    exists s2, record. split; [done|congruence]. }
  rewrite Hloop. eexists _, _. split; [reflexivity|].
  by rewrite length_fmap.
Qed.

(** X17.  [get_dataset_run] reads the three variables from the
    environment itself, at the time of the call: without [LANGFUSE_HOST]
    it raises [KeyError] before anything is sent; with the host but
    without one of the two keys it raises [KeyError] after the dataset has
    been loaded, and the run-items request is not sent. *)
Theorem get_dataset_run_needs_environment self dataset_name run_name limit
    requests_per_minute trace_info dataset_item_info s :
  (environ s !! "LANGFUSE_HOST" = None →
   get_dataset_run self dataset_name run_name limit requests_per_minute
     trace_info dataset_item_info s
     = (s, inl (KeyError (PStr "LANGFUSE_HOST")))) ∧
  (∀ host dataset missing,
     environ s !! "LANGFUSE_HOST" = Some host →
     get_dataset (log s ++ [EvGetDataset dataset_name]) dataset_name
       = inr dataset →
     (environ s !! "LANGFUSE_PUBLIC_KEY" = None ∧
      missing = "LANGFUSE_PUBLIC_KEY") ∨
     (is_Some (environ s !! "LANGFUSE_PUBLIC_KEY") ∧
      environ s !! "LANGFUSE_SECRET_KEY" = None ∧
      missing = "LANGFUSE_SECRET_KEY") →
     get_dataset_run self dataset_name run_name limit requests_per_minute
       trace_info dataset_item_info s
       = (State (heap s) (environ s) (log s ++ [EvGetDataset dataset_name]),
          inl (KeyError (PStr missing)))).
Proof.
  split.
  - intros Hhost. unfold get_dataset_run, bind at 1, environ_get at 1.
    by rewrite Hhost.
  - intros host dataset missing Hhost Hds Hmissing. unfold get_dataset_run.
    erewrite bind_ok by by apply environ_get_ok.
    erewrite bind_ok by (rewrite call_eq, Hds; reflexivity).
    destruct Hmissing as [[Hpk ->]|([pk Hpk] & Hsk & ->)].
    + unfold bind at 1, environ_get at 1. simpl. by rewrite Hpk.
    + erewrite bind_ok by by apply environ_get_ok.
      unfold bind at 1, environ_get at 1. simpl. by rewrite Hsk.
Qed.
End fetch.

(* ===================================================================== *)
(** * The lookup, the fields of a record, the fixed points *)
(* ===================================================================== *)

(** X18.  The lookup that [get_dataset_run] builds from the items of the
    dataset finds, under an id, the last item of the list that has this
    id.  So when the ids are pairwise distinct every item is found under
    its own id, and an id that no item has is a [KeyError]. *)
Theorem item_lookup_last_wins items :
  (∀ k, build_item_lookup items !! k
          = last (filter (λ item, item_id item = k) items)) ∧
  (NoDup (item_id <$> items) →
   ∀ item, item ∈ items →
     lookup_item (build_item_lookup items) (PStr (item_id item)) = inr item) ∧
  (∀ k, k ∉ item_id <$> items →
     lookup_item (build_item_lookup items) (PStr k) = inl (KeyError (PStr k))).
Proof.
  assert (∀ k, build_item_lookup items !! k
                 = last (filter (λ item, item_id item = k) items)) as Hlast.
  { intros k. unfold build_item_lookup.
    induction items as [|item items IH] using rev_ind; [done|].
    rewrite foldl_app, filter_app. simpl. rewrite filter_cons, filter_nil.
    destruct (decide (item_id item = k)) as [<-|Hne].
    - by rewrite lookup_insert_eq, last_snoc.
    - by rewrite lookup_insert_ne, app_nil_r. }
  split_and!; [done| |].
  - intros Hnd item Hitem. unfold lookup_item.
    assert (build_item_lookup items !! item_id item = Some item) as ->; [|done].
    clear Hlast. unfold build_item_lookup.
    induction items as [|x items IH] using rev_ind;
      [by apply elem_of_nil in Hitem|].
    rewrite fmap_app in Hnd. apply NoDup_app in Hnd as (Hnd & Hdisj & _).
    rewrite foldl_app. simpl.
    apply elem_of_app in Hitem as [Hitem|Hitem%list_elem_of_singleton].
    + rewrite lookup_insert_ne; [by apply IH|].
      intros Heq. apply (Hdisj (item_id item)).
      * by apply list_elem_of_fmap_2.
      * rewrite <- Heq. by left.
    + subst x. apply lookup_insert_eq.
  - intros k Hk. unfold lookup_item. by rewrite build_item_lookup_None.
Qed.

(** X19.  The keys of a merged record are the requested names and no
    others, each once; a name requested from the trace only is bound to
    the trace's value; and serialization keeps the keys. *)
Theorem record_fields_exact trace item trace_info dataset_item_info :
  let record := combine trace item trace_info dataset_item_info in
  (∀ attr, is_Some (dict_get attr record)
           ↔ attr ∈ trace_info ∨ attr ∈ dataset_item_info) ∧
  (∀ attr, attr ∈ trace_info → attr ∉ dataset_item_info →
     dict_get attr record = Some (getattr trace attr PNone)) ∧
  NoDup (dict_keys record) ∧
  ∃ kvs, make_serializable (PDict record) = PDict kvs ∧
    dict_keys kvs = dict_keys record.
Proof.
  cbv zeta. split_and!.
  - intros attr. rewrite dict_get_combine.
    repeat case_decide; split; try (intros [? [=]]); eauto;
      by intros [?|?].
  - intros attr Hin Hnin.
    by rewrite dict_get_combine, decide_False, decide_True.
  - apply dict_merge_keys_NoDup, project_keys_NoDup.
  - eexists. split; [reflexivity|].
    unfold dict_keys. rewrite <- list_fmap_compose. done.
Qed.

(** X20.  The values that [make_serializable] returns unchanged are the
    trees made of mappings, sequences, text and binary leaves, and no
    others. *)
Theorem make_serializable_fixed_iff_plain obj :
  make_serializable obj = obj ↔ plain_tree obj = true.
Proof.
  split.
  - intros <-. apply make_serializable_plain.
  - apply make_serializable_fixed.
Qed.

(* ===================================================================== *)
(** * The constructors and the environment *)
(* ===================================================================== *)

Lemma for_each_environ_refresh keys s :
  for_each environ_refresh keys s =
    (s, if bool_decide (Forall (λ k, is_Some (environ s !! k)) keys)
        then inr tt else inl (TypeError "str expected, not NoneType")).
Proof.
  destruct s as [σ env l]. simpl.
  induction keys as [|k keys IH]; cbn [for_each].
  { by rewrite bool_decide_eq_true_2 by constructor. }
  unfold bind. unfold environ_refresh at 1. simpl.
  destruct (env !! k) as [v|] eqn:Hk.
  - rewrite insert_id by done. rewrite IH. f_equal.
    repeat case_bool_decide; try done.
    + exfalso. match goal with H : ¬ _ |- _ => apply H end.
      constructor; [by eexists|done].
    + exfalso. match goal with H : ¬ _ |- _ => apply H end.
      by eapply Forall_inv_tail.
  - rewrite bool_decide_eq_false_2; [done|].
    intros [Hsome _]%Forall_cons. rewrite Hk in Hsome. by destruct Hsome.
Qed.

Section constructors.
Context {remote : Remote}.

Lemma load_env_path path keys s :
  path ≠ EmptyString →
  load_env (Some path) keys s =
    (State (heap s) (load_dotenv path (environ s)) (log s),
     if bool_decide (Forall (λ k, is_Some (load_dotenv path (environ s) !! k))
                       keys)
     then inr tt else inl (TypeError "str expected, not NoneType")).
Proof.
  intros Hpath. unfold load_env.
  assert (truthy (PStr path) = true) as ->.
  { simpl. by destruct path. }
  unfold bind at 1. by rewrite for_each_environ_refresh.
Qed.

(** X21.  A constructor that is given a non-empty [env_path] loads the
    file and then insists on its variables: the three Langfuse variables
    for [PromptGenerator] and [DatasetGenerator], these and
    [OPENAI_API_KEY] for [ExperimentRunner].  If one of them is still
    unset after loading, the constructor raises [TypeError]; otherwise it
    returns, the environment being the loaded one.  Given no path, or an
    empty one, it reads and checks nothing. *)
Theorem constructors_check_environment path s :
  path ≠ EmptyString →
  let env := load_dotenv path (environ s) in
  let loaded := State (heap s) env (log s) in
  let outcome (keys : list string) : exn + unit :=
    if bool_decide (Forall (λ k, is_Some (env !! k)) keys)
    then inr tt else inl (TypeError "str expected, not NoneType") in
  let langfuse :=
    ["LANGFUSE_PUBLIC_KEY"; "LANGFUSE_SECRET_KEY"; "LANGFUSE_HOST"] in
  PromptGenerator_init (Some path) s = (loaded, outcome langfuse) ∧
  DatasetGenerator_init (Some path) s = (loaded, outcome langfuse) ∧
  ExperimentRunner_init (Some path) s =
    (loaded,
     match outcome (langfuse ++ ["OPENAI_API_KEY"]) with
     | inr _ => inr {| runner_env_path := None |}
     | inl e => inl e
     end) ∧
  (∀ env_path, env_path = None ∨ env_path = Some EmptyString →
     PromptGenerator_init env_path s = (s, inr tt) ∧
     DatasetGenerator_init env_path s = (s, inr tt) ∧
     ExperimentRunner_init env_path s
       = (s, inr {| runner_env_path := None |})).
Proof.
  intros Hpath. cbv zeta. split_and!.
  - by apply load_env_path.
  - by apply load_env_path.
  - unfold ExperimentRunner_init, bind. rewrite load_env_path by done.
    simpl. by case_bool_decide.
  - by intros ? [->| ->].
Qed.

(** X22.  [PromptRunner.__init__], given a non-empty [env_path], checks
    its four variables before it asks for the prompt: if one of them is
    still unset after loading the file it raises [TypeError] and the
    prompt is not requested.  Otherwise it requests the prompt once, under
    the given name and with the extra keyword arguments; the runner holds
    the prompt that is returned, and an exception of the request is
    passed on. *)
Theorem PromptRunner_init_outcome name path kwargs s :
  path ≠ EmptyString →
  let env := load_dotenv path (environ s) in
  let request := EvGetPrompt name kwargs in
  PromptRunner_init name (Some path) kwargs s =
    if bool_decide
         (Forall (λ k, is_Some (env !! k))
            ["LANGFUSE_PUBLIC_KEY"; "LANGFUSE_SECRET_KEY"; "LANGFUSE_HOST";
             "OPENAI_API_KEY"])
    then (State (heap s) env (log s ++ [request]),
          match get_prompt (log s ++ [request]) name kwargs with
          | inr p => inr {| prompt := p |}
          | inl e => inl e
          end)
    else (State (heap s) env (log s),
          inl (TypeError "str expected, not NoneType")).
Proof.
  intros Hpath. cbv zeta.
  unfold PromptRunner_init, bind at 1. rewrite load_env_path by done.
  case_bool_decide as Hkeys; [|done].
  assert (is_Some (load_dotenv path (environ s) !! "OPENAI_API_KEY"))
    as [key Hkey].
  { rewrite Forall_forall in Hkeys. apply Hkeys. do 3 right. by left. }
  unfold bind, OpenAI, call, emit, ask, ret. simpl. rewrite Hkey.
  by destruct (get_prompt _ name kwargs).
Qed.
End constructors.

(* ===================================================================== *)
(** * The registrars *)
(* ===================================================================== *)

Section registrars.
Context {store : Store}.

Lemma keyword_call_ok fixed kwargs c h :
  Forall (λ k, k ∉ dict_keys kwargs) fixed →
  keyword_call fixed kwargs c h = (h ++ [c], store_answer (h ++ [c])).
Proof.
  intros Hfree. unfold keyword_call, keyword_clash.
  rewrite bool_decide_eq_false_2; [done|].
  intros Hclash. apply Exists_exists in Hclash as (k & Hk & Hfixed).
  rewrite Forall_forall in Hfree. by apply (Hfree k).
Qed.

Lemma keyword_call_clash fixed kwargs c h k :
  k ∈ fixed → k ∈ dict_keys kwargs →
  keyword_call fixed kwargs c h
    = (h, inl (TypeError "got multiple values for keyword argument")).
Proof.
  intros Hfixed Hk. unfold keyword_call, keyword_clash.
  rewrite bool_decide_eq_true_2; [done|].
  apply Exists_exists. by exists k.
Qed.

Lemma keyword_call_inv fixed kwargs c h h' r :
  keyword_call fixed kwargs c h = (h', r) →
  (h' = h ∧ ∃ e, r = inl e) ∨ (h' = h ++ [c] ∧ r = store_answer (h ++ [c])).
Proof.
  unfold keyword_call. destruct (keyword_clash fixed kwargs).
  - intros [= <- <-]. left. eauto.
  - intros [= <- <-]. by right.
Qed.

Lemma wbind_inv {A B} (m : W A) (k : A → W B) h h' r :
  wbind m k h = (h', r) →
  (∃ e, m h = (h', inl e) ∧ r = inl e) ∨
  (∃ a h1, m h = (h1, inr a) ∧ k a h1 = (h', r)).
Proof.
  unfold wbind. destruct (m h) as [h1 [e|a]]; intros Heq.
  - left. exists e. by simplify_eq.
  - right. by exists a, h1.
Qed.

Lemma weach_items_inv dataset_name items h h' r :
  weach (create_dataset_item dataset_name) items h = (h', r) →
  ∃ calls, h' = h ++ calls ∧
    calls `prefix_of` (CreateDatasetItem dataset_name <$> items) ∧
    (r = inr tt → calls = CreateDatasetItem dataset_name <$> items).
Proof.
  revert h. induction items as [|item items IH]; intros h; cbn [weach].
  { intros [= <- <-]. exists []. by rewrite app_nil_r. }
  intros Hrun.
  apply wbind_inv in Hrun as [(e & Hx & ->)|([] & h1 & Hx & Hrun)];
    apply keyword_call_inv in Hx as [[-> He]|[-> Hans]].
  - exists []. rewrite app_nil_r. split_and!; [done| |done].
    apply prefix_nil.
  - exists [CreateDatasetItem dataset_name item].
    split_and!; [done| |done].
    rewrite fmap_cons. apply (prefix_app [_] [] _), prefix_nil.
  - by destruct He.
  - apply IH in Hrun as (calls & -> & Hpre & Hall).
    exists (CreateDatasetItem dataset_name item :: calls).
    rewrite <- app_assoc. split_and!; [done| |].
    + rewrite fmap_cons. by apply prefix_cons.
    + intros Hr. rewrite fmap_cons. f_equal. by apply Hall.
Qed.

Lemma weach_items_ok dataset_name items h :
  Forall (λ item, "dataset_name" ∉ dict_keys item) items →
  (∀ calls, calls ≠ [] →
     calls `prefix_of` (CreateDatasetItem dataset_name <$> items) →
     store_answer (h ++ calls) = inr tt) →
  weach (create_dataset_item dataset_name) items h
    = (h ++ (CreateDatasetItem dataset_name <$> items), inr tt).
Proof.
  revert h. induction items as [|item items IH]; intros h Hfree Hstore;
    cbn [weach].
  { by rewrite app_nil_r. }
  apply Forall_cons in Hfree as [Hitem Hfree].
  unfold wbind, create_dataset_item.
  rewrite keyword_call_ok by by apply Forall_singleton.
  rewrite (Hstore [CreateDatasetItem dataset_name item]); [|done|].
  2:{ rewrite fmap_cons. apply (prefix_app [_] [] _), prefix_nil. }
  fold (create_dataset_item dataset_name).
  rewrite IH; [by rewrite fmap_cons, <- app_assoc|done|].
  intros calls Hne Hpre. rewrite <- app_assoc. apply Hstore; [done|].
  rewrite fmap_cons. by apply prefix_cons.
Qed.

(** X23.  When no parameter clashes with a keyword that the code writes
    out ([name] for the dataset, [dataset_name] for an item) and the
    store accepts each call, [generate_dataset] returns, having created
    the dataset first and then one item per element of [data], in the
    order of [data]; with [data] left out it creates the dataset only. *)
Theorem generate_dataset_completes dataset_name dataset_params data h :
  "name" ∉ dict_keys dataset_params →
  Forall (λ item, "dataset_name" ∉ dict_keys item) (default [] data) →
  (∀ calls, calls ≠ [] →
     calls `prefix_of` dataset_calls dataset_name dataset_params data →
     store_answer (h ++ calls) = inr tt) →
  generate_dataset dataset_name dataset_params data h
    = (h ++ dataset_calls dataset_name dataset_params data, inr tt).
Proof.
  intros Hname Hfree Hstore. unfold generate_dataset, wbind, dataset_calls.
  rewrite keyword_call_ok by by apply Forall_singleton.
  rewrite (Hstore [CreateDataset dataset_name dataset_params]); [|done|].
  2:{ apply (prefix_app [_] [] _), prefix_nil. }
  destruct data as [items|]; simpl; [|done].
  rewrite weach_items_ok; [by rewrite <- app_assoc|done|].
  intros calls Hne Hpre. rewrite <- app_assoc. apply Hstore; [done|].
  by apply (prefix_app [_]).
Qed.

(** X24.  [generate_dataset] creates the items one by one and stops at
    the first that fails, whether the store rejects it or the item has a
    [dataset_name] entry of its own (a [TypeError], raised before the
    call): the exception is passed on, the dataset and the items before
    the failing one stay created, and the items after it are not sent. *)
Theorem generate_dataset_stops_at_failure dataset_name dataset_params
    before bad after h :
  "name" ∉ dict_keys dataset_params →
  Forall (λ item, "dataset_name" ∉ dict_keys item) before →
  let created := dataset_calls dataset_name dataset_params (Some before) in
  (∀ calls, calls ≠ [] → calls `prefix_of` created →
     store_answer (h ++ calls) = inr tt) →
  let run :=
    generate_dataset dataset_name dataset_params
      (Some (before ++ bad :: after)) h in
  let attempt := CreateDatasetItem dataset_name bad in
  ("dataset_name" ∈ dict_keys bad →
   run = (h ++ created,
          inl (TypeError "got multiple values for keyword argument"))) ∧
  (∀ e, "dataset_name" ∉ dict_keys bad →
     store_answer (h ++ created ++ [attempt]) = inl e →
     run = (h ++ created ++ [attempt], inl e)).
Proof.
  intros Hname Hfree created Hstore run attempt.
  assert (∀ r h', create_dataset_item dataset_name bad (h ++ created)
                    = (h', inl r) → run = (h', inl r)) as Hstop.
  { intros r h' Hbad. subst run. unfold generate_dataset, wbind at 1.
    rewrite keyword_call_ok by by apply Forall_singleton.
    rewrite (Hstore [CreateDataset dataset_name dataset_params]); [|done|].
    2:{ apply (prefix_app [_] [] _), prefix_nil. }
    clear Hname. subst created. unfold dataset_calls in *. simpl in *.
    change (h ++ CreateDataset dataset_name dataset_params
              :: (CreateDatasetItem dataset_name <$> before))
      with (h ++ [CreateDataset dataset_name dataset_params]
              ++ (CreateDatasetItem dataset_name <$> before)) in Hbad.
    rewrite app_assoc in Hbad.
    assert (∀ calls, calls ≠ [] →
              calls `prefix_of` (CreateDatasetItem dataset_name <$> before) →
              store_answer ((h ++ [CreateDataset dataset_name dataset_params])
                              ++ calls) = inr tt) as Hstore'.
    { intros calls Hne Hpre. rewrite <- app_assoc. apply Hstore; [done|].
      by apply (prefix_app [_]). }
    clear Hstore. revert Hbad Hstore'.
    generalize (h ++ [CreateDataset dataset_name dataset_params]).
    induction before as [|item before IH]; intros h0 Hbad Hstore; cbn [weach app].
    - simpl in Hbad. rewrite app_nil_r in Hbad.
      unfold wbind. by rewrite Hbad.
    - apply Forall_cons in Hfree as [Hitem Hfree].
      unfold wbind at 1, create_dataset_item at 1.
      rewrite keyword_call_ok by by apply Forall_singleton.
      rewrite (Hstore [CreateDatasetItem dataset_name item]); [|done|].
      2:{ rewrite fmap_cons. apply (prefix_app [_] [] _), prefix_nil. }
      apply IH; [done| |].
      + rewrite fmap_cons in Hbad.
        by rewrite <- app_assoc.
      + intros calls Hne Hpre. rewrite <- app_assoc. apply Hstore; [done|].
        rewrite fmap_cons. by apply prefix_cons. }
  split.
  - intros Hclash. apply Hstop. unfold create_dataset_item.
    apply (keyword_call_clash _ _ _ _ "dataset_name"); [by left|done].
  - intros e Hfree' Hreject. apply Hstop. subst attempt.
    unfold create_dataset_item.
    rewrite keyword_call_ok by by apply Forall_singleton.
    by rewrite <- app_assoc, Hreject.
Qed.

(** X25.  Whatever happens, the calls that [generate_dataset] has issued
    when it ends are an initial part of: the dataset, then the items of
    [data] in order.  No item is created before the dataset or out of
    order, none twice, and a call that returns has issued them all. *)
Theorem generate_dataset_calls dataset_name dataset_params data h h' r :
  generate_dataset dataset_name dataset_params data h = (h', r) →
  ∃ calls, h' = h ++ calls ∧
    calls `prefix_of` dataset_calls dataset_name dataset_params data ∧
    (r = inr tt → calls = dataset_calls dataset_name dataset_params data).
Proof.
  unfold generate_dataset, dataset_calls. intros Hrun.
  apply wbind_inv in Hrun as [(e & Hds & ->)|([] & h1 & Hds & Hrun)];
    apply keyword_call_inv in Hds as [[-> He]|[-> Hans]].
  - exists []. rewrite app_nil_r. split_and!; [done|apply prefix_nil|done].
  - exists [CreateDataset dataset_name dataset_params].
    split_and!; [done|apply (prefix_app [_] [] _), prefix_nil|done].
  - by destruct He.
  - destruct data as [items|]; simpl.
    + apply weach_items_inv in Hrun as (calls & -> & Hpre & Hall).
      exists (CreateDataset dataset_name dataset_params :: calls).
      rewrite <- app_assoc. split_and!; [done|by apply prefix_cons|].
      intros Hr. f_equal. by apply Hall.
    + injection Hrun as <- <-.
      by exists [CreateDataset dataset_name dataset_params].
Qed.

(** X26.  [generate_prompt] hands the prompt to the store as it is
    given, text or list alike, together with the extra keyword arguments,
    in one call whose outcome is its own; a [name] among the extra
    keyword arguments is a [TypeError], and nothing is created. *)
Theorem generate_prompt_forwards prompt_name prompt kwargs h :
  ("name" ∉ dict_keys kwargs → "prompt" ∉ dict_keys kwargs →
   generate_prompt prompt_name prompt kwargs h =
     (h ++ [CreatePrompt prompt_name prompt kwargs],
      store_answer (h ++ [CreatePrompt prompt_name prompt kwargs]))) ∧
  ("name" ∈ dict_keys kwargs →
   generate_prompt prompt_name prompt kwargs h =
     (h, inl (TypeError "got multiple values for keyword argument"))).
Proof.
  split.
  - intros Hname Hprompt. apply keyword_call_ok.
    by repeat constructor.
  - intros Hname. apply (keyword_call_clash _ _ _ _ "name"); [by left|done].
Qed.
End registrars.

(* ===================================================================== *)
(** * A sleep after every turn *)
(* ===================================================================== *)

Lemma paced_turns_sleeps {A} (R : Z) (P : A → event → Prop) xs turns :
  (∀ x opening, P x opening → sleeps [opening] = []) →
  Forall2 (λ x turn, ∃ opening, P x opening ∧ paced_turn opening R turn)
    xs turns →
  sleeps (concat turns) =
    if 0 <? R then replicate (length xs) (60 / inject_Z R)%Q else [].
Proof.
  intros Hopening. induction 1 as [|x turn xs turns Hturn _ IH].
  { by destruct (0 <? R). }
  destruct Hturn as (opening & Hx & work & -> & Hwork).
  apply uncounted_projections in Hwork as (Hs & _ & _).
  rewrite concat_cons.
  change (opening :: work ++ pause R) with ([opening] ++ work ++ pause R).
  rewrite !sleeps_app, (Hopening x opening Hx), Hs, IH.
  unfold pause. by destruct (0 <? R).
Qed.

Lemma total_sleep_paced evs (K : nat) (R : Z) :
  sleeps evs = (if 0 <? R then replicate K (60 / inject_Z R)%Q else []) →
  (total_sleep evs ==
     if 0 <? R then inject_Z (Z.of_nat K) * (60 / inject_Z R) else 0)%Q.
Proof.
  unfold total_sleep. intros ->. destruct (0 <? R); [|done].
  apply total_sleep_replicate.
Qed.

Section pacing.
Context {remote : Remote}.

Lemma turn_trace_paced p experiment_name evaluator params R t item turn :
  sleep_time R = inr t →
  turn_trace p experiment_name evaluator params t item turn →
  paced_turn (EvItemRun (item_id item) experiment_name params) R turn.
Proof.
  intros Ht (input & model & kwargs & messages & cfg & response & _ & ->).
  rewrite (pause_sleep_time R t Ht).
  exists ([EvGeneration (prompt_name p +:+ "-llm-call") input
             [("item_id", PStr (item_id item)); ("run", PStr experiment_name)]
             model;
           EvCompile kwargs; EvChatCreate messages cfg;
           EvGenerationUpdate response; EvUpdateTrace kwargs response]
          ++ match evaluator with
             | Some _ => [EvEvaluate response (item_id item)]
             | None => []
             end).
  split; [by rewrite <- app_assoc|].
  destruct evaluator; by repeat constructor.
Qed.

(** C2, as the code has it.  In a completed run of [run_experiment] every
    processed item is followed by a sleep, the last item included: the
    events of the run are those of loading the prompt and the dataset and
    then, item after item, a turn that opens the item, does its work and
    ends in the sleep, of [60/R] seconds when the rate [R] is positive.
    Over [K] items that is [K] sleeps, [K * (60/R)] seconds in total, and
    there is no sleep at all when [R <= 0].  A call that leaves the rate
    out runs at [R = 1000].  The loop of [get_dataset_run] does the same:
    every trace fetch is followed by the sleep, the last fetch included,
    with [R = 25] when the rate is left out. *)
Theorem sleep_after_every_turn :
  (∀ self experiment_name pname dataset_name evaluator params
      test_count requests_per_minute s s',
     run_experiment self experiment_name pname dataset_name evaluator
       params test_count requests_per_minute s = (s', inr tt) →
     ∃ dataset turns,
       let R := default 1000 requests_per_minute in
       let items := slice_to (dataset_items dataset) test_count in
       let K := length items in
       let evs :=
         [EvGetPrompt pname []; EvGetDataset dataset_name] ++ concat turns in
       get_dataset
         (log s ++ [EvGetPrompt pname []; EvGetDataset dataset_name])
         dataset_name = inr dataset ∧
       log s' = log s ++ evs ∧
       Forall2
         (λ item,
            paced_turn (EvItemRun (item_id item) experiment_name params) R)
         items turns ∧
       sleeps evs = (if 0 <? R then replicate K (60 / inject_Z R)%Q else []) ∧
       (total_sleep evs ==
          if 0 <? R then inject_Z (Z.of_nat K) * (60 / inject_Z R) else 0)%Q) ∧
  (∀ self dataset_name run_name limit requests_per_minute trace_info
      dataset_item_info s s' records,
     get_dataset_run self dataset_name run_name limit requests_per_minute
       trace_info dataset_item_info s = (s', inr (Some records)) →
     ∃ before run_items turns,
       let R := default 25 requests_per_minute in
       let K := length records in
       let evs := before ++ concat turns in
       log s' = log s ++ evs ∧
       Forall (λ e, counted e = false) before ∧
       Forall2
         (λ run_item turn,
            ∃ trace_id, subscript run_item "traceId" = inr trace_id ∧
              paced_turn (EvTraceGet trace_id) R turn)
         run_items turns ∧
       K = length run_items ∧
       sleeps evs = (if 0 <? R then replicate K (60 / inject_Z R)%Q else []) ∧
       (total_sleep evs ==
          if 0 <? R then inject_Z (Z.of_nat K) * (60 / inject_Z R) else 0)%Q).
Proof.
  split.
  - intros self experiment_name pname dataset_name evaluator params
      test_count requests_per_minute s s' Hrun.
    apply run_experiment_inv in Hrun
      as (p & dataset & t & s0 & Hp & Hds & Ht & Hlog0 & Hloop).
    apply (for_each_trace _ _ _ (run_item_inv _ _ _ _ _)) in Hloop
      as (turns & Hturns & Hlog).
    exists dataset, turns. cbv zeta.
    set (R := default 1000 requests_per_minute) in *.
    assert (Forall2
              (λ item,
                 paced_turn (EvItemRun (item_id item) experiment_name params)
                   R)
              (slice_to (dataset_items dataset) test_count) turns) as Hpaced.
    { eapply Forall2_impl; [exact Hturns|].
      intros item turn. by apply turn_trace_paced. }
    assert (sleeps ([EvGetPrompt pname []; EvGetDataset dataset_name]
                      ++ concat turns) =
              if 0 <? R
              then replicate
                     (length (slice_to (dataset_items dataset) test_count))
                     (60 / inject_Z R)%Q
              else []) as Hsleeps.
    { rewrite sleeps_app. simpl.
      apply (paced_turns_sleeps _
               (λ item opening,
                  opening = EvItemRun (item_id item) experiment_name params)).
      - by intros ? ? ->.
      - eapply Forall2_impl; [exact Hpaced|]. intros item turn ?. eauto. }
    split_and!; [done|by rewrite Hlog, Hlog0, <- app_assoc|done|done|].
    by apply total_sleep_paced.
  - intros self dataset_name run_name limit requests_per_minute trace_info
      dataset_item_info s s' records Hrun.
    apply get_dataset_run_returns in Hrun
      as (host & public_key & secret_key & dataset & response & _ & _ & _
          & _ & _ & Hcase).
    destruct Hcase
      as [(_ & [=] & _)
         |(_ & body & data & t & run_items & recs & _ & _ & Ht & _ & Hloop
           & [= ->])].
    pose proof Hloop as Hlen.
    apply (collect_ok_length _ _ _ _ _) in Hlen.
    apply collect_fetch_trace in Hloop as (_ & _ & turns & Hlog & Hturns).
    simpl in Hlog.
    exists [EvGetDataset dataset_name;
            EvHttpGet (run_items_url host) (public_key, secret_key)
              (run_items_params (dataset_id dataset) run_name
                 (default 100 limit))], run_items, turns.
    cbv zeta.
    set (R := default 25 requests_per_minute) in *.
    assert (Forall2
              (λ run_item turn,
                 ∃ trace_id, subscript run_item "traceId" = inr trace_id ∧
                   paced_turn (EvTraceGet trace_id) R turn)
              run_items turns) as Hpaced.
    { eapply Forall2_impl; [exact Hturns|].
      intros run_item turn (trace_id & Hid & ->). exists trace_id.
      split; [done|]. exists []. rewrite (pause_sleep_time _ t Ht).
      split; [done|constructor]. }
    rewrite length_fmap, Hlen.
    assert (sleeps ([EvGetDataset dataset_name;
                     EvHttpGet (run_items_url host) (public_key, secret_key)
                       (run_items_params (dataset_id dataset) run_name
                          (default 100 limit))] ++ concat turns) =
              if 0 <? R
              then replicate (length run_items) (60 / inject_Z R)%Q
              else []) as Hsleeps.
    { rewrite sleeps_app. simpl.
      apply (paced_turns_sleeps _
               (λ run_item opening,
                  ∃ trace_id, opening = EvTraceGet trace_id ∧
                    subscript run_item "traceId" = inr trace_id)).
      - by intros ? ? (? & -> & _).
      - eapply Forall2_impl; [exact Hpaced|].
        intros run_item turn (trace_id & Hid & Hturn). eauto. }
    split_and!; [by rewrite Hlog, <- app_assoc|by repeat constructor|done
                |done|done|].
    by apply total_sleep_paced.
Qed.
End pacing.

(* ===================================================================== *)
(** * The statements on the scenario *)
(* ===================================================================== *)

Import Scenario.
Import Cases.


(** C1 as the specification words it (the trace's value wins) fails: with
    ["output"] requested from both the trace (whose output is ["bar"]) and
    the item (whose [output] attribute is ["item-a"]), the record that
    [get_dataset_run] returns holds the item's value, not the trace's. *)
Lemma trace_value_loses_collision :
  "output" ∈ ["output"] ∧
  getattr (trace_of "a") "output" PNone = PStr "bar" ∧
  dict_get "output" (combine (trace_of "a") item_a ["output"] ["output"])
    ≠ Some (getattr (trace_of "a") "output" PNone) ∧
  (get_dataset_run (remote:=world) patched "d" "one" None None
     (Some ["output"]) (Some ["output"]) start).2
    = inr (Some [PDict [("output", PStr "item-a")]]).
Proof. split_and!; [by left|done|by vm_compute|by vm_compute]. Qed.

(** C1 on the scenario: ["output"] requested from both sources. *)
Lemma item_value_wins_collision_witness :
  "output" ∈ ["output"] ∧
  dict_get "output" (combine (trace_of "a") item_a ["output"] ["output"])
    = Some (PStr "item-a").
Proof.
  split; [by left|].
  exact (item_value_wins_collision (trace_of "a") item_a ["output"]
           ["output"] "output" (list_elem_of_here _ _) (list_elem_of_here _ _)).
Defined.

(** C10 on the scenario: ["nope"] is an attribute of neither the trace nor
    the item. *)
Lemma requested_fields_present_witness :
  ("nope" ∈ ["output"] ∨ "nope" ∈ ["nope"]) ∧
  hasattr item_a "nope" = false ∧
  dict_get "nope" (combine (trace_of "a") item_a ["output"] ["nope"])
    = Some PNone.
Proof.
  split_and!; [right; by left|reflexivity|].
  destruct (requested_fields_present (trace_of "a") item_a ["output"]
              ["nope"] "nope" (or_intror (list_elem_of_here _ _)))
    as (_ & _ & Hitem & _).
  exact (proj2 (Hitem (list_elem_of_here _ _) eq_refl)).
Defined.

(** C2 as the specification words it (no sleep after the last item) fails.
    One item at 60 requests per minute: the last event of the run is a
    sleep of a second, and the run of its only item lies before that
    sleep, where the specification has [(1 - 1) * (60/60) = 0] seconds.
    With the rate left out, the run ends in a sleep too, at the default
    rate of 1000 per minute.  The loop of [get_dataset_run] ends in the
    sleep that follows its only fetch in the same way. *)
Lemma trailing_sleep_counterexample :
  let run R :=
    run_experiment (remote:=world) patched "e" "p" "d" None [] (Some 1) R start
  in
  let paced := run (Some 60) in
  let unset := run None in
  let fetch :=
    get_dataset_run (remote:=world) patched "d" "one" None (Some 60) None None
      start in
  let specified := (inject_Z (1 - 1) * (60 / inject_Z 60))%Q in
  paced.2 = inr tt ∧
  (∃ before,
     log paced.1 = before ++ [EvSleep (60 / inject_Z 60)] ∧
     item_runs before = ["a"] ∧ sleeps before = []) ∧
  (total_sleep (log paced.1) == 1)%Q ∧
  ¬ (total_sleep (log paced.1) == specified)%Q ∧
  unset.2 = inr tt ∧
  (∃ before,
     log unset.1 = before ++ [EvSleep (60 / inject_Z 1000)] ∧
     item_runs before = ["a"] ∧ sleeps before = []) ∧
  (∃ before,
     log fetch.1 = before ++ [EvSleep (60 / inject_Z 60)] ∧
     trace_gets before = [PStr "a"] ∧ sleeps before = []) ∧
  ¬ (total_sleep (log fetch.1) == specified)%Q.
Proof.
  intros run paced unset fetch specified.
  split_and!; try by vm_compute.
  - exists (removelast (log paced.1)). split_and!; by vm_compute.
  - exists (removelast (log unset.1)). split_and!; by vm_compute.
  - exists (removelast (log fetch.1)). split_and!; by vm_compute.
Qed.

(** C2 on the scenario: two items at 60 per minute, three fetches at 120
    per minute.  The events of the run are the two loads and then one
    turn for each item, each turn ending in its sleep of a second; the
    events of the fetch end in the sleep that follows the third trace. *)
Lemma sleep_after_every_turn_witness :
  let run :=
    run_experiment (remote:=world) patched "e" "p" "d" None [] (Some 2)
      (Some 60) start in
  let fetch :=
    get_dataset_run (remote:=world) patched "d" "full" None (Some 120) None
      None start in
  run.2 = inr tt ∧
  (∃ turn_a turn_b,
     log run.1 =
       [EvGetPrompt "p" []; EvGetDataset "d"] ++ turn_a ++ turn_b ∧
     paced_turn (EvItemRun "a" "e" []) 60 turn_a ∧
     paced_turn (EvItemRun "b" "e" []) 60 turn_b) ∧
  pause 60 = [EvSleep (60 / inject_Z 60)] ∧
  sleeps (log run.1) = [(60 / inject_Z 60)%Q; (60 / inject_Z 60)%Q] ∧
  (∃ records before run_items turns,
     fetch.2 = inr (Some records) ∧ length records = 3%nat ∧
     length run_items = 3%nat ∧
     log fetch.1 = before ++ concat turns ∧
     Forall (λ e, counted e = false) before ∧
     Forall2
       (λ run_item turn,
          ∃ trace_id, subscript run_item "traceId" = inr trace_id ∧
            paced_turn (EvTraceGet trace_id) 120 turn)
       run_items turns) ∧
  sleeps (log fetch.1) = replicate 3 (60 / inject_Z 120)%Q.
Proof.
  pose proof (sleep_after_every_turn (remote:=world)) as [Hrun Hfetch].
  set (run := run_experiment (remote:=world) patched "e" "p" "d" None []
                (Some 2) (Some 60) start).
  set (fetch := get_dataset_run (remote:=world) patched "d" "full" None
                  (Some 120) None None start).
  assert (run = (run.1, inr tt)) as Hrun_eq by by vm_compute.
  unfold run at 1 in Hrun_eq.
  destruct (Hrun _ _ _ _ _ _ _ _ _ _ Hrun_eq)
    as (dataset & turns & Hds & Hlog & Hturns & Hsleeps & _).
  assert (dataset = the_dataset) as -> by (simpl in Hds; congruence).
  change (slice_to (dataset_items the_dataset) (Some 2))
    with [item 0 "a" "foo"; item 1 "b" "baz"] in Hturns, Hsleeps.
  apply Forall2_cons_inv_l in Hturns as (turn_a & rest & Ha & Hturns & ->).
  apply Forall2_cons_inv_l in Hturns as (turn_b & rest' & Hb & Hturns & ->).
  apply Forall2_nil_inv_l in Hturns as ->.
  assert (∃ records, fetch = (fetch.1, inr (Some records))
                     ∧ length records = 3%nat) as (records & Hfetch_eq & Hlen).
  { eexists. split; by vm_compute. }
  unfold fetch at 1 in Hfetch_eq.
  destruct (Hfetch _ _ _ _ _ _ _ _ _ _ Hfetch_eq)
    as (before & run_items & turns & Hlog' & Hbefore & Hturns' & Hcount
        & Hsleeps' & _).
  split_and!.
  - by vm_compute.
  - exists turn_a, turn_b. split_and!; [|done|done].
    rewrite Hlog. simpl. by rewrite app_nil_r.
  - done.
  - rewrite Hlog. exact Hsleeps.
  - exists records, before, run_items, turns.
    split_and!; [fold fetch in Hfetch_eq; by rewrite Hfetch_eq|done
                |by rewrite <- Hcount|done|done|done].
  - rewrite Hlog'. etrans; [exact Hsleeps'|]. by rewrite Hlen.
Defined.

(** C3 on the scenario.  The stored configuration has a schema before the
    first call of [run_prompt] and has lost it after: the second call, on
    the next item and again without an override, finds no schema and
    compiles the template without ["json_schema_str"]. *)
Lemma stored_config_loses_schema :
  let first := run_prompt (remote:=world) runner (input_ref 0) None start in
  let second := run_prompt (remote:=world) runner (input_ref 1) None first.1 in
  heap start !! config_ref = Some stored_config ∧
  dict_get "json_schema" stored_config = Some (PDict [("s", PStr "skill")]) ∧
  first.2 = inr "bar" ∧
  heap first.1 !! config_ref = Some [("model", PStr "m")] ∧
  heap first.1 !! config_ref ≠ heap start !! config_ref ∧
  compile_inputs (log first.1)
    = [[("x", PAtom (AInt 1)); ("json_schema_str", PStr "'s': skill")]] ∧
  second.2 = inr "bar" ∧
  compile_inputs (log second.1)
    = [[("x", PAtom (AInt 1)); ("json_schema_str", PStr "'s': skill")];
       [("x", PAtom (AInt 2))]].
Proof. split_and!; by vm_compute. Qed.

(** An empty schema counts as no schema: the entry is removed from the
    configuration, and nothing is added to the payload. *)
Example empty_schema_not_injected :
  let s := State {[ config_ref := [("model", PStr "m"); ("json_schema", PDict [])];
                    input_ref 0 := [("x", PAtom (AInt 1))] ]} ∅ [] in
  let out := run_prompt (remote:=world) runner (input_ref 0) None s in
  out.2 = inr "bar" ∧
  heap out.1 !! input_ref 0 = Some [("x", PAtom (AInt 1))] ∧
  chat_configs (log out.1) = [[("model", PStr "m")]].
Proof. split_and!; by vm_compute. Qed.

(** C4 on the scenario: the stored configuration with its schema, the
    payload of the first item.  The payload that is left in the store and
    that the template is compiled with holds the rendered schema, and the
    configuration that reaches the client holds the model and no schema. *)
Lemma schema_injected_and_withheld_witness :
  let run := run_prompt (remote:=world) runner (input_ref 0) None start in
  let kwargs :=
    [("x", PAtom (AInt 1)); ("json_schema_str", PStr "'s': skill")] in
  select_config runner None start = (start, inr config_ref) ∧
  heap start !! config_ref = Some stored_config ∧
  dict_get "json_schema" stored_config = Some (PDict [("s", PStr "skill")]) ∧
  heap start !! input_ref 0 = Some [("x", PAtom (AInt 1))] ∧
  heap run.1 !! input_ref 0 = Some kwargs ∧
  ∃ cfg',
    log run.1 = [EvCompile kwargs; EvChatCreate (PList [PDict kwargs]) cfg'] ∧
    dict_get "json_schema" cfg' = None ∧
    dict_get "model" cfg' = Some (PStr "m") ∧
    run.2 = inr "bar".
Proof.
  intros run kwargs.
  assert (heap run.1 !! input_ref 0 = Some kwargs) as Hstored by by vm_compute.
  split_and!; [reflexivity..|exact Hstored|].
  destruct (schema_injected_and_withheld (remote:=world) runner (input_ref 0)
              None start config_ref stored_config [("s", PStr "skill")]
              [("x", PAtom (AInt 1))] eq_refl eq_refl eq_refl
              ltac:(discriminate) eq_refl)
    as (s' & r & evs & kw & Hrun & Hlog & Hheap & _ & _ & Hcall).
  fold run in Hrun. rewrite Hrun in Hstored. cbn [fst] in Hstored.
  assert (kw = kwargs) as -> by congruence.
  simpl in Hcall. destruct Hcall as (cfg' & -> & Hgone & Hkeep & ->).
  exists cfg'. rewrite Hrun. cbn [fst snd].
  split_and!; [exact Hlog|exact Hgone|by rewrite Hkeep|done].
Defined.

(** C5 on the scenario, with a runner that comes straight from
    [ExperimentRunner.__init__]: three items and a limit of two, so two
    items are to be processed; [run_experiment] raises [AttributeError] on
    [self.env_path] before it loads the dataset, and processes none. *)
Lemma fresh_runner_processes_nothing :
  let made := ExperimentRunner_init (remote:=world) None start in
  let run self :=
    run_experiment (remote:=world) self "e" "p" "d" None [] (Some 2) (Some 0)
      made.1 in
  made.2 = inr {| runner_env_path := None |} ∧
  (length items `min` 2 = 2)%nat ∧
  (run {| runner_env_path := None |}).2 = inl (AttributeError "env_path") ∧
  item_runs (log (run {| runner_env_path := None |}).1) = [].
Proof. split_and!; by vm_compute. Qed.

(** X9 on the scenario, for a runner whose [env_path] attribute
    has been assigned: three items, a limit of two. *)
Lemma run_experiment_processes_slice_on_scenario :
  let run :=
    run_experiment (remote:=world) patched "e" "p" "d" None [] (Some 2)
      (Some 0) start in
  run.2 = inr tt ∧
  ∃ evs, log run.1 = log start ++ evs ∧
    item_runs evs = item_id <$> take 2 items ∧
    length (item_runs evs) = (length items `min` 2)%nat.
Proof.
  set (run := run_experiment (remote:=world) patched "e" "p" "d" None []
                (Some 2) (Some 0) start).
  assert (run = (run.1, run.2)) as Hrun_eq by by destruct run.
  unfold run at 1 in Hrun_eq.
  split; [by vm_compute|].
  destruct (run_experiment_processes_slice (remote:=world) _ _ _ _ _ _ _ _ _
              _ _ Hrun_eq) as (evs & Hlog & Hok & _).
  exists evs. split; [done|].
  destruct (Hok ltac:(by vm_compute)) as (dataset & Hds & _ & Hlimit & _).
  injection Hds as <-. by apply (Hlimit 2).
Defined.

(** C6 on the scenario: the endpoint refuses the run ["denied"] with 401. *)
Lemma http_error_returns_None_witness :
  environ start !! "LANGFUSE_HOST" = Some "https://host" ∧
  400 ≤ status_code (endpoint (run_items_params "ds-1" "denied" 100)) < 600 ∧
  (get_dataset_run (remote:=world) patched "d" "denied" None None None None
     start).2 = inr None.
Proof.
  split; [reflexivity|]. split; [by vm_compute|].
  by rewrite (http_error_returns_None (remote:=world) patched "d" "denied"
                None None None None start "https://host" "pk" "sk"
                the_dataset
                (endpoint (run_items_params "ds-1" "denied" 100))
                eq_refl eq_refl eq_refl eq_refl eq_refl
                ltac:(by vm_compute)).
Defined.

(** C7 on the scenario: the second trace of the run ["orphan"] records the
    item id ["zzz"], which the dataset does not hold. *)
Lemma orphan_trace_raises_witness :
  ("zzz" ∉ item_id <$> items) ∧
  getattr_strict (trace_of "zzz") "metadata"
    = inr (PDict [("dataset_item_id", PStr "zzz")]) ∧
  (get_dataset_run (remote:=world) patched "d" "orphan" None None None None
     start).2 = inl (KeyError (PStr "zzz")).
Proof.
  split_and!; [compute_done|reflexivity..|].
  pose (request := EvHttpGet (run_items_url "https://host") ("pk", "sk")
                     (run_items_params "ds-1" "orphan" 100)).
  pose (s0 := State (heap start) (environ start) [EvGetDataset "d"; request]).
  pose (before := collect
                    (fetch_trace (remote:=world) (build_item_lookup items)
                       ["input"; "output"] [] (60 / inject_Z 25)%Q)
                    [PDict [("traceId", PStr "a")]] s0).
  erewrite (orphan_trace_raises (remote:=world) patched "d" "orphan" None None
              None None start the_dataset [PDict [("traceId", PStr "a")]]
              (PDict [("traceId", PStr "zzz")])
              [PDict [("traceId", PStr "c")]] s0 before.1
              [combine (trace_of "a") item_a ["input"; "output"] []]
              (PStr "zzz") (trace_of "zzz")
              (PDict [("dataset_item_id", PStr "zzz")]) "zzz"
              (60 / inject_Z 25)%Q).
  - reflexivity.
  - exists "https://host", "pk", "sk",
      (endpoint (run_items_params "ds-1" "orphan" 100)),
      (run_items_of ["a"; "zzz"; "c"]),
      (PList ((λ i, PDict [("traceId", PStr i)]) <$> ["a"; "zzz"; "c"])).
    split_and!; try reflexivity. cbv zeta.
    split_and!; try reflexivity. change (¬ 400 ≤ 200 < 600). lia.
  - by vm_compute.
  - by vm_compute.
  - reflexivity.
  - reflexivity.
  - reflexivity.
  - reflexivity.
  - compute_done.
Defined.


(** X1 on the scenario: the first item, the stored configuration. *)
Lemma run_prompt_calls_witness :
  let run := run_prompt (remote:=world) runner (input_ref 0) None start in
  let kwargs :=
    [("x", PAtom (AInt 1)); ("json_schema_str", PStr "'s': skill")] in
  run.2 = inr "bar" ∧
  heap run.1 !! input_ref 0 = Some kwargs ∧
  ∃ cfg,
    heap run.1 !! config_ref = Some cfg ∧
    log run.1 = log start
                  ++ [EvCompile kwargs; EvChatCreate (PList [PDict kwargs]) cfg] ∧
    dict_get "json_schema" cfg = None.
Proof.
  intros run kwargs.
  assert (run = (run.1, run.2)) as Hrun by by destruct run.
  unfold run at 1 in Hrun.
  assert (heap run.1 !! input_ref 0 = Some kwargs) as Hstored by by vm_compute.
  split_and!; [by vm_compute|exact Hstored|].
  destruct (run_prompt_calls (remote:=world) _ _ _ _ _ _ Hrun)
    as (evs & Hlog & [[_ [e He]]|(c & kw & cfg & Hsel & Hkw & Hcfg & Hgone
                                   & Hcase)]).
  { by vm_compute in He. }
  assert (kw = kwargs) as -> by congruence.
  assert (c = config_ref) as ->.
  { change (select_config runner None start)
      with (start, @inr exn loc config_ref) in Hsel.
    by injection Hsel as <-. }
  assert (dict_get "messages" cfg = None) as Hfree.
  { assert (heap run.1 !! config_ref = Some [("model", PStr "m")]) as Hm
      by by vm_compute.
    rewrite Hm in Hcfg. by injection Hcfg as <-. }
  cbn [prompt_compile world] in Hcase. rewrite Hfree in Hcase.
  destruct Hcase as [-> _]. by exists cfg.
Defined.

(** X2 on the scenario, with a stored configuration that has no schema. *)
Lemma run_prompt_without_schema_witness :
  let s := with_config [("model", PStr "m")] in
  let run := run_prompt (remote:=world) runner (input_ref 0) None s in
  dict_get "json_schema" [("model", PStr "m")] = None ∧
  run.2 = inr "bar" ∧
  heap run.1 = heap s ∧
  log run.1 = [EvCompile [("x", PAtom (AInt 1))];
               EvChatCreate (PList [PDict [("x", PAtom (AInt 1))]])
                 [("model", PStr "m")]].
Proof.
  cbv zeta.
  rewrite (run_prompt_without_schema (remote:=world) runner (input_ref 0) None
             (with_config [("model", PStr "m")]) config_ref
             [("model", PStr "m")] [("x", PAtom (AInt 1))]
             eq_refl eq_refl eq_refl eq_refl).
  by split_and!.
Defined.

(** X3 on the scenario, with an empty schema. *)
Lemma run_prompt_falsy_schema_witness :
  let cfg := [("model", PStr "m"); ("json_schema", PDict [])] in
  let run :=
    run_prompt (remote:=world) runner (input_ref 0) None (with_config cfg) in
  truthy (PDict []) = false ∧
  run.2 = inr "bar" ∧
  heap run.1 !! config_ref = Some [("model", PStr "m")] ∧
  log run.1 = [EvCompile [("x", PAtom (AInt 1))];
               EvChatCreate (PList [PDict [("x", PAtom (AInt 1))]])
                 [("model", PStr "m")]].
Proof.
  cbv zeta.
  rewrite (run_prompt_falsy_schema (remote:=world) runner (input_ref 0) None
             (with_config [("model", PStr "m"); ("json_schema", PDict [])])
             config_ref [("model", PStr "m"); ("json_schema", PDict [])]
             (PDict []) [("x", PAtom (AInt 1))]
             eq_refl eq_refl eq_refl eq_refl eq_refl ltac:(discriminate)).
  by split_and!.
Defined.

(** X4 on the scenario, with the schema given as a text. *)
Lemma run_prompt_schema_not_mapping_witness :
  let cfg := [("model", PStr "m"); ("json_schema", PStr "'s': skill")] in
  let run :=
    run_prompt (remote:=world) runner (input_ref 0) None (with_config cfg) in
  truthy (PStr "'s': skill") = true ∧
  run.2 = inl (AttributeError "items") ∧
  heap run.1 !! config_ref = Some [("model", PStr "m")] ∧
  log run.1 = [].
Proof.
  cbv zeta.
  rewrite (run_prompt_schema_not_mapping (remote:=world) runner (input_ref 0)
             None
             (with_config [("model", PStr "m");
                           ("json_schema", PStr "'s': skill")])
             config_ref
             [("model", PStr "m"); ("json_schema", PStr "'s': skill")]
             (PStr "'s': skill") eq_refl eq_refl eq_refl
             (or_introl (ex_intro _ "'s': skill" eq_refl)) eq_refl).
  by split_and!.
Defined.

(** X5 on the scenario: the override carries the schema, and so does the
    stored configuration, which keeps it. *)
Lemma run_prompt_override_spares_stored_witness :
  let s := with_config stored_config in
  let run :=
    run_prompt (remote:=world) runner (input_ref 0) (Some override_ref) s in
  heap s !! override_ref = Some the_override ∧
  heap run.1 !! config_ref = Some stored_config ∧
  ∃ d', heap run.1 !! override_ref = Some d' ∧
    dict_get "json_schema" d' = None.
Proof.
  set (s := with_config stored_config).
  set (run := run_prompt (remote:=world) runner (input_ref 0)
                (Some override_ref) s).
  assert (run = (run.1, run.2)) as Hrun by by destruct run.
  unfold run at 1 in Hrun. split; [reflexivity|].
  destruct (run_prompt_override_spares_stored (remote:=world) runner
              (input_ref 0) override_ref s the_override run.1 run.2
              eq_refl ltac:(discriminate) ltac:(discriminate)
              ltac:(discriminate) Hrun) as [Hstored Hoverride].
  split; [|exact Hoverride]. etrans; [exact Hstored|reflexivity].
Defined.

(** X7 on the scenario, with a stored configuration that names no model. *)
Lemma prompt_app_requires_model_witness :
  let s := with_config [("temperature", PStr "0")] in
  let run := prompt_app (remote:=world) runner (input_ref 0) "a" "e" s in
  dict_get "model" [("temperature", PStr "0")] = None ∧
  run.2 = inl (KeyError (PStr "model")) ∧ log run.1 = [].
Proof.
  cbv zeta.
  rewrite (prompt_app_requires_model (remote:=world) runner (input_ref 0)
             "a" "e" (with_config [("temperature", PStr "0")])
             [("x", PAtom (AInt 1))] [("temperature", PStr "0")]
             eq_refl eq_refl eq_refl).
  by split_and!.
Defined.

(** X8 on the scenario: the first item. *)
Lemma prompt_app_records_response_witness :
  let run := prompt_app (remote:=world) runner (input_ref 0) "a" "e" start in
  run.2 = inr "bar" ∧
  ∃ kwargs messages cfg,
    log run.1 =
      [EvGeneration "attestation-llm-call" [("x", PAtom (AInt 1))]
         [("item_id", PStr "a"); ("run", PStr "e")] (PStr "m");
       EvCompile kwargs; EvChatCreate messages cfg;
       EvGenerationUpdate "bar"; EvUpdateTrace kwargs "bar"].
Proof.
  set (run := prompt_app (remote:=world) runner (input_ref 0) "a" "e" start).
  assert (run = (run.1, inr "bar")) as Hrun by by vm_compute.
  unfold run at 1 in Hrun. split; [by vm_compute|].
  destruct (prompt_app_records_response (remote:=world) _ _ _ _ _ _ _ Hrun)
    as (inp & cfg0 & model & kwargs & messages & cfg & rest & Hinp & Hcfg0
        & Hmodel & _ & _ & _ & Hlog).
  injection Hinp as <-. injection Hcfg0 as <-. injection Hmodel as <-.
  by exists kwargs, messages, cfg.
Defined.

(** X10 on the scenario: three items and a limit of [-1]. *)
Lemma run_experiment_nonpositive_limit_witness :
  let run :=
    run_experiment (remote:=world) patched "e" "p" "d" None [] (Some (-1))
      (Some 0) start in
  run.2 = inr tt ∧
  ∃ evs, log run.1 = log start ++ evs ∧ item_runs evs = ["a"; "b"].
Proof.
  set (run := run_experiment (remote:=world) patched "e" "p" "d" None []
                (Some (-1)) (Some 0) start).
  assert (run = (run.1, inr tt)) as Hrun by by vm_compute.
  unfold run at 1 in Hrun. split; [by vm_compute|].
  destruct (run_experiment_nonpositive_limit (remote:=world) _ _ _ _ _ _ (-1)
              _ _ _ ltac:(lia) Hrun)
    as (dataset & evs & Hds & Hlog & _ & Hneg).
  injection Hds as <-. exists evs. split; [done|].
  by rewrite Hneg.
Defined.

(** X11 on the scenario: a limit of one, no evaluator, no sleep. *)
Lemma run_experiment_trace_witness :
  let run :=
    run_experiment (remote:=world) patched "e" "p" "d" None [] (Some 1)
      (Some 0) start in
  run.2 = inr tt ∧
  ∃ turn,
    turn_trace the_prompt "e" None [] 0 (item 0 "a" "foo") turn ∧
    log run.1 = [EvGetPrompt "p" []; EvGetDataset "d"] ++ turn.
Proof.
  set (run := run_experiment (remote:=world) patched "e" "p" "d" None []
                (Some 1) (Some 0) start).
  assert (run = (run.1, inr tt)) as Hrun by by vm_compute.
  unfold run at 1 in Hrun. split; [by vm_compute|].
  destruct (run_experiment_trace (remote:=world) _ _ _ _ _ _ _ _ _ _ Hrun)
    as (p & dataset & t & turns & Hp & Hds & Ht & Hturns & Hlog).
  injection Hp as <-. injection Hds as <-. injection Ht as <-.
  change (slice_to (dataset_items the_dataset) (Some 1))
    with [item 0 "a" "foo"] in Hturns.
  apply Forall2_cons_inv_l in Hturns as (turn & rest & Hturn & Hrest & ->).
  apply Forall2_nil_inv_l in Hrest as ->.
  exists turn. split; [done|].
  rewrite Hlog. simpl. by rewrite app_nil_r.
Defined.

Lemma world_reliable : reliable (remote:=world) the_prompt None.
Proof.
  split; try done.
  - intros. by eexists.
  - intros. by eexists _, _.
Qed.

Lemma start_ready : ready the_prompt items start.
Proof.
  split.
  - exists stored_config. split_and!; [done|by eexists|done|].
    intros v [= <-] _. by eexists.
  - repeat constructor; by eexists.
Qed.

(** X12 on the scenario: all three items. *)
Lemma run_experiment_completes_witness :
  runner_env_path patched = Some None ∧
  environ start !! "OPENAI_API_KEY" = Some "sk-test" ∧
  dict_get "run_name" [] = None ∧
  1000 < float_limit ∧
  ∃ s', run_experiment (remote:=world) patched "e" "p" "d" None [] None None
          start = (s', inr tt).
Proof.
  split_and!; [reflexivity..|].
  exact (run_experiment_completes (remote:=world) patched "e" "p" "d" None []
           None None start the_prompt the_dataset eq_refl
           (ex_intro _ "sk-test" eq_refl)
           (λ _, eq_refl) (λ _, eq_refl) eq_refl eq_refl world_reliable
           start_ready).
Defined.

(** X14 on the scenario: the run ["denied"]. *)
Lemma None_only_after_http_error_witness :
  let fetch :=
    get_dataset_run (remote:=world) patched "d" "denied" None None None None
      start in
  fetch.2 = inr None ∧
  ∃ response, 400 ≤ status_code response < 600 ∧
    trace_gets (log fetch.1) = [] ∧ heap fetch.1 = heap start.
Proof.
  set (fetch := get_dataset_run (remote:=world) patched "d" "denied" None None
                  None None start).
  assert (fetch = (fetch.1, inr None)) as Hrun by by vm_compute.
  unfold fetch at 1 in Hrun. split; [by vm_compute|].
  destruct (None_only_after_http_error (remote:=world) _ _ _ _ _ _ _ _ _ Hrun)
    as (host & public_key & secret_key & dataset & response & _ & _ & _ & _
        & _ & Hcode & Hheap & Hlog).
  exists response. split_and!; [apply Hcode..| |done].
  by rewrite Hlog.
Defined.

(** X15 on the scenario: the run ["full"]. *)
Lemma records_follow_run_items_witness :
  let fetch :=
    get_dataset_run (remote:=world) patched "d" "full" None None None None
      start in
  ∃ records,
    fetch.2 = inr (Some records) ∧
    records_of (remote:=world) (build_item_lookup items) (heap start)
      ["input"; "output"] [] (60 / inject_Z 25)
      [EvGetDataset "d";
       EvHttpGet (run_items_url "https://host") ("pk", "sk")
         (run_items_params "ds-1" "full" 100)]
      [PDict [("traceId", PStr "a")]; PDict [("traceId", PStr "b")];
       PDict [("traceId", PStr "c")]]
      records.
Proof.
  set (fetch := get_dataset_run (remote:=world) patched "d" "full" None None
                  None None start).
  assert (∃ records, fetch = (fetch.1, inr (Some records)))
    as [records Hrun] by (eexists; by vm_compute).
  unfold fetch at 1 in Hrun. exists records.
  split; [fold fetch in Hrun; by rewrite Hrun|].
  destruct (records_follow_run_items (remote:=world) _ _ _ _ _ _ _ _ _ _ Hrun)
    as (dataset & run_items & t & s0 & Hreach & Ht & Hrecords).
  destruct Hreach as (host & public_key & secret_key & response & body & data
                      & Hhost & Hpk & Hsk & Hreach).
  injection Hhost as <-. injection Hpk as <-. injection Hsk as <-.
  cbv zeta in Hreach.
  destruct Hreach as (Hds & Hget & _ & Hbody & Hdata & Hiter & ->).
  injection Hds as <-. injection Hget as <-.
  injection Hbody as <-. injection Hdata as <-. injection Hiter as <-.
  injection Ht as <-.
  exact Hrecords.
Defined.

(** X16 on the scenario: the run ["full"]. *)
Lemma get_dataset_run_completes_witness :
  ∃ s' records,
    get_dataset_run (remote:=world) patched "d" "full" None None None None
      start = (s', inr (Some records)) ∧
    length records = 3%nat.
Proof.
  pose (request := EvHttpGet (run_items_url "https://host") ("pk", "sk")
                     (run_items_params "ds-1" "full" 100)).
  pose (s0 := State (heap start) (environ start) [EvGetDataset "d"; request]).
  apply (get_dataset_run_completes (remote:=world) patched "d" "full" None None
           None None start the_dataset
           [PDict [("traceId", PStr "a")]; PDict [("traceId", PStr "b")];
            PDict [("traceId", PStr "c")]] s0).
  - exists "https://host", "pk", "sk",
      (endpoint (run_items_params "ds-1" "full" 100)),
      (run_items_of ["a"; "b"; "c"]),
      (PList ((λ i, PDict [("traceId", PStr i)]) <$> ["a"; "b"; "c"])).
    split_and!; try reflexivity. cbv zeta.
    split_and!; try reflexivity. change (¬ 400 ≤ 200 < 600). lia.
  - reflexivity.
  - repeat apply List.Forall_cons; [| | |apply List.Forall_nil].
    + exists (PStr "a"), (trace_of "a"),
        (PDict [("dataset_item_id", PStr "a")]), "a", (item 0 "a" "foo").
      split_and!; try reflexivity. by eexists.
    + exists (PStr "b"), (trace_of "b"),
        (PDict [("dataset_item_id", PStr "b")]), "b", (item 1 "b" "baz").
      split_and!; try reflexivity. by eexists.
    + exists (PStr "c"), (trace_of "c"),
        (PDict [("dataset_item_id", PStr "c")]), "c", (item 2 "c" "qux").
      split_and!; try reflexivity. by eexists.
Defined.

(** X17 on the scenario, with an empty environment. *)
Lemma get_dataset_run_needs_environment_witness :
  let s := State (heap start) ∅ [] in
  get_dataset_run (remote:=world) patched "d" "full" None None None None s
    = (s, inl (KeyError (PStr "LANGFUSE_HOST"))).
Proof.
  exact (proj1 (get_dataset_run_needs_environment (remote:=world) patched "d"
                  "full" None None None None (State (heap start) ∅ []))
           eq_refl).
Defined.

(** X18 on the scenario: the ids of the three items are distinct. *)
Lemma item_lookup_last_wins_witness :
  NoDup (item_id <$> items) ∧
  lookup_item (build_item_lookup items) (PStr "b") = inr (item 1 "b" "baz").
Proof.
  assert (NoDup (item_id <$> items)) as Hnd by compute_done.
  split; [done|].
  apply (proj1 (proj2 (item_lookup_last_wins items)) Hnd (item 1 "b" "baz")).
  right. by left.
Defined.

(** X21 on the scenario: the environment holds the three Langfuse
    variables and no [OPENAI_API_KEY]. *)
Lemma constructors_check_environment_witness :
  ".env" ≠ EmptyString ∧
  DatasetGenerator_init (remote:=world) (Some ".env") unkeyed
    = (unkeyed, inr tt) ∧
  (ExperimentRunner_init (remote:=world) (Some ".env") unkeyed).2
    = inl (TypeError "str expected, not NoneType").
Proof.
  destruct (constructors_check_environment (remote:=world) ".env" unkeyed
              ltac:(discriminate)) as (_ & Hdataset & Hrunner & _).
  split; [discriminate|]. split.
  - rewrite Hdataset. by vm_compute.
  - rewrite Hrunner. by vm_compute.
Defined.

(** X22 on the scenario: without [OPENAI_API_KEY] no prompt is requested;
    with it the prompt is fetched. *)
Lemma PromptRunner_init_outcome_witness :
  let refused :=
    PromptRunner_init (remote:=world) "p" (Some ".env") [] unkeyed in
  let made := PromptRunner_init (remote:=world) "p" (Some ".env") [] start in
  environ unkeyed !! "OPENAI_API_KEY" = None ∧
  refused.2 = inl (TypeError "str expected, not NoneType") ∧
  log refused.1 = [] ∧
  made.2 = inr {| prompt := the_prompt |} ∧
  log made.1 = [EvGetPrompt "p" []].
Proof.
  cbv zeta.
  rewrite (PromptRunner_init_outcome (remote:=world) "p" ".env" [] unkeyed
             ltac:(discriminate)).
  rewrite (PromptRunner_init_outcome (remote:=world) "p" ".env" [] start
             ltac:(discriminate)).
  split_and!; by vm_compute.
Defined.

(** Go through the non-empty initial parts of a list of calls that is
    given in full. *)
Ltac each_prefix :=
  let calls := fresh "calls" in
  let Hne := fresh "Hne" in
  let rest := fresh "rest" in
  let Heq := fresh "Heq" in
  intros calls Hne [rest Heq];
  unfold dataset_calls in Heq; simpl in Heq;
  repeat (destruct calls as [|? calls];
          [first [done|simplify_eq/=; by vm_compute]|simplify_eq/=]).

(** X23 on a store that accepts every item but the one whose id is
    ["bad"]: two items. *)
Lemma generate_dataset_completes_witness :
  generate_dataset (store:=Registry.store) "d" [("description", PStr "demo")]
    (Some [Registry.good "1"; Registry.good "2"]) []
  = ([CreateDataset "d" [("description", PStr "demo")];
      CreateDatasetItem "d" (Registry.good "1");
      CreateDatasetItem "d" (Registry.good "2")], inr tt).
Proof.
  apply (generate_dataset_completes (store:=Registry.store) "d"
           [("description", PStr "demo")]
           (Some [Registry.good "1"; Registry.good "2"]) []).
  - compute_done.
  - repeat constructor; compute_done.
  - each_prefix.
Defined.

(** X24 on the same store: the second of three items is the one that the
    store rejects. *)
Lemma generate_dataset_stops_at_failure_witness :
  generate_dataset (store:=Registry.store) "d" []
    (Some [Registry.good "1"; Registry.good "bad"; Registry.good "3"]) []
  = ([CreateDataset "d" []; CreateDatasetItem "d" (Registry.good "1");
      CreateDatasetItem "d" (Registry.good "bad")],
     inl (RemoteError "rejected")).
Proof.
  assert ("name" ∉ dict_keys []) as Hname by compute_done.
  assert (Forall (λ item, "dataset_name" ∉ dict_keys item)
            [Registry.good "1"]) as Hfree by (repeat constructor; compute_done).
  assert (∀ calls, calls ≠ [] →
            calls `prefix_of` dataset_calls "d" [] (Some [Registry.good "1"]) →
            store_answer (Store:=Registry.store) ([] ++ calls) = inr tt)
    as Hstore by each_prefix.
  destruct (generate_dataset_stops_at_failure (store:=Registry.store) "d" []
              [Registry.good "1"] (Registry.good "bad") [Registry.good "3"] []
              Hname Hfree Hstore) as [_ Hreject].
  apply (Hreject (RemoteError "rejected")); [compute_done|by vm_compute].
Defined.

(** X25 on the same run. *)
Lemma generate_dataset_calls_witness :
  let data := [Registry.good "1"; Registry.good "bad"; Registry.good "3"] in
  let run := generate_dataset (store:=Registry.store) "d" [] (Some data) [] in
  run.2 = inl (RemoteError "rejected") ∧
  run.1 `prefix_of` dataset_calls "d" [] (Some data) ∧
  run.1 ≠ dataset_calls "d" [] (Some data).
Proof.
  set (data := [Registry.good "1"; Registry.good "bad"; Registry.good "3"]).
  set (run := generate_dataset (store:=Registry.store) "d" [] (Some data) []).
  assert (run = (run.1, run.2)) as Hrun by by destruct run.
  unfold run at 1 in Hrun.
  destruct (generate_dataset_calls (store:=Registry.store) _ _ _ _ _ _ Hrun)
    as (calls & Hcalls & Hpre & _).
  change (run.1 = calls) in Hcalls. subst calls.
  split_and!; [by vm_compute|exact Hpre|by vm_compute].
Defined.

(** X26 on the same store: a chat prompt given as a list, once with a
    label and once with a [name] among the keyword arguments. *)
Lemma generate_prompt_forwards_witness :
  let turns := PList [PDict [("role", PStr "system");
                             ("content", PStr "Rate {{x}}")]] in
  generate_prompt (store:=Registry.store) "p" turns
    [("labels", PList [PStr "production"])] []
  = ([CreatePrompt "p" turns [("labels", PList [PStr "production"])]], inr tt) ∧
  generate_prompt (store:=Registry.store) "p" turns [("name", PStr "q")] []
  = ([], inl (TypeError "got multiple values for keyword argument")).
Proof.
  cbv zeta. split.
  - apply (proj1 (generate_prompt_forwards (store:=Registry.store) "p" _
                    [("labels", PList [PStr "production"])] []));
      compute_done.
  - apply (proj2 (generate_prompt_forwards (store:=Registry.store) "p" _
                    [("name", PStr "q")] [])).
    compute_done.
Defined.

(** X13 on the scenario: a runner made without a path. *)
Lemma run_experiment_fresh_runner_raises_witness :
  ∃ self,
    ExperimentRunner_init (remote:=world) None start = (start, inr self) ∧
    run_experiment (remote:=world) self "e" "p" "d" None [] None None start
      = (start, inl (AttributeError "env_path")).
Proof.
  eexists. split; [reflexivity|].
  exact (run_experiment_fresh_runner_raises (remote:=world) None start start
           _ "e" "p" "d" None [] None None eq_refl).
Defined.

(** X6 on the scenario: the first two items, one after the other. *)
Lemma schema_injected_once_witness :
  let first := run_prompt (remote:=world) runner (input_ref 0) None start in
  let second := run_prompt (remote:=world) runner (input_ref 1) None first.1 in
  dict_get "json_schema" stored_config = Some (PDict [("s", PStr "skill")]) ∧
  compile_inputs (log second.1)
    = [[("x", PAtom (AInt 1)); ("json_schema_str", PStr "'s': skill")];
       [("x", PAtom (AInt 2))]].
Proof.
  set (first := run_prompt (remote:=world) runner (input_ref 0) None start).
  assert (first = (first.1, first.2)) as Hfirst by by destruct first.
  unfold first at 1 in Hfirst.
  destruct (schema_injected_once (remote:=world) runner (input_ref 0)
              (input_ref 1) start stored_config first.1 first.2
              [("x", PAtom (AInt 2))] eq_refl Hfirst ltac:(by vm_compute))
    as (cfg' & Hcfg' & _ & Hsecond).
  assert (heap first.1 !! prompt_config (prompt runner)
          = Some [("model", PStr "m")]) as Hstored by by vm_compute.
  rewrite Hstored in Hcfg'. injection Hcfg' as <-.
  cbv zeta. rewrite Hsecond. split; [reflexivity|]. simpl.
  unfold compile_inputs. rewrite omap_app. by vm_compute.
Defined.
